(* ===== verification/_CoqProject ===== *)
-Q . S2P
Prelude.v
Time.v
Http.v
World.v
Decimal.v
Jwt.v
Base64.v
Chrono.v
Calendar.v
Rfc3339.v
Json.v
JsonWrite.v
JsonFuel.v
Token.v
Decode.v
Body.v
Auth.v
Exchange.v
Bearer.v
Manager.v
Session.v
Contract.v
Scenario.v
