(* ===== verification/Prelude.v ===== *)
(** * Verification of github-app-auth (src/src/lib.rs)

    The crate authenticates a program with the GitHub API as a GitHub
    App.  Its parts and how they interact:
    - [JwtClaims::new] (lib.rs 67-81) reads the wall clock and builds the
      claims [iat = now], [exp = now + 60], [iss = app_id];
    - [get_installation_token] (lib.rs 96-118) signs the claims with
      jsonwebtoken (RS256 header, key from [EncodingKey::from_secret]),
      POSTs to [/app/installations/{id}/access_tokens] with a Bearer
      header and the machine-man preview [Accept] header, rejects an
      error status and decodes the body as a [RawInstallationToken]
      (lib.rs 83-89, [derive(Deserialize)]);
    - [InstallationToken] (lib.rs 120-177) is the credential manager:
      [new] builds the blocking client with the user agent and runs one
      exchange; [header] calls [refresh], which runs a new exchange when
      more than [55 * 60] whole seconds have elapsed since [fetch_time],
      and then returns [authorization: token <token>];
    - [AuthError] (lib.rs 37-55) wraps the four library errors.

    ** Files
    - Prelude.v (this file): Rust's [Result] as [result], the
      state-and-error monad [Eff S E A := S -> result A E * S] with its
      notation [x <- m ;; k] (scope [eff]), [eff_try] for [?] with the
      [From] conversion, u64/i64 ranges and wrap-around, string helpers,
      the hint databases [ghauth] and [ghauth_rw].
    - Time.v: [std::time] on Unix: [SystemTime] as a [Timespec] (i64
      seconds, nanoseconds below 10^9), [duration_since] with its error,
      [Duration::as_secs] (a floor).
    - Http.v: the parts of [http] and [reqwest::blocking] the crate
      calls: header value and name validation, [HeaderMap], the client
      builder, the request builder ([post], [bearer_auth], [header],
      [headers] with its replace-or-append merge), [error_for_status],
      and the response body read whole by [Response::json] before it is
      deserialized (a read that fails is reqwest's [Body] error).
    - World.v: the environment: the [n]-th clock reading, the remote's
      answer to the [n]-th request, the trace of requests sent and the
      log.  [now], [send] and [log_info] are its operations.
    - Decimal.v: [format!] of a u64 in decimal, with its parser, the
      round trip [parse_dec_dec_string] and the equivalence with stdpp's
      [pretty] ([dec_string_pretty]).
    - Jwt.v: jsonwebtoken's [Header], [Algorithm], [EncodingKey], the
      compact JWS layout with base64url; signing is the class
      [JwtEncoder], with the laws of jsonwebtoken 7's [encode]:
      [FamilyChecked] (a key of the wrong family is refused) and
      [JwsLayout] (the shape of a successful result); [family_checked_v7]
      has both, the stub [jws_unchecked] only the layout.
    - Base64.v: the inverse of base64url ([b64_decode]) and the round
      trip [b64_decode_encode]; no digit is a dot.
    - Chrono.v: chrono's RFC 3339 parse of [DateTime<Utc>].
    - Calendar.v: the day count [days_from_civil] of the parse is the
      number of days counted one by one from 1970-01-01
      ([date_after_spec], from [civil_days_next]); its inverse
      [civil_from_days] ([civil_from_days_spec]).
    - Rfc3339.v: the RFC 3339 writer of GitHub's timestamps
      ([to_rfc3339]) and the round trip [parse_to_rfc3339].
    - Json.v: serde_json's reader: whitespace, strings with escapes and
      UTF-8 validation, and skipping any value ([ignore_value]).
    - JsonWrite.v: serde_json's escaped string writer and its round trip
      with the reader ([parse_str_escape]: exactly the UTF-8 strings
      come back).
    - JsonFuel.v: every reader operation that succeeds consumes input,
      and the fuel of [ignore_value] is enough ([ignore_fuel_adequate]).
    - Token.v: [RawInstallationToken] and the derived visitor
      ([visit_map] for objects, [visit_seq] for arrays), [from_slice].
    - Decode.v: the visitor's fuel is enough
      ([visit_map_fuel_adequate]), and on flat objects of escaped UTF-8
      string fields [from_slice] equals a lookup of the two fields
      ([from_slice_flat_object]).
    - Body.v: the bodies GitHub sends decode to exactly their token and
      expiry, fields in any order ([from_slice_github_body]); the
      [expires_at] field reads RFC 3339 back exactly
      ([deserialize_datetime_rfc3339]) and counts days exactly
      ([deserialize_datetime_epoch_days]).
    - Auth.v: [AuthError], [GithubAuthParams], [JwtClaims],
      [JwtClaims::new].
    - Exchange.v: [get_installation_token], in a Section over the
      [JwtEncoder], and [read_response] ([error_for_status], then the
      body read whole, then decoded).
    - Bearer.v: with any encoder of jsonwebtoken's layout, the JWT the
      exchange sends splits into segments that decode to the header text
      [{"typ":"JWT","alg":"RS256"}] (written out) and the claims
      ([exchange_bearer_decodes]);
      with an encoder writing a compact JWS the Bearer header is always
      valid and a signed exchange always reaches the wire
      ([exchange_signed_sends]).
    - Manager.v: [InstallationToken], [new], [refresh], [header]; the
      methods on [&mut self] run on [Sys = InstallationToken * World].
    - Session.v: sessions ([new], then [header] calls in a changing
      environment): every request on the wire is the session's exchange
      request, at most one per call ([session_safety]); a stale token
      recovers at the next call the remote answers ([header_recovers]);
      an expiry with no digit, although unused, fails the refresh and
      keeps the old state ([header_bad_expiry]); token and fetch time change
      together ([header_updates_together]); the documented reuse [token.client.post(url).headers(header)]
      (lib.rs 25, [user_post]) sends the token and the user agent
      ([client_reuse]).
    - Contract.v: the abstract machine of the credential manager
      ([astep]) and the refinement [runs_refine].
    - Scenario.v: concrete runs (the crate's scenario with stub
      collaborators) and the witnesses of the theorems.

    ** Theorems
    - refinement: [Contract.runs_refine] (every sequence of [header]
      calls is a labelled run of the abstract machine, each label's
      exchange being the [get_installation_token] the call ran, its
      token the one the abstract state takes, and its requests the only
      ones on the wire; from the one-step simulation
      [header_simulates]);
    - safety and recovery of sessions: [Session.session_safety],
      [Session.header_recovers], [Bearer.exchange_signed_sends];
    - error paths: [Session.header_bad_expiry] (the unused expiry),
      [Manager.header_clock_backwards], [new_bad_user_agent];
    - behaviour of each operation on every branch:
      [Manager.header_fresh], [header_stale], [header_clock_backwards],
      [new_Ok_spec], [new_bad_user_agent],
      [Exchange.get_installation_token_run],
      [read_response_cases] (the status is checked before the body is
      read), [get_installation_token_body_error],
      [get_installation_token_before_epoch], [Auth.JwtClaims_new_spec];
    - invariants: [refresh_error_keeps_self], [header_error_self] (what
      a failed call keeps), [Session.header_updates_together] (token and
      fetch time change together, only after a successful exchange),
      [reachable_inv] (by induction on the reachable states);
    - the threshold: [header_logs_refresh_iff] (3301 whole seconds);
    - round trips and decoding: [Body.from_slice_github_body],
      [Body.deserialize_datetime_rfc3339], [Decimal.parse_dec_dec_string],
      the equivalence [Decode.from_slice_flat_object], unknown keys
      ([Decode.from_slice_unknown_key]) and repeated ones
      ([Decode.from_slice_duplicate_token]) in any flat object, the
      sequence form [Decode.from_slice_array_form];
    - the fuel of the readers: [Decode.visit_map_fuel_adequate] (a
      lemma on the model's fuel, which the code does not have);
    - composition with the caller: [Session.client_reuse];
    - equivalence with reference definitions: [Decimal.dec_string_pretty],
      [Body.deserialize_datetime_epoch_days] (day counting),
      [Decode.from_slice_flat_object];
    - what is signed: [Bearer.exchange_bearer_decodes];
    - the key-family defect: [Manager.new_family_checked].

    ** Bounds and fuel
    - Ids are u64 ([in_u64]); [dec_string] uses 20 digits of fuel,
      enough for every u64 (below 10^20, [u64_lt_pow10]).
    - [iat] is the seconds since the epoch of a [Timespec] whose seconds
      are an i64, so [iat + 60] stays in the u64 range
      ([JwtClaims_new_spec]).
    - [visit_map] and [ignore_value] take the input length plus one as
      fuel.  Every round consumes input and a nested value consumes both
      its brackets, so a value accepted with any fuel is accepted with
      this one ([ignore_fuel_adequate], [visit_map_fuel_adequate]).  On
      an unclosed deep nesting the model may stop with [OutOfFuel] where
      serde_json reports an end of input: both are errors, and the crate
      maps every decoding error to the same [reqwest] decode error.
    - The calendar inverse is checked by evaluation on the 400 year
      boundaries of one era and the 366 days of a year
      ([Calendar.year_ok_all], [doy_ok_all]), with a monotonicity lemma
      in between; the era shift lemmas extend it to every day number.
      The RFC 3339 round trip is stated for four-digit years (0000 to
      9999), the years the writer prints with four digits and the
      parser reads.
    - Clock readings are indexed by the number of earlier readings; the
      contract assumes the readings of one call do not decrease
      ([Contract.clock_mono]) but lets the clock jump back between calls.

    ** Not modelled
    - the cryptography of the signature (abstract in [JwtEncoder]);
    - TLS backend initialisation failure of [ClientBuilder::build] and
      redirects: both happen inside reqwest, and the remote's answer in
      World.v is already the final response or a transport failure,
      which is all the crate's code can observe; URL parsing is modelled
      only for the one URL shape the crate formats;
    - chrono's leniencies beyond RFC 3339 (blanks, one-digit fields,
      signed years, leap seconds): the chrono version is not pinned in
      the sources, and GitHub writes the strict form; skipped JSON
      numbers are scanned and not converted, as serde_json does;
    - the log backend, and threads (the crate takes [&mut self]). *)

From stdpp Require Export base list strings.
From Stdlib Require Export ZArith Lia String Ascii.

(** ** Rust's [Result]

    [Result<T, E>] of the source, with the constructor names of the
    source.  Fallible library calls return a [result]; the [?] operator
    with its [From] conversion is [res_bind] / [eff_try] below. *)
Inductive result (A E : Type) : Type :=
| Ok (a : A)
| Err (e : E).
Arguments Ok {A E} a.
Arguments Err {A E} e.

#[export] Instance result_eq_dec `{EqDecision A, EqDecision E} :
  EqDecision (result A E).
Proof. solve_decision. Defined.

Definition is_ok {A E} (r : result A E) : bool :=
  match r with Ok _ => true | Err _ => false end.

(** [r.map_err(f)] *)
Definition map_err {A E E'} (f : E -> E') (r : result A E) : result A E' :=
  match r with Ok a => Ok a | Err e => Err (f e) end.

(** [let x = r?; k x] on a pure result, converting the error with [f]. *)
Definition res_bind {A B E} (r : result A E) (k : A -> result B E) : result B E :=
  match r with Ok a => k a | Err e => Err e end.

Declare Scope res_scope.
Delimit Scope res_scope with res.
Notation "x <-? r ;; k" := (res_bind r (fun x => k))
  (at level 100, r at next level, right associativity) : res_scope.

(** ** A state-and-error monad

    [Eff S E A] is the shape of a Rust function that takes [&mut S]
    (or reads the environment [S]) and returns [Result<A, E>]: the state
    after the call is returned on both paths, as in Rust, where the
    side effects made before an early [?] return are not undone. *)
Definition Eff (S E A : Type) : Type := S -> result A E * S.

Definition eff_ret {S E A} (a : A) : Eff S E A := fun s => (Ok a, s).
Definition eff_throw {S E A} (e : E) : Eff S E A := fun s => (Err e, s).
Definition eff_bind {S E A B} (m : Eff S E A) (k : A -> Eff S E B) : Eff S E B :=
  fun s => match m s with
           | (Ok a, s') => k a s'
           | (Err e, s') => (Err e, s')
           end.
Definition eff_get {S E} : Eff S E S := fun s => (Ok s, s).
Definition eff_put {S E} (s' : S) : Eff S E unit := fun _ => (Ok tt, s').
Definition eff_modify {S E} (f : S -> S) : Eff S E unit := fun s => (Ok tt, f s).

(** The [?] operator on a pure library result: [From::from] is [f]. *)
Definition eff_try {S E E' A} (f : E' -> E) (r : result A E') : Eff S E A :=
  fun s => (map_err f r, s).

(** Convert the error of a computation ([?] applied to an effectful
    call whose error type differs). *)
Definition eff_map_err {S E E' A} (f : E' -> E) (m : Eff S E' A) : Eff S E A :=
  fun s => let '(r, s') := m s in (map_err f r, s').

(** Run a computation on a part [T] of a larger state [S]
    (a method that only borrows one field). *)
Definition eff_zoom {S T E A} (view : S -> T) (update : T -> S -> S)
    (m : Eff T E A) : Eff S E A :=
  fun s => let '(r, t') := m (view s) in (r, update t' s).

Declare Scope eff_scope.
Delimit Scope eff_scope with eff.
Notation "x <- m ;; k" := (eff_bind m (fun x => k))
  (at level 100, m at next level, right associativity) : eff_scope.
Notation "m ;; k" := (eff_bind m (fun _ => k))
  (at level 100, right associativity) : eff_scope.

(** ** Machine integers

    Rust's [u64], [u32] and [i64] are kept as [Z] with their range
    written out; [as] casts and wrapping arithmetic are [Z.modulo]. *)
Definition u64_modulus : Z := 2 ^ 64.
Definition u64_max : Z := u64_modulus - 1.
Definition i64_min : Z := - 2 ^ 63.
Definition i64_max : Z := 2 ^ 63 - 1.

Definition in_u64 (x : Z) : bool := (0 <=? x)%Z && (x <=? u64_max)%Z.
Definition in_i64 (x : Z) : bool := (i64_min <=? x)%Z && (x <=? i64_max)%Z.

(** [x as u64] for an integer of any width, and [i64] wrapping. *)
Definition as_u64 (x : Z) : Z := x mod u64_modulus.
Definition wrap_i64 (x : Z) : Z := ((x - i64_min) mod u64_modulus) + i64_min.


Create HintDb ghauth discriminated.
Create Rewrite HintDb ghauth_rw.

(** ** Shared lemmas *)

Lemma map_err_id {A E} (r : result A E) : map_err id r = r.
Proof. by destruct r. Qed.

#[export] Hint Rewrite @map_err_id : ghauth_rw.

Section EffLemmas.
Context {S E A B : Type}.

Lemma eff_bind_Ok (m : Eff S E A) (k : A -> Eff S E B) s a s' :
    m s = (Ok a, s') -> eff_bind m k s = k a s'.
  Proof. intros H. unfold eff_bind. by rewrite H. Qed.

Lemma eff_bind_Err (m : Eff S E A) (k : A -> Eff S E B) s e s' :
    m s = (Err e, s') -> eff_bind m k s = (Err e, s').
  Proof. intros H. unfold eff_bind. by rewrite H. Qed.

Lemma eff_bind_assoc {C} (m : Eff S E A) (k : A -> Eff S E B)
      (h : B -> Eff S E C) s :
    eff_bind (eff_bind m k) h s = eff_bind m (fun a => eff_bind (k a) h) s.
  Proof. unfold eff_bind. by destruct (m s) as [[] ?]. Qed.

  (** An [Eff] computation either succeeds or fails, and the result
      decides which continuation runs. *)
Lemma eff_bind_cases (m : Eff S E A) (k : A -> Eff S E B) s :
    (exists a s', m s = (Ok a, s') /\ eff_bind m k s = k a s') \/
    (exists e s', m s = (Err e, s') /\ eff_bind m k s = (Err e, s')).
  Proof.
    unfold eff_bind. destruct (m s) as [[a|e] s']; [left|right]; eauto.
  Qed.
End EffLemmas.

#[export] Hint Rewrite @eff_bind_assoc : ghauth_rw.

(** Unfold the monad's combinators and reduce the matches they leave. *)
Ltac eff_unfold :=
  unfold eff_bind, eff_ret, eff_throw, eff_get, eff_put, eff_modify,
    eff_try, eff_map_err, eff_zoom, map_err, res_bind in *; simpl in *.

(** Turn the boolean range tests of this file into arithmetic. *)
Ltac range_to_prop :=
  unfold in_u64, in_i64, u64_max, u64_modulus, i64_min, i64_max in *;
  repeat match goal with
  | H : (_ && _)%bool = true |- _ => apply andb_prop in H; destruct H
  | H : (_ <=? _)%Z = true |- _ => apply Z.leb_le in H
  | H : (_ <? _)%Z = true |- _ => apply Z.ltb_lt in H
  | |- (_ && _)%bool = true => apply andb_true_intro; split
  | |- (_ <=? _)%Z = true => apply Z.leb_le
  | |- (_ <? _)%Z = true => apply Z.ltb_lt
  end.

Lemma in_u64_spec (x : Z) : in_u64 x = true <-> (0 <= x <= u64_max)%Z.
Proof. split; intros; range_to_prop; lia. Qed.

Lemma in_i64_spec (x : Z) : in_i64 x = true <-> (i64_min <= x <= i64_max)%Z.
Proof. split; intros; range_to_prop; lia. Qed.

Lemma as_u64_id (x : Z) : (0 <= x <= u64_max)%Z -> as_u64 x = x.
Proof. unfold as_u64, u64_max. intros. apply Z.mod_small. lia. Qed.

Lemma wrap_i64_id (x : Z) : (i64_min <= x <= i64_max)%Z -> wrap_i64 x = x.
Proof.
  unfold wrap_i64, i64_min, i64_max, u64_modulus. intros.
  rewrite Z.mod_small; lia.
Qed.

(** Wrapping to [i64] and reinterpreting as [u64] loses nothing for a
    value that fits in [u64]: this is why [(a - b) as u64] is exact for
    [i64] operands with [a >= b]. *)
Lemma as_u64_wrap_i64 (x : Z) : (0 <= x <= u64_max)%Z -> as_u64 (wrap_i64 x) = x.
Proof.
  unfold as_u64, wrap_i64, u64_max, u64_modulus, i64_min. intros.
  rewrite Z.add_mod_idemp_l by lia.
  replace (x - - 2 ^ 63 + - 2 ^ 63)%Z with x by lia.
  apply Z.mod_small. lia.
Qed.

#[export] Hint Resolve as_u64_id wrap_i64_id as_u64_wrap_i64 : ghauth.

(** ** Strings as byte sequences *)

Definition str_forallb (f : ascii -> bool) (s : string) : bool :=
  forallb f (list_ascii_of_string s).
Definition str_existsb (f : ascii -> bool) (s : string) : bool :=
  existsb f (list_ascii_of_string s).

Lemma str_forallb_app f s1 s2 :
  str_forallb f (s1 ++ s2)%string = str_forallb f s1 && str_forallb f s2.
Proof.
  unfold str_forallb. induction s1 as [|c s1 IH]; simpl; [done|].
  by rewrite IH, andb_assoc.
Qed.

#[export] Hint Rewrite str_forallb_app : ghauth_rw.

(** The double quote character, and a JSON string literal of a text
    that needs no escaping. *)
Definition dq : string := String (ascii_of_nat 34) EmptyString.
Definition json_quote (s : string) : string := (dq ++ s ++ dq)%string.

Lemma list_ascii_of_string_app (s1 s2 : string) :
  list_ascii_of_string (s1 ++ s2) = (list_ascii_of_string s1 ++ list_ascii_of_string s2)%list.
Proof. induction s1 as [|c s1 IH]; simpl; [done|]. by rewrite IH. Qed.

Lemma list_ascii_of_string_inj (s1 s2 : string) :
  list_ascii_of_string s1 = list_ascii_of_string s2 -> s1 = s2.
Proof.
  intros H. rewrite <- (string_of_list_ascii_of_string s1), H.
  apply string_of_list_ascii_of_string.
Qed.

Lemma string_app_assoc (s1 s2 s3 : string) : ((s1 ++ s2) ++ s3 = s1 ++ s2 ++ s3)%string.
Proof.
  apply list_ascii_of_string_inj. rewrite !list_ascii_of_string_app. by rewrite app_assoc.
Qed.

(** Cancelling a common prefix and a common suffix of texts. *)
Lemma string_app_cancel (p a b q : string) :
  (p ++ a ++ q)%string = (p ++ b ++ q)%string -> a = b.
Proof.
  intros H. apply (f_equal list_ascii_of_string) in H.
  rewrite !list_ascii_of_string_app in H.
  apply app_inv_head in H. apply app_inv_tail in H.
  by apply list_ascii_of_string_inj.
Qed.

#[export] Hint Rewrite list_ascii_of_string_app : ghauth_rw.

(** ** Finite checks over an integer range

    [Z_all f z n] checks [f] on [z], [z + 1], ..., [z + n - 1] with an
    integer counter, so that [vm_compute] runs in time linear in [n]. *)
Fixpoint Z_all (f : Z -> bool) (z : Z) (n : nat) : bool :=
  match n with
  | O => true
  | S n' => f z && Z_all f (z + 1)%Z n'
  end.

Lemma Z_all_spec f z n x :
  Z_all f z n = true -> (z <= x < z + Z.of_nat n)%Z -> f x = true.
Proof.
  revert z. induction n as [|n IH]; intros z H Hx; cbn [Z_all] in H; [lia|].
  apply andb_prop in H as [Hz H].
  destruct (Z.eq_dec x z) as [->|Hne]; [done|]. apply (IH (z + 1)%Z); [done|lia].
Qed.
