(* ===== verification/Time.v ===== *)
(** * Time: the [std::time] values the crate computes with

    [SystemTime] on Unix is a [Timespec] ([tv_sec : i64],
    [tv_nsec] in [0, 10^9)); [SystemTime::duration_since] is
    [Timespec::sub_timespec], which yields a [Duration] ([secs : u64],
    [nanos : u32]) or, when the argument is later, a [SystemTimeError]
    carrying the reverse difference.  This is the standard library's
    code (std/src/sys/pal/unix/time.rs, std/src/time.rs), modelled here
    because src/src/lib.rs computes with it: [JwtClaims::new] (lines
    69-71) and [InstallationToken::refresh] (lines 165-169).

    Main results: [duration_since] is exact ([duration_since_Ok]) and
    fails exactly when the clock is earlier ([duration_since_Err_iff]);
    [as_secs] of it is the floor of the elapsed nanoseconds
    ([as_secs_duration_since]); seconds since the epoch fit in [i64]
    ([secs_since_epoch_bound]). *)

From S2P Require Import Prelude.

Module Time.
Local Open Scope Z_scope.

Definition NSEC_PER_SEC : Z := 1000000000.

(** [struct Duration { secs: u64, nanos: Nanoseconds }] *)
Record Duration := mkDuration { secs : Z; nanos : Z }.

(** [struct Timespec { tv_sec: i64, tv_nsec: Nanoseconds }], the
    representation of [SystemTime] on Unix. *)
Record SystemTime := mkSystemTime { tv_sec : Z; tv_nsec : Z }.

(** [pub struct SystemTimeError(Duration)] *)
Record SystemTimeError := mkSystemTimeError { ste_duration : Duration }.

#[export] Instance Duration_eq_dec : EqDecision Duration.
Proof. solve_decision. Defined.
#[export] Instance SystemTime_eq_dec : EqDecision SystemTime.
Proof. solve_decision. Defined.
#[export] Instance SystemTimeError_eq_dec : EqDecision SystemTimeError.
Proof. solve_decision. Defined.

(** [UNIX_EPOCH = SystemTime { t: Timespec::zero() }] *)
Definition UNIX_EPOCH : SystemTime := mkSystemTime 0 0.

(** The type invariant of [Timespec]. *)
Definition time_wf (t : SystemTime) : bool :=
  in_i64 (tv_sec t) && (0 <=? tv_nsec t) && (tv_nsec t <? NSEC_PER_SEC).

(** [#[derive(PartialOrd)]] on [(tv_sec, tv_nsec)]: [self >= other]. *)
Definition timespec_ge (self other : SystemTime) : bool :=
  (tv_sec other <? tv_sec self)
  || ((tv_sec self =? tv_sec other) && (tv_nsec other <=? tv_nsec self)).

(** [Duration::new(secs, nanos)] (the overflow panic of its carry
    branch is unreachable from [sub_timespec], see
    [sub_timespec_ge_exact]). *)
Definition Duration_new (s n : Z) : Duration :=
  if n <? NSEC_PER_SEC then mkDuration s n
  else mkDuration (s + n / NSEC_PER_SEC) (n mod NSEC_PER_SEC).

(** The [self >= other] branch of [sub_timespec]: the [i64]
    subtractions wrap (the standard library is built without overflow
    checks) and the result is reinterpreted [as u64]. *)
Definition sub_timespec_ge (self other : SystemTime) : Duration :=
  if tv_nsec other <=? tv_nsec self then
    Duration_new (as_u64 (wrap_i64 (tv_sec self - tv_sec other)))
                 (tv_nsec self - tv_nsec other)
  else
    Duration_new (as_u64 (wrap_i64 (wrap_i64 (tv_sec self - tv_sec other) - 1)))
                 (tv_nsec self + NSEC_PER_SEC - tv_nsec other).

(** [Timespec::sub_timespec]: [Ok] when [self >= other], otherwise
    [match other.sub_timespec(self) { Ok(d) => Err(d), Err(d) => Ok(d) }],
    whose inner call takes the first branch. *)
Definition sub_timespec (self other : SystemTime) : result Duration Duration :=
  if timespec_ge self other then Ok (sub_timespec_ge self other)
  else Err (sub_timespec_ge other self).

(** [SystemTime::duration_since(&self, earlier)] *)
Definition duration_since (self earlier : SystemTime)
    : result Duration SystemTimeError :=
  map_err mkSystemTimeError (sub_timespec self earlier).

(** [Duration::as_secs] *)
Definition as_secs (d : Duration) : Z := secs d.

(** The instant as a number of nanoseconds since the epoch: the
    reference the lemmas below compare against. *)
Definition to_nanos (t : SystemTime) : Z := tv_sec t * NSEC_PER_SEC + tv_nsec t.

Definition duration_nanos (d : Duration) : Z := secs d * NSEC_PER_SEC + nanos d.

(** ** Lemmas *)

Ltac time_wf_to_prop :=
  repeat match goal with
  | H : time_wf _ = true |- _ =>
      unfold time_wf in H; apply andb_prop in H as [H ?];
      apply andb_prop in H as [H ?]; apply in_i64_spec in H
  end;
  range_to_prop; unfold NSEC_PER_SEC in *.

Lemma timespec_ge_spec a b :
  time_wf a = true -> time_wf b = true ->
  timespec_ge a b = true <-> to_nanos b <= to_nanos a.
Proof.
  intros Ha Hb. unfold timespec_ge, to_nanos. time_wf_to_prop.
  rewrite orb_true_iff, andb_true_iff, Z.ltb_lt, Z.eqb_eq, Z.leb_le.
  split; [intros [|[]]; nia|].
  intros. destruct (Z.lt_total (tv_sec b) (tv_sec a)) as [|[|]]; [left; lia|right|]; nia.
Qed.

Lemma wrap_i64_mod (x : Z) : wrap_i64 x mod u64_modulus = x mod u64_modulus.
Proof.
  unfold wrap_i64, u64_modulus, i64_min.
  rewrite Z.add_mod_idemp_l by lia. f_equal. lia.
Qed.

Lemma as_u64_wrap_i64_pred (x : Z) :
  0 <= x - 1 <= u64_max -> as_u64 (wrap_i64 (wrap_i64 x - 1)) = x - 1.
Proof.
  intros H. rewrite <- (as_u64_id (x - 1)) by exact H.
  unfold as_u64. rewrite wrap_i64_mod.
  rewrite Zminus_mod, wrap_i64_mod, <- Zminus_mod. reflexivity.
Qed.

Lemma sec_le_of_nanos_le a b :
  time_wf a = true -> time_wf b = true -> to_nanos b <= to_nanos a ->
  tv_sec b <= tv_sec a /\ (tv_nsec a < tv_nsec b -> tv_sec b < tv_sec a).
Proof.
  intros Ha Hb Hle. unfold to_nanos in Hle. time_wf_to_prop.
  split.
  - destruct (Z.le_gt_cases (tv_sec b) (tv_sec a)) as [|Hgt]; [done|].
    assert (tv_sec a * 1000000000 + 1000000000 <= tv_sec b * 1000000000) by nia.
    lia.
  - intros Hn. destruct (Z.lt_ge_cases (tv_sec b) (tv_sec a)) as [|Hge]; [done|].
    assert (tv_sec a * 1000000000 <= tv_sec b * 1000000000) by nia.
    lia.
Qed.

(** The [self >= other] branch computes the exact difference, with the
    nanoseconds in range, so [Duration::new] never carries. *)
Lemma sub_timespec_ge_exact a b :
  time_wf a = true -> time_wf b = true -> to_nanos b <= to_nanos a ->
  duration_nanos (sub_timespec_ge a b) = to_nanos a - to_nanos b /\
  0 <= nanos (sub_timespec_ge a b) < NSEC_PER_SEC /\
  0 <= secs (sub_timespec_ge a b) <= u64_max.
Proof.
  intros Ha Hb Hle. unfold sub_timespec_ge, Duration_new, duration_nanos.
  destruct (Z.leb_spec (tv_nsec b) (tv_nsec a)).
  - assert (Hd : 0 <= tv_sec a - tv_sec b <= u64_max)
      by (pose proof (sec_le_of_nanos_le a b Ha Hb Hle);
          time_wf_to_prop; unfold u64_max, u64_modulus; lia).
    rewrite as_u64_wrap_i64 by exact Hd.
    time_wf_to_prop. rewrite (proj2 (Z.ltb_lt _ _)) by lia. simpl.
    unfold to_nanos, NSEC_PER_SEC, u64_max, u64_modulus in *. lia.
  - assert (Hd : 0 <= tv_sec a - tv_sec b - 1 <= u64_max)
      by (pose proof (sec_le_of_nanos_le a b Ha Hb Hle) as [_ Hs];
          specialize (Hs ltac:(lia));
          time_wf_to_prop; unfold u64_max, u64_modulus; lia).
    rewrite as_u64_wrap_i64_pred by exact Hd.
    time_wf_to_prop. rewrite (proj2 (Z.ltb_lt _ _)) by lia. simpl.
    unfold to_nanos, NSEC_PER_SEC, u64_max, u64_modulus in *. lia.
Qed.

Lemma duration_since_Ok a b :
  time_wf a = true -> time_wf b = true -> to_nanos b <= to_nanos a ->
  exists d, duration_since a b = Ok d /\
    duration_nanos d = to_nanos a - to_nanos b /\
    0 <= nanos d < NSEC_PER_SEC /\ 0 <= secs d <= u64_max.
Proof.
  intros Ha Hb Hle. unfold duration_since, sub_timespec.
  rewrite (proj2 (timespec_ge_spec a b Ha Hb) Hle).
  eexists; split; [reflexivity|]. by apply sub_timespec_ge_exact.
Qed.

Lemma duration_since_Err_iff a b :
  time_wf a = true -> time_wf b = true ->
  (exists e, duration_since a b = Err e) <-> to_nanos a < to_nanos b.
Proof.
  intros Ha Hb. unfold duration_since, sub_timespec.
  pose proof (timespec_ge_spec a b Ha Hb) as Hge.
  destruct (timespec_ge a b); simpl.
  - split; [intros [? [=]]|]. intros. destruct Hge as [Hge _]. lia.
  - split; [|eauto]. intros _. destruct (Z.lt_ge_cases (to_nanos a) (to_nanos b)); [done|].
    apply Hge in H. discriminate.
Qed.

(** [elapsed.as_secs()] is the whole number of seconds elapsed. *)
Lemma as_secs_duration_since a b d :
  time_wf a = true -> time_wf b = true -> duration_since a b = Ok d ->
  as_secs d = (to_nanos a - to_nanos b) / NSEC_PER_SEC.
Proof.
  intros Ha Hb Hd.
  destruct (Z.le_gt_cases (to_nanos b) (to_nanos a)) as [Hle|Hlt].
  - destruct (duration_since_Ok a b Ha Hb Hle) as (d' & Hd' & Hn & Hr & _).
    rewrite Hd in Hd'. injection Hd' as <-. unfold as_secs.
    rewrite <- Hn. unfold duration_nanos.
    rewrite Z.div_add_l by (unfold NSEC_PER_SEC; lia).
    rewrite Z.div_small by lia. lia.
  - assert (Hc : exists e, duration_since a b = Err e) by
      (apply duration_since_Err_iff; [done|done|lia]).
    destruct Hc as [e He]. congruence.
Qed.

(** Seconds since the epoch fit in [i64], so in [u64] with room to
    spare: [now + 60] in [JwtClaims::new] cannot overflow. *)
Lemma secs_since_epoch_bound t d :
  time_wf t = true -> duration_since t UNIX_EPOCH = Ok d ->
  0 <= as_secs d <= i64_max.
Proof.
  intros Ht Hd.
  assert (He : time_wf UNIX_EPOCH = true) by reflexivity.
  rewrite (as_secs_duration_since t UNIX_EPOCH d Ht He Hd).
  destruct (Z.le_gt_cases (to_nanos UNIX_EPOCH) (to_nanos t)) as [Hle|Hlt].
  - unfold to_nanos in *. simpl in *. time_wf_to_prop.
    rewrite Z.sub_0_r, Z.div_add_l, Z.div_small by lia. lia.
  - assert (Hc : exists e, duration_since t UNIX_EPOCH = Err e) by
      (apply duration_since_Err_iff; [done|done|lia]).
    destruct Hc as [e He']. congruence.
Qed.

(** For a clock at or after the epoch, [duration_since(UNIX_EPOCH)]
    succeeds and its [as_secs] is the [tv_sec] field; before the epoch
    it fails. *)
Lemma duration_since_epoch t :
  time_wf t = true -> 0 <= tv_sec t ->
  exists d, duration_since t UNIX_EPOCH = Ok d /\ as_secs d = tv_sec t.
Proof.
  intros Ht Hs.
  assert (He : time_wf UNIX_EPOCH = true) by reflexivity.
  assert (Hle : to_nanos UNIX_EPOCH <= to_nanos t)
    by (unfold to_nanos; simpl; time_wf_to_prop; lia).
  destruct (duration_since_Ok t UNIX_EPOCH Ht He Hle) as (d & Hd & _).
  exists d. split; [done|].
  rewrite (as_secs_duration_since t UNIX_EPOCH d Ht He Hd).
  unfold to_nanos. simpl. time_wf_to_prop.
  rewrite Z.sub_0_r, Z.div_add_l, Z.div_small by lia. lia.
Qed.

Lemma duration_since_epoch_Err t :
  time_wf t = true -> tv_sec t < 0 ->
  exists e, duration_since t UNIX_EPOCH = Err e.
Proof.
  intros Ht Hs. apply duration_since_Err_iff; [done|done|].
  unfold to_nanos. simpl. time_wf_to_prop. lia.
Qed.

End Time.
