(* ===== verification/Http.v ===== *)
(** * Http: the [http] and [reqwest::blocking] values the crate builds

    The crate builds one [reqwest::blocking::Client] (lib.rs 140-142),
    one POST request per token exchange (lib.rs 111-117) and the
    [HeaderMap] returned by [InstallationToken::header] (lib.rs
    158-161).  This file models what those library calls compute:
    - [HeaderValue::from_str] / [TryFrom<&String>]: a value is valid
      when every byte is [\t] or at least 32 and not 127;
    - [HeaderName] conversion from a static string: lower-cased token;
    - [HeaderMap] as an ordered association list with [insert]
      (replace all values of the key) and [append];
    - [ClientBuilder::user_agent] records a builder error for an
      invalid value and [build] returns it;
    - [RequestBuilder::bearer_auth] / [header] append a header or turn
      the builder into an error; [headers] merges a map with reqwest's
      [replace_headers] (the first value of a key replaces, the next
      ones append); [error_for_status] rejects 4xx/5xx;
    - a [Response] holds its body as [Some] bytes, or [None] when the
      connection fails before the body is read to its end;
      [Response::bytes] ([resp_bytes]) returns it or reqwest's [Body]
      error, and [Response::json] reads it so before deserializing.
    The network itself ([send]) is in World.v. *)

From S2P Require Import Prelude.

Module Http.
Local Open Scope string_scope.

(** ** Header values and names *)

(** [fn is_valid(b: u8) -> bool { b >= 32 && b != 127 || b == b'\t' }] *)
Definition header_value_byte_ok (c : ascii) : bool :=
  let n := nat_of_ascii c in ((32 <=? n)%nat && negb (n =? 127)%nat) || (n =? 9)%nat.

Definition header_value_ok (s : string) : bool := str_forallb header_value_byte_ok s.

(** [http::header::InvalidHeaderValue] (a unit struct) *)
Inductive InvalidHeaderValue := InvalidHeaderValue_priv.

#[export] Instance InvalidHeaderValue_eq_dec : EqDecision InvalidHeaderValue.
Proof. solve_decision. Defined.

(** A [HeaderValue] is its bytes. *)
Definition HeaderValue := string.

(** [HeaderValue::from_str] (also [str::parse] and [TryFrom<&String>]) *)
Definition HeaderValue_from_str (s : string) : result HeaderValue InvalidHeaderValue :=
  if header_value_ok s then Ok s else Err InvalidHeaderValue_priv.

Definition ascii_to_lower (c : ascii) : ascii :=
  let n := nat_of_ascii c in
  if (65 <=? n)%nat && (n <=? 90)%nat then ascii_of_nat (n + 32) else c.

Fixpoint to_lower (s : string) : string :=
  match s with
  | EmptyString => EmptyString
  | String c s' => String (ascii_to_lower c) (to_lower s')
  end.

(** [tchar] of RFC 7230, the bytes [HeaderName::from_bytes] accepts
    (upper case is folded to lower case). *)
Definition is_tchar (c : ascii) : bool :=
  let n := nat_of_ascii c in
  ((48 <=? n)%nat && (n <=? 57)%nat) || ((65 <=? n)%nat && (n <=? 90)%nat) ||
  ((97 <=? n)%nat && (n <=? 122)%nat) ||
  str_existsb (fun d => Ascii.eqb c d) "!#$%&'*+-.^_`|~".

Definition HeaderName := string.

Inductive InvalidHeaderName := InvalidHeaderName_priv.

(** [HeaderName::from_bytes] / [TryFrom<&str>] *)
Definition HeaderName_from_str (s : string) : result HeaderName InvalidHeaderName :=
  if negb (String.eqb s "") && str_forallb is_tchar s
  then Ok (to_lower s) else Err InvalidHeaderName_priv.

(** A [&'static str] used as a header name ([HdrName::from_static]):
    lower-cased ([from_static] panics on a name that is not a token,
    which the crate's constant names are). *)
Definition HeaderName_from_static (s : string) : HeaderName := to_lower s.

(** The standard names [http::header::{AUTHORIZATION, ACCEPT, USER_AGENT}]. *)
Definition AUTHORIZATION : HeaderName := "authorization".
Definition ACCEPT : HeaderName := "accept".
Definition USER_AGENT : HeaderName := "user-agent".

(** ** HeaderMap *)

Definition HeaderMap := list (HeaderName * HeaderValue).

(** [HeaderMap::new()] *)
Definition HeaderMap_new : HeaderMap := [].

(** [HeaderMap::get]: the first value of the key. *)
Fixpoint hm_get (k : HeaderName) (m : HeaderMap) : option HeaderValue :=
  match m with
  | [] => None
  | (k', v) :: m' => if String.eqb k k' then Some v else hm_get k m'
  end.

(** [HeaderMap::insert]: the first entry of the key takes the new value
    and the key's other entries are removed; a new key goes last. *)
Fixpoint hm_insert (k : HeaderName) (v : HeaderValue) (m : HeaderMap) : HeaderMap :=
  match m with
  | [] => [(k, v)]
  | (k', v') :: m' =>
      if String.eqb k k'
      then (k, v) :: filter (fun p => negb (String.eqb (fst p) k)) m'
      else (k', v') :: hm_insert k v m'
  end.

(** [HeaderMap::append]: add a value, keeping the others. *)
Definition hm_append (k : HeaderName) (v : HeaderValue) (m : HeaderMap) : HeaderMap :=
  (m ++ [(k, v)])%list.

(** ** reqwest *)

(** The kinds of [reqwest::Error] that the crate's calls can produce. *)
Inductive ReqwestErrorKind :=
| KBuilder            (* invalid header, invalid URL, client configuration *)
| KRequest            (* transport failure while sending *)
| KStatus (code : Z)  (* [error_for_status] on a 4xx/5xx response *)
| KBody               (* the body could not be read to its end *)
| KDecode.            (* [Response::json] could not deserialize the body *)

Record ReqwestError := mkReqwestError { re_kind : ReqwestErrorKind; re_url : option string }.

#[export] Instance ReqwestErrorKind_eq_dec : EqDecision ReqwestErrorKind.
Proof. solve_decision. Defined.
#[export] Instance ReqwestError_eq_dec : EqDecision ReqwestError.
Proof. solve_decision. Defined.

Definition builder_error : ReqwestError := mkReqwestError KBuilder None.

Inductive Method := GET | POST.

#[export] Instance Method_eq_dec : EqDecision Method.
Proof. solve_decision. Defined.

Record Request := mkRequest {
  req_method : Method;
  req_url : string;
  req_headers : HeaderMap
}.

#[export] Instance Request_eq_dec : EqDecision Request.
Proof. solve_decision. Defined.

(** A response: the status line and headers arrived; its body is
    read later, by [Response::json], and is [None] when the connection
    fails before the body's end. *)
Record Response := mkResponse {
  resp_url : string;
  resp_status : Z;
  resp_body : option string
}.

(** [Response::bytes]: the whole body, or a [Body] error. *)
Definition resp_bytes (r : Response) : result string ReqwestError :=
  match resp_body r with
  | Some b => Ok b
  | None => Err (mkReqwestError KBody None)
  end.

(** [reqwest::blocking::Client]: its default headers. *)
Record Client := mkClient { client_headers : HeaderMap }.

#[export] Instance Client_eq_dec : EqDecision Client.
Proof. solve_decision. Defined.

Record ClientBuilder := mkClientBuilder {
  cb_headers : HeaderMap;
  cb_error : option ReqwestError
}.

(** [Client::builder()]: the default headers hold [accept: */*]. *)
Definition Client_builder : ClientBuilder :=
  mkClientBuilder [(ACCEPT, "*/*")] None.

(** [ClientBuilder::user_agent] *)
Definition cb_user_agent (ua : string) (b : ClientBuilder) : ClientBuilder :=
  match HeaderValue_from_str ua with
  | Ok v => mkClientBuilder (hm_insert USER_AGENT v (cb_headers b)) (cb_error b)
  | Err _ => mkClientBuilder (cb_headers b) (Some builder_error)
  end.

(** [ClientBuilder::build] (a failure of the TLS backend's
    initialisation is not modelled). *)
Definition cb_build (b : ClientBuilder) : result Client ReqwestError :=
  match cb_error b with
  | Some e => Err e
  | None => Ok (mkClient (cb_headers b))
  end.

Record RequestBuilder := mkRequestBuilder {
  rb_client : Client;
  rb_request : result Request ReqwestError
}.

(** [IntoUrl] on a string: only the presence of a scheme is checked
    here. *)
Definition url_parse (s : string) : result string ReqwestError :=
  if String.prefix "https://" s || String.prefix "http://" s
  then Ok s else Err builder_error.

(** [Client::post(url)] *)
Definition client_post (c : Client) (url : string) : RequestBuilder :=
  mkRequestBuilder c (res_bind (url_parse url) (fun u => Ok (mkRequest POST u []))).

(** [RequestBuilder::header_sensitive]: append the header to a request
    still being built, or turn the builder into an error. *)
Definition rb_header_named (k : HeaderName) (v : string) (b : RequestBuilder)
    : RequestBuilder :=
  match rb_request b with
  | Err _ => b
  | Ok req =>
      match HeaderValue_from_str v with
      | Ok hv => mkRequestBuilder (rb_client b)
                   (Ok (mkRequest (req_method req) (req_url req)
                                  (hm_append k hv (req_headers req))))
      | Err _ => mkRequestBuilder (rb_client b) (Err builder_error)
      end
  end.

(** [RequestBuilder::header(key, value)] with a string key. *)
Definition rb_header (k v : string) (b : RequestBuilder) : RequestBuilder :=
  match rb_request b, HeaderName_from_str k with
  | Ok _, Err _ => mkRequestBuilder (rb_client b) (Err builder_error)
  | Ok _, Ok name => rb_header_named name v b
  | Err _, _ => b
  end.

(** [RequestBuilder::bearer_auth(token)] *)
Definition rb_bearer_auth (token : string) (b : RequestBuilder) : RequestBuilder :=
  rb_header_named AUTHORIZATION ("Bearer " ++ token) b.

(** reqwest's [replace_headers(dst, src)]: the first value of each key of
    [src] replaces the key's values in [dst], a following value of the
    same key is appended. *)
Fixpoint replace_headers_go (prev : option HeaderName) (dst src : HeaderMap) : HeaderMap :=
  match src with
  | [] => dst
  | (k, v) :: src' =>
      let dst' := match prev with
                  | Some p => if String.eqb p k then hm_append k v dst else hm_insert k v dst
                  | None => hm_insert k v dst
                  end in
      replace_headers_go (Some k) dst' src'
  end.

(** [RequestBuilder::headers(map)] *)
Definition rb_headers (hm : HeaderMap) (b : RequestBuilder) : RequestBuilder :=
  match rb_request b with
  | Err _ => b
  | Ok req =>
      mkRequestBuilder (rb_client b)
        (Ok (mkRequest (req_method req) (req_url req) (replace_headers_go None (req_headers req) hm)))
  end.

(** The request [Client::execute] puts on the wire: the client's default
    headers are added for the names the request does not set. *)
Definition with_default_headers (c : Client) (req : Request) : Request :=
  mkRequest (req_method req) (req_url req)
    (req_headers req ++
     filter (fun p => negb (bool_decide (is_Some (hm_get (fst p) (req_headers req)))))
            (client_headers c))%list.

(** [Response::error_for_status] *)
Definition error_for_status (r : Response) : result Response ReqwestError :=
  if (400 <=? resp_status r)%Z && (resp_status r <? 600)%Z
  then Err (mkReqwestError (KStatus (resp_status r)) (Some (resp_url r)))
  else Ok r.

End Http.
