(* ===== verification/World.v ===== *)
(** * World: the environment the crate's effects act on

    The crate has three effects, and each goes through a library:
    - [SystemTime::now()] (lib.rs 69, 147, 166, 173): the [n]-th reading
      of the wall clock is [w_clock n]; nothing makes readings monotonic;
    - [RequestBuilder::send()] (lib.rs 115): a request that was built
      without error goes on the wire with the client's default headers
      ([Http.with_default_headers]), is appended to the trace [w_sent],
      and the remote answers the [n]-th request with [w_server n req]
      ([None] is a transport failure: connection refused, TLS, timeout);
    - [info!] (lib.rs 170): a record appended to [w_log].
    A computation of the crate is an [Eff World AuthError A] (or runs on
    a larger state that contains a [World]); the trace [w_sent] is what
    the theorems count when they say how many exchanges a call made. *)

From S2P Require Import Prelude Time Http.

Module World.
Import Time Http.

Record World := mkWorld {
  w_clock : nat -> SystemTime;
  w_reads : nat;
  w_server : nat -> Request -> option Response;
  w_sent : list Request;
  w_log : list string
}.

(** The reading [SystemTime::now()] returns next. *)
Definition clock_now (w : World) : SystemTime := w_clock w (w_reads w).

Definition tick (w : World) : World :=
  mkWorld (w_clock w) (S (w_reads w)) (w_server w) (w_sent w) (w_log w).

Definition record_request (req : Request) (w : World) : World :=
  mkWorld (w_clock w) (w_reads w) (w_server w) (w_sent w ++ [req])%list (w_log w).

Definition record_log (msg : string) (w : World) : World :=
  mkWorld (w_clock w) (w_reads w) (w_server w) (w_sent w) (w_log w ++ [msg])%list.

(** [SystemTime::now()] *)
Definition now {E} : Eff World E SystemTime :=
  fun w => (Ok (clock_now w), tick w).

(** [Client::execute]: the request goes on the wire. *)
Definition execute (c : Client) (req : Request) : Eff World ReqwestError Response :=
  fun w =>
    let wire := with_default_headers c req in
    let answer := w_server w (List.length (w_sent w)) wire in
    (match answer with
     | Some resp => Ok resp
     | None => Err (mkReqwestError KRequest (Some (req_url req)))
     end, record_request wire w).

(** [RequestBuilder::send()]: a builder error is returned without any
    network traffic. *)
Definition send (b : RequestBuilder) : Eff World ReqwestError Response :=
  match rb_request b with
  | Err e => eff_throw e
  | Ok req => execute (rb_client b) req
  end.

(** [log::info!] *)
Definition log_info {E} (msg : string) : Eff World E unit :=
  fun w => (Ok tt, record_log msg w).

(** ** Frame lemmas: what each effect leaves alone *)

Lemma now_run {E} w : @now E w = (Ok (clock_now w), tick w).
Proof. reflexivity. Qed.

Lemma tick_sent w : w_sent (tick w) = w_sent w.
Proof. reflexivity. Qed.

Lemma tick_reads w : w_reads (tick w) = S (w_reads w).
Proof. reflexivity. Qed.

Lemma record_request_sent req w : w_sent (record_request req w) = (w_sent w ++ [req])%list.
Proof. reflexivity. Qed.

Lemma record_log_sent msg w : w_sent (record_log msg w) = w_sent w.
Proof. reflexivity. Qed.

Lemma record_log_reads msg w : w_reads (record_log msg w) = w_reads w.
Proof. reflexivity. Qed.

Lemma record_request_reads req w : w_reads (record_request req w) = w_reads w.
Proof. reflexivity. Qed.

Lemma send_sent b w r w' :
  send b w = (r, w') ->
  w_sent w' = w_sent w \/
  exists req, rb_request b = Ok req /\
    w_sent w' = (w_sent w ++ [with_default_headers (rb_client b) req])%list.
Proof.
  unfold send, execute, eff_throw. destruct (rb_request b) as [req|e].
  - intros [= _ <-]. right. eauto.
  - intros [= _ <-]. by left.
Qed.

Lemma send_reads b w r w' : send b w = (r, w') -> w_reads w' = w_reads w.
Proof.
  unfold send, execute, eff_throw. destruct (rb_request b); by intros [= _ <-].
Qed.

(** [send] neither changes the clock nor logs. *)
Lemma send_frame b w :
  w_clock (snd (send b w)) = w_clock w /\ w_log (snd (send b w)) = w_log w.
Proof. unfold send, execute, eff_throw. by destruct (rb_request b). Qed.

End World.

#[export] Hint Rewrite World.tick_sent World.tick_reads World.record_request_sent
  World.record_log_sent World.record_log_reads World.record_request_reads : ghauth_rw.
