(* ===== verification/Decimal.v ===== *)
(** * Decimal: [Display] for [u64]

    [format!("{}", n)] for an unsigned integer (lib.rs 107-110, the
    installation id in the exchange URL) and serde_json's [itoa]
    (the [u64] fields of [JwtClaims]) both write the shortest decimal
    representation: no sign, no leading zero, "0" for zero.

    [dec_string] writes the digits least significant first with a fuel
    of 20 digits, enough for every [u64] since [2^64 < 10^20]
    ([parse_digits_rev]); [parse_dec] reads them back, and the round
    trip [parse_dec_dec_string] shows that the formatted text determines
    the number ([dec_string_inj]). *)

From S2P Require Import Prelude.
From stdpp Require Import pretty.

Module Decimal.
Local Open Scope Z_scope.

Definition digit_char (d : Z) : ascii := ascii_of_nat (48 + Z.to_nat d).

Definition char_digit (c : ascii) : option Z :=
  let n := nat_of_ascii c in
  if ((48 <=? n)%nat && (n <=? 57)%nat) then Some (Z.of_nat n - 48) else None.

Arguments digit_char : simpl never.
Arguments char_digit : simpl never.

(** The digits, least significant first. *)
Fixpoint digits_rev (fuel : nat) (n : Z) : list ascii :=
  match fuel with
  | O => []
  | S f => digit_char (n mod 10) :: (if n <? 10 then [] else digits_rev f (n / 10))
  end.

(** Enough digits for any [u64]. *)
Definition u64_digits : nat := 20.

Definition dec_string (n : Z) : string :=
  string_of_list_ascii (rev (digits_rev u64_digits n)).

(** Read a non-empty run of decimal digits. *)
Fixpoint parse_digits (acc : Z) (l : list ascii) : option Z :=
  match l with
  | [] => Some acc
  | c :: l' => match char_digit c with
               | Some d => parse_digits (acc * 10 + d) l'
               | None => None
               end
  end.

Definition parse_dec (s : string) : option Z :=
  match list_ascii_of_string s with
  | [] => None
  | l => parse_digits 0 l
  end.

(** ** Lemmas *)

Lemma char_digit_digit_char d : 0 <= d < 10 -> char_digit (digit_char d) = Some d.
Proof.
  intros Hd. unfold char_digit, digit_char.
  rewrite nat_ascii_embedding by lia.
  replace ((48 <=? 48 + Z.to_nat d)%nat && (48 + Z.to_nat d <=? 57)%nat) with true.
  - f_equal. lia.
  - symmetry. apply andb_true_intro. split; apply Nat.leb_le; lia.
Qed.

Lemma parse_digits_app acc l1 l2 :
  parse_digits acc (l1 ++ l2) =
  match parse_digits acc l1 with Some a => parse_digits a l2 | None => None end.
Proof.
  revert acc. induction l1 as [|c l1 IH]; intros acc; simpl; [done|].
  destruct (char_digit c); [apply IH|done].
Qed.

(** The digits of [n], read back, give [n], when the fuel covers them. *)
Lemma parse_digits_rev (k : nat) (n acc : Z) :
  0 <= n < 10 ^ Z.of_nat k ->
  parse_digits acc (rev (digits_rev k n)) =
  Some (acc * 10 ^ Z.of_nat (List.length (digits_rev k n)) + n).
Proof.
  revert n acc. induction k as [|k IH]; intros n acc Hn.
  - simpl in *. f_equal. lia.
  - cbn [digits_rev]. assert (Hm : 0 <= n mod 10 < 10) by (apply Z.mod_pos_bound; lia).
    destruct (Z.ltb_spec n 10) as [Hlt|Hge].
    + cbn [rev app parse_digits List.length].
      rewrite char_digit_digit_char, (Z.mod_small n) by lia. reflexivity.
    + cbn [rev List.length]. rewrite parse_digits_app, IH.
      2: { split; [apply Z.div_pos; lia|].
           apply Z.div_lt_upper_bound; [lia|].
           rewrite Nat2Z.inj_succ, Z.pow_succ_r in Hn by lia. lia. }
      cbn [parse_digits]. rewrite char_digit_digit_char by lia. f_equal.
      rewrite Nat2Z.inj_succ, Z.pow_succ_r by lia.
      pose proof (Z.div_mod n 10 ltac:(lia)). lia.
Qed.

Lemma digits_rev_nonempty k n : digits_rev (S k) n <> [].
Proof. discriminate. Qed.

Lemma u64_lt_pow10 n : in_u64 n = true -> 0 <= n < 10 ^ Z.of_nat u64_digits.
Proof.
  intros H. apply in_u64_spec in H. unfold u64_max, u64_modulus in H.
  change (10 ^ Z.of_nat u64_digits) with 100000000000000000000. lia.
Qed.

(** Round trip: every [u64] is read back from its decimal text. *)
Lemma parse_dec_dec_string n : in_u64 n = true -> parse_dec (dec_string n) = Some n.
Proof.
  intros Hn. unfold parse_dec, dec_string.
  rewrite list_ascii_of_string_of_list_ascii.
  pose proof (parse_digits_rev u64_digits n 0 (u64_lt_pow10 n Hn)) as H.
  assert (Hne : rev (digits_rev u64_digits n) <> []).
  { intros E. apply (f_equal (@rev ascii)) in E. rewrite rev_involutive in E.
    discriminate. }
  destruct (rev (digits_rev u64_digits n)) as [|c l]; [contradiction|].
  by rewrite H.
Qed.

Lemma dec_string_inj n m :
  in_u64 n = true -> in_u64 m = true -> dec_string n = dec_string m -> n = m.
Proof.
  intros Hn Hm E. apply (f_equal parse_dec) in E.
  rewrite !parse_dec_dec_string in E by done. congruence.
Qed.

(** Every character of the text is a decimal digit. *)
Lemma dec_string_digits n :
  0 <= n -> Forall (fun c => is_Some (char_digit c)) (list_ascii_of_string (dec_string n)).
Proof.
  intros Hn. unfold dec_string. rewrite list_ascii_of_string_of_list_ascii.
  apply Forall_rev. generalize u64_digits as k. intros k. revert n Hn.
  induction k as [|k IH]; intros n Hn; simpl; [constructor|].
  constructor.
  - rewrite char_digit_digit_char by (apply Z.mod_pos_bound; lia). eauto.
  - destruct (n <? 10); [constructor|]. apply IH. apply Z.div_pos; lia.
Qed.

(** ** Agreement with stdpp's reference printer [pretty] *)

Lemma digit_char_pretty_all :
  forallb (fun d => bool_decide (digit_char (Z.of_nat d) = pretty_N_char (N.of_nat d)))
    (seq 0 10) = true.
Proof. vm_compute. reflexivity. Qed.

Lemma digit_char_pretty d : 0 <= d < 10 -> digit_char d = pretty_N_char (Z.to_N d).
Proof.
  intros Hd. pose proof digit_char_pretty_all as H. rewrite forallb_forall in H.
  specialize (H (Z.to_nat d)). rewrite Z2Nat.id in H by lia.
  rewrite <- Z_N_nat in H. rewrite N2Nat.id in H.
  apply bool_decide_eq_true in H; [done|]. apply in_seq. lia.
Qed.

Lemma string_of_list_ascii_app (l1 l2 : list ascii) :
  string_of_list_ascii (l1 ++ l2) = (string_of_list_ascii l1 ++ string_of_list_ascii l2)%string.
Proof. induction l1 as [|c l1 IH]; cbn; [done|]. by rewrite IH. Qed.

(** The digits of a positive [n], written before [s], are stdpp's. *)
Lemma digits_rev_pretty_go (k : nat) (n : Z) (s : string) :
  0 < n < 10 ^ Z.of_nat k ->
  (string_of_list_ascii (rev (digits_rev k n)) ++ s)%string = pretty_N_go (Z.to_N n) s.
Proof.
  revert n s. induction k as [|k IH]; intros n s Hn; [cbn in Hn; lia|].
  assert (Hm : 0 <= n mod 10 < 10) by (apply Z.mod_pos_bound; lia).
  rewrite (pretty_N_go_step (Z.to_N n) s) by lia.
  replace (Z.to_N n `div` 10)%N with (Z.to_N (n / 10)) by (rewrite Z2N.inj_div by lia; reflexivity).
  replace (Z.to_N n `mod` 10)%N with (Z.to_N (n mod 10)) by (rewrite Z2N.inj_mod by lia; reflexivity).
  rewrite <- (digit_char_pretty _ Hm).
  cbn [digits_rev rev]. destruct (Z.ltb_spec n 10) as [Hlt|Hge].
  - rewrite Z.div_small by lia. rewrite pretty_N_go_0. reflexivity.
  - rewrite string_of_list_ascii_app, string_app_assoc, IH.
    + reflexivity.
    + split; [apply Z.div_str_pos; lia|]. apply Z.div_lt_upper_bound; [lia|].
      rewrite Nat2Z.inj_succ, Z.pow_succ_r in Hn by lia. lia.
Qed.

(** [format!("{}", n)] of a [u64] is stdpp's [pretty n]. *)
Lemma dec_string_pretty n : in_u64 n = true -> dec_string n = pretty n.
Proof.
  intros Hn. pose proof (u64_lt_pow10 n Hn) as Hr.
  destruct n as [|p|p]; [reflexivity| |lia].
  change (pretty (Z.pos p)) with (pretty_N_go (N.pos p) EmptyString).
  pose proof (digits_rev_pretty_go u64_digits (Z.pos p) EmptyString ltac:(lia)) as H.
  change (Z.to_N (Z.pos p)) with (N.pos p) in H. rewrite <- H.
  unfold dec_string. apply list_ascii_of_string_inj.
  by rewrite list_ascii_of_string_app, app_nil_r.
Qed.

End Decimal.
