(* ===== verification/Jwt.v ===== *)
(** * Jwt: the [jsonwebtoken] interface the crate signs with

    [get_installation_token] (lib.rs 100-105) builds a [Header] from
    [Header::default()] with [alg = RS256], an [EncodingKey] with
    [EncodingKey::from_secret(&params.private_key)], and calls
    [jsonwebtoken::encode(&header, &claims, &key)].

    The signing primitive is an external collaborator: [JwtEncoder] is
    its interface (header, the claims' JSON text, key), and the
    development's theorems about the crate hold for every encoder.
    [FamilyChecked] is the law of jsonwebtoken 7's [encode], which starts
    with [if key.family != header.alg.family() { return
    Err(ErrorKind::InvalidAlgorithm) }]; [CompactOutput] says the token
    is made of base64url segments and dots; [JwsLayout] is the shape of
    every successful result of jsonwebtoken 7's [encode]: the encoded
    header, a dot, the encoded claims, a dot and the signature.
    [family_checked_v7] is jsonwebtoken 7's [encode] over an abstract
    signature and satisfies [FamilyChecked] and [JwsLayout];
    [jws_unchecked] is the same layout without the family check, an
    encoder no released jsonwebtoken with [EncodingKey] is: it serves
    as the stub with which the concrete runs of Scenario.v succeed. *)

From S2P Require Import Prelude.

Module Jwt.
Local Open Scope string_scope.

(** [jsonwebtoken::Algorithm] (version 7) *)
Inductive Algorithm :=
| HS256 | HS384 | HS512 | ES256 | ES384 | RS256 | RS384 | RS512 | PS256 | PS384 | PS512.

#[export] Instance Algorithm_eq_dec : EqDecision Algorithm.
Proof. solve_decision. Defined.

Inductive AlgorithmFamily := Hmac | Rsa | Ec.

#[export] Instance AlgorithmFamily_eq_dec : EqDecision AlgorithmFamily.
Proof. solve_decision. Defined.

(** [Algorithm::family] *)
Definition family (a : Algorithm) : AlgorithmFamily :=
  match a with
  | HS256 | HS384 | HS512 => Hmac
  | ES256 | ES384 => Ec
  | RS256 | RS384 | RS512 | PS256 | PS384 | PS512 => Rsa
  end.

(** [jsonwebtoken::Header] *)
Record Header := mkHeader {
  typ : option string;
  alg : Algorithm;
  cty : option string;
  jku : option string;
  kid : option string;
  x5u : option string;
  x5t : option string
}.

(** [Header::default()]: [typ: Some("JWT"), alg: HS256], no other field. *)
Definition Header_default : Header :=
  mkHeader (Some "JWT") HS256 None None None None None.

Definition set_alg (a : Algorithm) (h : Header) : Header :=
  mkHeader (typ h) a (cty h) (jku h) (kid h) (x5u h) (x5t h).

(** [jsonwebtoken::EncodingKey { family, content }] *)
Record EncodingKey := mkEncodingKey {
  key_family : AlgorithmFamily;
  key_content : list Byte.byte
}.

(** [EncodingKey::from_secret(secret)]: an HMAC key. *)
Definition EncodingKey_from_secret (secret : list Byte.byte) : EncodingKey :=
  mkEncodingKey Hmac secret.

(** [EncodingKey::from_rsa_pem(key)], for comparison (the PEM decoding
    is not modelled: the bytes are kept). *)
Definition EncodingKey_from_rsa_pem (pem : list Byte.byte) : EncodingKey :=
  mkEncodingKey Rsa pem.

(** [jsonwebtoken::errors::ErrorKind] *)
Inductive ErrorKind :=
| InvalidToken | InvalidSignature | InvalidEcdsaKey | InvalidRsaKey
| InvalidAlgorithmName | InvalidKeyFormat | InvalidAlgorithm
| Base64 | Json | Utf8 | Crypto.

#[export] Instance ErrorKind_eq_dec : EqDecision ErrorKind.
Proof. solve_decision. Defined.

Record Error := mkError { error_kind : ErrorKind }.

#[export] Instance Error_eq_dec : EqDecision Error.
Proof. solve_decision. Defined.

Definition alg_name (a : Algorithm) : string :=
  match a with
  | HS256 => "HS256" | HS384 => "HS384" | HS512 => "HS512"
  | ES256 => "ES256" | ES384 => "ES384"
  | RS256 => "RS256" | RS384 => "RS384" | RS512 => "RS512"
  | PS256 => "PS256" | PS384 => "PS384" | PS512 => "PS512"
  end.

(** [serde_json::to_string(&header)]: the fields in declaration order,
    [None] fields skipped. *)
Definition header_json (h : Header) : string :=
  let opt (name : string) (v : option string) :=
    match v with Some x => "," ++ json_quote name ++ ":" ++ json_quote x | None => "" end in
  "{" ++ match typ h with
         | Some t => json_quote "typ" ++ ":" ++ json_quote t ++ ","
         | None => ""
         end
  ++ json_quote "alg" ++ ":" ++ json_quote (alg_name (alg h))
  ++ opt "cty" (cty h) ++ opt "jku" (jku h) ++ opt "kid" (kid h)
  ++ opt "x5u" (x5u h) ++ opt "x5t" (x5t h) ++ "}".

(** ** The signing interface *)

(** [jsonwebtoken::encode(&header, &claims, &key)], the claims given by
    their JSON serialization. *)
Class JwtEncoder := jwt_encode : Header -> string -> EncodingKey -> result string Error.

(** jsonwebtoken 7: a key of another family than the algorithm's is
    refused before anything is signed. *)
Class FamilyChecked (enc : JwtEncoder) :=
  family_check : forall h c k, key_family k <> family (alg h) ->
    jwt_encode h c k = Err (mkError InvalidAlgorithm).

(** The characters of a compact JWS: base64url and the dot. *)
Definition is_jws_char (ch : ascii) : bool :=
  let n := nat_of_ascii ch in
  ((48 <=? n)%nat && (n <=? 57)%nat) || ((65 <=? n)%nat && (n <=? 90)%nat) ||
  ((97 <=? n)%nat && (n <=? 122)%nat) || (n =? 45)%nat || (n =? 95)%nat ||
  (n =? 46)%nat.

Class CompactOutput (enc : JwtEncoder) :=
  compact_output : forall h c k t, jwt_encode h c k = Ok t -> str_forallb is_jws_char t = true.

(** ** base64url without padding ([base64::URL_SAFE_NO_PAD]) *)

Definition b64_char (n : Z) : ascii :=
  if (n <? 26)%Z then ascii_of_N (Z.to_N (65 + n))
  else if (n <? 52)%Z then ascii_of_N (Z.to_N (97 + (n - 26)))
  else if (n <? 62)%Z then ascii_of_N (Z.to_N (48 + (n - 52)))
  else if (n =? 62)%Z then "-"%char else "_"%char.

Definition byte_val (c : ascii) : Z := Z.of_N (N_of_ascii c).

(** Three bytes make four characters; a final one or two bytes make two
    or three. *)
Fixpoint b64_encode_bytes (l : list ascii) : list ascii :=
  match l with
  | a :: b :: c :: rest =>
      let n := (byte_val a * 65536 + byte_val b * 256 + byte_val c)%Z in
      b64_char (n / 262144) :: b64_char ((n / 4096) mod 64) ::
      b64_char ((n / 64) mod 64) :: b64_char (n mod 64) :: b64_encode_bytes rest
  | [a; b] =>
      let n := (byte_val a * 65536 + byte_val b * 256)%Z in
      [b64_char (n / 262144); b64_char ((n / 4096) mod 64); b64_char ((n / 64) mod 64)]
  | [a] =>
      let n := (byte_val a * 65536)%Z in
      [b64_char (n / 262144); b64_char ((n / 4096) mod 64)]
  | [] => []
  end.

Definition b64_encode (s : string) : string :=
  string_of_list_ascii (b64_encode_bytes (list_ascii_of_string s)).

(** The layout of a successful [encode] (jsonwebtoken 7, lib.rs 105):
    [b64_encode_part(header)] "." [b64_encode_part(claims)] "." signature. *)
Class JwsLayout (enc : JwtEncoder) :=
  jws_layout_law : forall h c k t, jwt_encode h c k = Ok t ->
    exists sig, t = b64_encode (header_json h) ++ "." ++ b64_encode c ++ "." ++ sig.

(** ** Two encoders *)

Section Encoders.
  (** The cryptographic signature of [message], as base64url text. *)
Variable crypto_sign : Algorithm -> EncodingKey -> string -> result string Error.

  (** [b64_encode_part(header)] "." [b64_encode_part(claims)] "."
      [sign(message)] *)
Definition jws (h : Header) (claims : string) (k : EncodingKey) : result string Error :=
    let message := b64_encode (header_json h) ++ "." ++ b64_encode claims in
    res_bind (crypto_sign (alg h) k message) (fun s => Ok (message ++ "." ++ s)).

  (** jsonwebtoken 7's [encode]. *)
Definition family_checked_v7 : JwtEncoder := fun h claims k =>
    if decide (key_family k = family (alg h)) then jws h claims k
    else Err (mkError InvalidAlgorithm).

  (** The same layout with no family check (a stub, see the header). *)
Definition jws_unchecked : JwtEncoder := fun h claims k => jws h claims k.

Lemma family_checked_v7_law : FamilyChecked family_checked_v7.
  Proof.
    intros h c k Hne. unfold jwt_encode, family_checked_v7.
    by rewrite decide_False.
  Qed.
Lemma jws_layout h c k t :
    jws h c k = Ok t -> exists sig, t = b64_encode (header_json h) ++ "." ++ b64_encode c ++ "." ++ sig.
  Proof.
    unfold jws, res_bind. destruct (crypto_sign _ _ _) as [sig|e]; [|discriminate].
    intros [= <-]. exists sig. by rewrite <- !string_app_assoc.
  Qed.

End Encoders.

#[export] Instance family_checked_v7_jws crypto_sign : JwsLayout (family_checked_v7 crypto_sign).
Proof.
  intros h c k t. unfold jwt_encode, family_checked_v7.
  case_decide; [apply jws_layout|discriminate].
Qed.

#[export] Instance jws_unchecked_jws crypto_sign : JwsLayout (jws_unchecked crypto_sign).
Proof. intros h c k t. apply jws_layout. Qed.


End Jwt.
