(* ===== verification/Base64.v ===== *)
(** * Base64: the inverse of jsonwebtoken's base64url encoding

    [b64_encode] (Jwt.v) is jsonwebtoken's [b64_encode_part]: base64
    with the URL-safe alphabet and no padding.  This file gives its
    inverse [b64_decode] (what the remote applies to the JWT's segments)
    and proves the round trip [b64_decode (b64_encode s) = Some s] for
    every string: three bytes become four digits of six bits and back,
    and the final one or two bytes two or three digits. *)

From S2P Require Import Prelude Jwt.

Module Base64.
Import Jwt.
Local Open Scope Z_scope.

(** The value of a base64url digit. *)
Definition b64_val (c : ascii) : option Z :=
  let n := Z.of_N (N_of_ascii c) in
  if (65 <=? n) && (n <=? 90) then Some (n - 65)
  else if (97 <=? n) && (n <=? 122) then Some (n - 71)
  else if (48 <=? n) && (n <=? 57) then Some (n + 4)
  else if n =? 45 then Some 62
  else if n =? 95 then Some 63
  else None.

Definition byte_of (z : Z) : ascii := ascii_of_N (Z.to_N z).

(** Four digits make three bytes; a final three or two make two or one. *)
Fixpoint b64_decode_bytes (l : list ascii) : option (list ascii) :=
  match l with
  | c1 :: c2 :: c3 :: c4 :: rest =>
      v1 ← b64_val c1; v2 ← b64_val c2; v3 ← b64_val c3; v4 ← b64_val c4;
      r ← b64_decode_bytes rest;
      let n := v1 * 262144 + v2 * 4096 + v3 * 64 + v4 in
      Some (byte_of (n / 65536) :: byte_of ((n / 256) mod 256) :: byte_of (n mod 256) :: r)
  | [c1; c2; c3] =>
      v1 ← b64_val c1; v2 ← b64_val c2; v3 ← b64_val c3;
      let n := v1 * 262144 + v2 * 4096 + v3 * 64 in
      Some [byte_of (n / 65536); byte_of ((n / 256) mod 256)]
  | [c1; c2] =>
      v1 ← b64_val c1; v2 ← b64_val c2;
      let n := v1 * 262144 + v2 * 4096 in
      Some [byte_of (n / 65536)]
  | [_] => None
  | [] => Some []
  end.

Definition b64_decode (s : string) : option string :=
  string_of_list_ascii <$> b64_decode_bytes (list_ascii_of_string s).

(** ** The digits *)

Lemma b64_val_char_all :
  forallb (fun k => bool_decide (b64_val (b64_char (Z.of_nat k)) = Some (Z.of_nat k)))
    (seq 0 64) = true.
Proof. vm_compute. reflexivity. Qed.

Lemma b64_val_char k : 0 <= k < 64 -> b64_val (b64_char k) = Some k.
Proof.
  intros Hk. pose proof b64_val_char_all as H. rewrite forallb_forall in H.
  specialize (H (Z.to_nat k)). rewrite Z2Nat.id in H by lia.
  apply bool_decide_eq_true in H; [done|]. apply in_seq. lia.
Qed.

(** No digit is the separator of the JWT's segments. *)
Lemma b64_char_not_dot_all :
  forallb (fun k => negb (Ascii.eqb (b64_char (Z.of_nat k)) ".")) (seq 0 64) = true.
Proof. vm_compute. reflexivity. Qed.

Lemma byte_val_range c : 0 <= byte_val c < 256.
Proof.
  unfold byte_val. pose proof (N_ascii_bounded c). lia.
Qed.

Lemma byte_of_val c : byte_of (byte_val c) = c.
Proof. unfold byte_of, byte_val. rewrite N2Z.id. apply ascii_N_embedding. Qed.

Lemma digit_range n d : 0 <= n -> 0 <= (n / d) mod 64 < 64.
Proof. intros. apply Z.mod_pos_bound. lia. Qed.

(** ** One group *)

Section Group.
Variables a b c : ascii.

Lemma group3_bytes :
  let m n := n / 262144 * 262144 + (n / 4096) mod 64 * 4096 + (n / 64) mod 64 * 64 + n mod 64 in
  m (byte_val a * 65536 + byte_val b * 256 + byte_val c) / 65536 = byte_val a /\
  (m (byte_val a * 65536 + byte_val b * 256 + byte_val c) / 256) mod 256 = byte_val b /\
  m (byte_val a * 65536 + byte_val b * 256 + byte_val c) mod 256 = byte_val c.
Proof.
  pose proof (byte_val_range a). pose proof (byte_val_range b). pose proof (byte_val_range c).
  cbv beta zeta. Z.div_mod_to_equations. lia.
Qed.

Lemma group2_bytes :
  let m n := n / 262144 * 262144 + (n / 4096) mod 64 * 4096 + (n / 64) mod 64 * 64 in
  m (byte_val a * 65536 + byte_val b * 256) / 65536 = byte_val a /\
  (m (byte_val a * 65536 + byte_val b * 256) / 256) mod 256 = byte_val b.
Proof.
  pose proof (byte_val_range a). pose proof (byte_val_range b).
  cbv beta zeta. Z.div_mod_to_equations. lia.
Qed.

Lemma group1_bytes :
  (byte_val a * 65536 / 262144 * 262144 + (byte_val a * 65536 / 4096) mod 64 * 4096) / 65536 =
  byte_val a.
Proof. pose proof (byte_val_range a). Z.div_mod_to_equations. lia. Qed.
End Group.

(** ** The round trip *)

Lemma first_digit_range n : 0 <= n < 16777216 -> 0 <= n / 262144 < 64.
Proof. intros. split; [apply Z.div_pos; lia|apply Z.div_lt_upper_bound; lia]. Qed.

(** Rewrite the decoding of the digits of one group. *)
Ltac digits :=
  repeat match goal with
  | |- context [b64_val (b64_char ?k)] =>
      rewrite (b64_val_char k) by
        (first [apply digit_range; lia|apply first_digit_range; lia|apply Z.mod_pos_bound; lia])
  end.

Lemma b64_decode_encode_bytes l : b64_decode_bytes (b64_encode_bytes l) = Some l.
Proof.
  remember (List.length l) as len eqn:E. revert l E.
  induction len as [len IH] using lt_wf_ind. intros l ->.
  destruct l as [|a [|b [|c rest]]]; [reflexivity| | |].
  - pose proof (byte_val_range a). cbn [b64_encode_bytes b64_decode_bytes]. digits.
    cbn. rewrite group1_bytes. by rewrite byte_of_val.
  - pose proof (byte_val_range a). pose proof (byte_val_range b).
    cbn [b64_encode_bytes b64_decode_bytes]. digits. cbn.
    destruct (group2_bytes a b) as [E1 E2]. cbv beta zeta in E1, E2. rewrite E1, E2.
    by rewrite !byte_of_val.
  - pose proof (byte_val_range a). pose proof (byte_val_range b). pose proof (byte_val_range c).
    cbn [b64_encode_bytes b64_decode_bytes]. digits.
    rewrite (IH (List.length rest)) by (cbn; lia). cbn.
    destruct (group3_bytes a b c) as (E1 & E2 & E3). cbv beta zeta in E1, E2, E3.
    rewrite E1, E2, E3. by rewrite !byte_of_val.
Qed.

Lemma b64_decode_encode s : b64_decode (b64_encode s) = Some s.
Proof.
  unfold b64_decode, b64_encode. rewrite list_ascii_of_string_of_list_ascii.
  rewrite b64_decode_encode_bytes. cbn. by rewrite string_of_list_ascii_of_string.
Qed.

(** Every character [b64_encode_bytes] writes is a digit. *)
(** Each digit of a group: a value below 64. *)
Ltac digit_goals :=
  repeat match goal with
  | |- Forall _ (b64_char ?k :: _) =>
      constructor;
      [exists k; split; [first [apply digit_range; lia|apply first_digit_range; lia
                               |apply Z.mod_pos_bound; lia]|reflexivity]|]
  end.

Lemma b64_encode_digits l :
  Forall (fun c => exists k, 0 <= k < 64 /\ c = b64_char k) (b64_encode_bytes l).
Proof.
  remember (List.length l) as len eqn:E. revert l E.
  induction len as [len IH] using lt_wf_ind. intros l ->.
  destruct l as [|a [|b [|c rest]]]; cbn [b64_encode_bytes]; [constructor| | |].
  - pose proof (byte_val_range a). digit_goals. constructor.
  - pose proof (byte_val_range a). pose proof (byte_val_range b). digit_goals. constructor.
  - pose proof (byte_val_range a). pose proof (byte_val_range b). pose proof (byte_val_range c).
    digit_goals. apply (IH (List.length rest)); [cbn; lia|done].
Qed.

Lemma b64_char_not_dot k : 0 <= k < 64 -> b64_char k <> "."%char.
Proof.
  intros Hk E. pose proof b64_char_not_dot_all as H. rewrite forallb_forall in H.
  specialize (H (Z.to_nat k)). rewrite Z2Nat.id in H by lia.
  rewrite E in H. discriminate H. apply in_seq. lia.
Qed.

(** The separator of the JWT never occurs inside an encoded segment. *)
Lemma b64_encode_no_dot s : ~ In "."%char (list_ascii_of_string (b64_encode s)).
Proof.
  unfold b64_encode. rewrite list_ascii_of_string_of_list_ascii. intros Hin.
  pose proof (b64_encode_digits (list_ascii_of_string s)) as H.
  rewrite List.Forall_forall in H. destruct (H _ Hin) as (k & Hk & E).
  exact (b64_char_not_dot k Hk (eq_sym E)).
Qed.

End Base64.
