(* ===== verification/Chrono.v ===== *)
(** * Chrono: the [DateTime<Utc>] of [RawInstallationToken::expires_at]

    [RawInstallationToken] (lib.rs 86-89) has a field
    [expires_at: DateTime<Utc>]; serde deserializes it from a JSON
    string with [str::parse::<DateTime<FixedOffset>>] followed by
    [with_timezone(&Utc)].  The accepted text is modelled as the
    RFC 3339 form [YYYY-MM-DDTHH:MM:SS[.fraction](Z|z|+HH:MM|-HH:MM)]:
    four-digit year, two-digit fields, at most nine fraction digits
    kept (further digits are read and dropped), calendar validation
    (month, day of month with leap years, hour, minute, second).
    chrono's own leniencies (blanks between items, one-digit fields,
    signed years, a leap second written as [:60]) are not modelled.

    A [DateTime<Utc>] is kept as seconds since the epoch and
    nanoseconds; [days_from_civil] is the proleptic Gregorian day count.
    [parse_datetime_test_vector] is the unit test of lib.rs 221-234.
    Because the parser is stricter than chrono, theorems that need a
    text to be refused ask for a [digit_free] one, which every chrono
    version refuses ([parse_datetime_digit_free]). *)

From S2P Require Import Prelude.

Module Chrono.
Local Open Scope Z_scope.

(** [DateTime<Utc>]: seconds since 1970-01-01T00:00:00Z and nanoseconds. *)
Record DateTime := mkDateTime { dt_secs : Z; dt_nsec : Z }.

#[export] Instance DateTime_eq_dec : EqDecision DateTime.
Proof. solve_decision. Defined.

Definition is_leap_year (y : Z) : bool :=
  ((y mod 4 =? 0) && negb (y mod 100 =? 0)) || (y mod 400 =? 0).

Definition days_in_month (y m : Z) : Z :=
  if (m =? 2) then (if is_leap_year y then 29 else 28)
  else if (m =? 4) || (m =? 6) || (m =? 9) || (m =? 11) then 30
  else 31.

(** Days from 1970-01-01 to the date [y-m-d] (proleptic Gregorian),
    by 400-year eras starting in March. *)
Definition days_from_civil (y m d : Z) : Z :=
  let y' := if m <=? 2 then y - 1 else y in
  let era := y' / 400 in
  let yoe := y' - era * 400 in
  let mp := if m >? 2 then m - 3 else m + 9 in
  let doy := (153 * mp + 2) / 5 + d - 1 in
  let doe := yoe * 365 + yoe / 4 - yoe / 100 + doy in
  era * 146097 + doe - 719468.

(** ** Scanning *)

Definition digit_of (c : ascii) : option Z :=
  let n := nat_of_ascii c in
  if ((48 <=? n)%nat && (n <=? 57)%nat) then Some (Z.of_nat n - 48) else None.

(** Exactly [k] decimal digits. *)
Fixpoint fixed_digits (k : nat) (acc : Z) (l : list ascii) : option (Z * list ascii) :=
  match k with
  | O => Some (acc, l)
  | S k' => match l with
            | c :: l' => d ← digit_of c; fixed_digits k' (acc * 10 + d) l'
            | [] => None
            end
  end.

Definition expect (ch : ascii) (l : list ascii) : option (list ascii) :=
  match l with
  | c :: l' => if Ascii.eqb c ch then Some l' else None
  | [] => None
  end.

(** The fraction after the dot: up to nine digits make the nanoseconds,
    the rest is consumed; at least one digit. *)
Fixpoint frac_digits (fuel : nat) (scale acc : Z) (l : list ascii) : Z * list ascii :=
  match fuel, l with
  | S f, c :: l' =>
      match digit_of c with
      | Some d => frac_digits f (scale / 10) (acc + d * scale) l'
      | None => (acc, l)
      end
  | _, _ => (acc, l)
  end.

Definition nanosecond (l : list ascii) : option (Z * list ascii) :=
  match l with
  | c :: l' =>
      if Ascii.eqb c "." then
        match l' with
        | c1 :: _ => _ ← digit_of c1; Some (frac_digits (List.length l') 100000000 0 l')
        | [] => None
        end
      else Some (0, l)
  | [] => Some (0, l)
  end.

(** [Z], [z], or [+HH:MM] / [-HH:MM], as seconds east of UTC. *)
Definition timezone_offset_zulu (l : list ascii) : option (Z * list ascii) :=
  match l with
  | c :: l' =>
      if Ascii.eqb c "Z" || Ascii.eqb c "z" then Some (0, l')
      else if Ascii.eqb c "+" || Ascii.eqb c "-" then
        '(hh, l1) ← fixed_digits 2 0 l';
        l2 ← expect ":" l1;
        '(mm, l3) ← fixed_digits 2 0 l2;
        if (hh <? 24) && (mm <? 60) then
          let off := hh * 3600 + mm * 60 in
          Some (if Ascii.eqb c "-" then - off else off, l3)
        else None
      else None
  | [] => None
  end.

(** [<DateTime<FixedOffset> as FromStr>::from_str(s).with_timezone(&Utc)] *)
Definition parse_datetime (s : string) : option DateTime :=
  let l := list_ascii_of_string s in
  '(y, l) ← fixed_digits 4 0 l; l ← expect "-" l;
  '(mo, l) ← fixed_digits 2 0 l; l ← expect "-" l;
  '(d, l) ← fixed_digits 2 0 l; l ← expect "T" l;
  '(hh, l) ← fixed_digits 2 0 l; l ← expect ":" l;
  '(mi, l) ← fixed_digits 2 0 l; l ← expect ":" l;
  '(ss, l) ← fixed_digits 2 0 l;
  '(ns, l) ← nanosecond l;
  '(off, l) ← timezone_offset_zulu l;
  match l with
  | [] =>
      if (1 <=? mo) && (mo <=? 12) && (1 <=? d) && (d <=? days_in_month y mo)
         && (hh <=? 23) && (mi <=? 59) && (ss <=? 59)
      then Some (mkDateTime (days_from_civil y mo d * 86400 + hh * 3600 + mi * 60 + ss - off) ns)
      else None
  | _ :: _ => None
  end.

(** A text with no decimal digit.  No year can be read from it: not by
    this parser, and not by any version of chrono, whose
    [Numeric::Year] item (after optional blanks and sign) needs at least
    one digit.  Such a text is rejected whatever leniencies the chrono
    version in use has. *)
Definition digit_free (s : string) : bool :=
  str_forallb (fun c => match digit_of c with Some _ => false | None => true end) s.

Lemma parse_datetime_digit_free s : digit_free s = true -> parse_datetime s = None.
Proof.
  unfold digit_free, str_forallb, parse_datetime.
  destruct (list_ascii_of_string s) as [|c l]; [done|].
  cbn [forallb]. intros [Hc _]%andb_prop. cbn [fixed_digits].
  by destruct (digit_of c).
Qed.

(** The unit test [test_raw_installation_token_parse]: the expiry
    [2016-07-11T22:14:10Z] is [Utc.ymd(2016, 7, 11).and_hms(22, 14, 10)]. *)
Example parse_datetime_test_vector :
  parse_datetime "2016-07-11T22:14:10Z" = Some (mkDateTime 1468275250 0).
Proof. reflexivity. Qed.

End Chrono.
