(* ===== verification/Calendar.v ===== *)
(** * Calendar: the day count of Chrono.v's [parse_datetime]

    [parse_datetime] turns the date of an RFC 3339 timestamp into a day
    number with [days_from_civil] (400-year eras starting in March).
    This file shows that this number is the right one:
    - [civil_days_next]: the day after a valid date gets the next
      number, across month, February and year ends and in every era;
    - with [days_from_civil] of 1970-01-01 equal to 0, the date reached
      after [n] steps of [next_date] gets number [n]
      ([date_after_spec]): the formula counts the days since
      the epoch one by one;
    - [civil_from_days] is its inverse on day numbers
      ([civil_from_days_spec]): [yoe_of] is monotone, so checking the
      first and last day of each of the 400 years of an era
      ([year_ok_all]) places every day of the era in its year, and the
      366 days of a year are checked once ([doy_ok_all]); the shift
      lemmas carry this to every era. *)

From S2P Require Import Prelude Chrono.

Module Calendar.
Import Chrono.
Local Open Scope Z_scope.

Definition valid_date (y m d : Z) : bool :=
  (1 <=? m) && (m <=? 12) && (1 <=? d) && (d <=? days_in_month y m).

(** The calendar day after [y-m-d]. *)
Definition next_date (ymd : Z * Z * Z) : Z * Z * Z :=
  let '(y, m, d) := ymd in
  if d <? days_in_month y m then (y, m, d + 1)
  else if m <? 12 then (y, m + 1, 1)
  else (y + 1, 1, 1).

Definition civil_days (ymd : Z * Z * Z) : Z :=
  let '(y, m, d) := ymd in days_from_civil y m d.

Definition civil_valid (ymd : Z * Z * Z) : bool :=
  let '(y, m, d) := ymd in valid_date y m d.

(** The date [n] days after 1970-01-01, counted one day at a time. *)
Fixpoint date_after (n : nat) : Z * Z * Z :=
  match n with
  | O => (1970, 1, 1)
  | S n' => next_date (date_after n')
  end.

(** The inverse: the civil date of a day number.  A 400-year era is
    counted from March 1 of its year 0; [year_start k] is the first day
    of its March-based year [k] and [year_len k] its length (the
    February at its end is that of calendar year [k + 1]). *)
Definition year_start (k : Z) : Z := 365 * k + k / 4 - k / 100.

Definition year_len (k : Z) : Z := if is_leap_year (k + 1) then 366 else 365.

(** The March-based year of the era a day of the era falls in. *)
Definition yoe_of (doe : Z) : Z := (doe - doe / 1460 + doe / 36524 - doe / 146096) / 365.

(** The month and day of the [doy]-th day of a March-based year. *)
Definition civil_of_doy (doy : Z) : Z * Z :=
  let mp := (5 * doy + 2) / 153 in
  (if mp <? 10 then mp + 3 else mp - 9, doy - (153 * mp + 2) / 5 + 1).

Definition civil_of_doe (doe : Z) : Z * Z * Z :=
  let yoe := yoe_of doe in
  let '(m, d) := civil_of_doy (doe - year_start yoe) in
  (if m <=? 2 then yoe + 1 else yoe, m, d).

Definition civil_from_days (z : Z) : Z * Z * Z :=
  let z' := z + 719468 in
  let '(y, m, d) := civil_of_doe (z' mod 146097) in (y + z' / 146097 * 400, m, d).

(** ** The next day *)

Lemma is_leap_year_spec y :
  is_leap_year y = true <-> (y mod 4 = 0 /\ y mod 100 <> 0) \/ y mod 400 = 0.
Proof.
  unfold is_leap_year. rewrite orb_true_iff, andb_true_iff, negb_true_iff, !Z.eqb_eq, Z.eqb_neq.
  tauto.
Qed.

Lemma days_in_month_range y m : 28 <= days_in_month y m <= 31.
Proof.
  unfold days_in_month. destruct (m =? 2), (is_leap_year y); [lia|lia|..];
    destruct (_ || _); lia.
Qed.

(** Unfold the day count of concrete months. *)
Ltac civil :=
  unfold days_from_civil; cbv zeta; cbn -[Z.div Z.modulo Z.sub Z.mul Z.add];
  repeat match goal with |- context [(153 * ?a + 2) / 5] =>
    let c := eval cbv in ((153 * a + 2) / 5) in change ((153 * a + 2) / 5) with c end.

(** Inside a month the number grows with the day. *)
Lemma days_from_civil_succ_day y m d :
  days_from_civil y m (d + 1) = days_from_civil y m d + 1.
Proof. unfold days_from_civil. cbv zeta. destruct (m <=? 2), (m >? 2); lia. Qed.

(** From February to March the era year moves from [y - 1] to [y]:
    the step is one day exactly when February has its leap day. *)
Lemma days_from_civil_march y :
  days_from_civil y 3 1 = days_from_civil y 2 (days_in_month y 2) + 1.
Proof.
  unfold days_in_month. civil.
  destruct (is_leap_year y) eqn:E; [apply is_leap_year_spec in E|
    assert (E' : ~ ((y mod 4 = 0 /\ y mod 100 <> 0) \/ y mod 400 = 0))
      by (rewrite <- is_leap_year_spec; congruence)];
    Z.div_mod_to_equations; lia.
Qed.

Lemma days_from_civil_month_end y m :
  1 <= m <= 11 ->
  days_from_civil y (m + 1) 1 = days_from_civil y m (days_in_month y m) + 1.
Proof.
  intros Hm.
  assert (m = 1 \/ m = 2 \/ m = 3 \/ m = 4 \/ m = 5 \/ m = 6 \/ m = 7 \/ m = 8 \/ m = 9 \/
          m = 10 \/ m = 11) as Hc by lia.
  destruct Hc as [->|[->|[->|[->|[->|[->|[->|[->|[->|[->| ->]]]]]]]]]];
    [|apply days_from_civil_march|..];
    match goal with |- context [days_from_civil _ (?a + 1) _] =>
      let c := eval cbv in (a + 1) in change (a + 1) with c end;
    unfold days_in_month; civil; lia.
Qed.

Lemma days_from_civil_year_end y :
  days_from_civil (y + 1) 1 1 = days_from_civil y 12 31 + 1.
Proof. civil. replace (y + 1 - 1) with y by lia. lia. Qed.

Lemma next_date_valid y m d :
  valid_date y m d = true -> civil_valid (next_date (y, m, d)) = true.
Proof.
  unfold valid_date, next_date, civil_valid. rewrite !andb_true_iff, !Z.leb_le.
  pose proof (days_in_month_range y m). pose proof (days_in_month_range (y + 1) 1).
  pose proof (days_in_month_range y (m + 1)).
  intros (((? & ?) & ?) & ?).
  destruct (d <? days_in_month y m) eqn:E1; [apply Z.ltb_lt in E1|apply Z.ltb_ge in E1];
    [unfold valid_date; rewrite !andb_true_iff, !Z.leb_le; lia|].
  destruct (m <? 12) eqn:E2; [apply Z.ltb_lt in E2|apply Z.ltb_ge in E2];
    unfold valid_date; rewrite !andb_true_iff, !Z.leb_le; lia.
Qed.

Lemma civil_days_next y m d :
  valid_date y m d = true -> civil_days (next_date (y, m, d)) = days_from_civil y m d + 1.
Proof.
  unfold valid_date. rewrite !andb_true_iff, !Z.leb_le. intros (((? & ?) & ?) & ?).
  unfold next_date, civil_days.
  destruct (d <? days_in_month y m) eqn:E1; [apply days_from_civil_succ_day|].
  apply Z.ltb_ge in E1. assert (d = days_in_month y m) as -> by lia.
  destruct (m <? 12) eqn:E2; [apply Z.ltb_lt in E2; apply days_from_civil_month_end; lia|].
  assert (m = 12) as -> by (apply Z.ltb_ge in E2; lia). apply days_from_civil_year_end.
Qed.

(** ** The inverse *)

(** What each March-based year of the era promises: its first and last
    days fall in it, and the next year starts after it. *)
Definition year_ok (k : Z) : bool :=
  (yoe_of (year_start k) =? k) && (yoe_of (year_start k + year_len k - 1) =? k) &&
  ((k =? 399) || (year_start (k + 1) =? year_start k + year_len k)).

(** The day of the March-based year in [days_from_civil]. *)
Definition doy_of (m d : Z) : Z := (153 * (if m >? 2 then m - 3 else m + 9) + 2) / 5 + d - 1.

(** What each day of a March-based year promises: a valid month and
    day, valid in a leap year, valid in a common year unless it is the
    366th day (February 29), and read back by [doy_of]. *)
Definition doy_ok (doy : Z) : bool :=
  let '(m, d) := civil_of_doy doy in
  (1 <=? m) && (m <=? 12) && (1 <=? d) && (d <=? days_in_month 2000 m) &&
  ((doy =? 365) || (d <=? days_in_month 2001 m)) && (negb (doy =? 365) || (m =? 2)) &&
  (doy_of m d =? doy).

Lemma year_ok_all : Z_all year_ok 0 400 = true.
Proof. vm_compute. reflexivity. Qed.

Lemma doy_ok_all : Z_all doy_ok 0 366 = true.
Proof. vm_compute. reflexivity. Qed.

Lemma yoe_of_step a : 0 <= a -> a + 1 < 146097 -> yoe_of a <= yoe_of (a + 1).
Proof. intros. unfold yoe_of. apply Z.div_le_mono; [lia|]. Z.div_mod_to_equations. lia. Qed.

Lemma yoe_of_mono a b : 0 <= a <= b -> b < 146097 -> yoe_of a <= yoe_of b.
Proof.
  intros Hab Hb. replace b with (a + Z.of_nat (Z.to_nat (b - a))) in * by lia.
  induction (Z.to_nat (b - a)) as [|n IH]; [rewrite Z.add_0_r; lia|].
  replace (a + Z.of_nat (S n)) with (a + Z.of_nat n + 1) in * by lia.
  pose proof (yoe_of_step (a + Z.of_nat n) ltac:(lia) Hb). lia.
Qed.

(** A day of the era lies in the March-based year [yoe_of] gives. *)
Lemma year_of_doe doe :
  0 <= doe < 146097 ->
  0 <= yoe_of doe < 400 /\ year_start (yoe_of doe) <= doe < year_start (yoe_of doe) + year_len (yoe_of doe).
Proof.
  intros Hd. set (k := yoe_of doe).
  assert (Hk : 0 <= k < 400).
  { pose proof (yoe_of_mono 0 doe ltac:(lia) ltac:(lia)).
    pose proof (yoe_of_mono doe 146096 ltac:(lia) ltac:(lia)).
    change (yoe_of 0) with 0 in *. change (yoe_of 146096) with 399 in *. lia. }
  pose proof (Z_all_spec _ _ _ (k) year_ok_all ltac:(cbn; lia)) as Hy.
  unfold year_ok in Hy. rewrite !andb_true_iff, orb_true_iff, !Z.eqb_eq in Hy.
  destruct Hy as ((H1 & H2) & H3). split; [exact Hk|]. split.
  - destruct (Z.lt_ge_cases doe (year_start k)) as [Hlt|]; [exfalso|done].
    assert (k <> 0) by (intros E; rewrite E in Hlt; unfold year_start in Hlt; Z.div_mod_to_equations; lia).
    pose proof (Z_all_spec _ _ _ (k - 1) year_ok_all ltac:(cbn; lia)) as Hp.
    unfold year_ok in Hp. rewrite !andb_true_iff, orb_true_iff, !Z.eqb_eq in Hp.
    destruct Hp as ((_ & P2) & [P3|P3]); [lia|]. replace (k - 1 + 1) with k in P3 by lia.
    assert (year_start k <= 146096) by (unfold year_start; Z.div_mod_to_equations; lia).
    pose proof (yoe_of_mono doe (year_start (k - 1) + year_len (k - 1) - 1) ltac:(lia) ltac:(lia)).
    lia.
  - destruct (Z.lt_ge_cases doe (year_start k + year_len k)) as [|Hge]; [done|exfalso].
    assert (Hend : year_start 399 + year_len 399 = 146097) by reflexivity.
    destruct H3 as [E|E]; [rewrite E in Hge; lia|].
    pose proof (Z_all_spec _ _ _ (k + 1) year_ok_all) as Hn.
    assert (k + 1 < 400) by (destruct (Z.eq_dec k 399) as [E'|]; [rewrite E' in Hge; lia|lia]).
    specialize (Hn ltac:(cbn; lia)). unfold year_ok in Hn.
    rewrite !andb_true_iff, !Z.eqb_eq in Hn. destruct Hn as ((N1 & _) & _).
    pose proof (yoe_of_mono (year_start (k + 1)) doe ltac:(unfold year_start in *; Z.div_mod_to_equations; lia) ltac:(lia)).
    lia.
Qed.

Lemma days_in_month_leap y m :
  days_in_month y m = days_in_month (if is_leap_year y then 2000 else 2001) m.
Proof. unfold days_in_month at 1. destruct (is_leap_year y); reflexivity. Qed.

(** [civil_of_doe] reads a day of the era as a valid date of the years
    0 to 400 whose number is that day. *)
Lemma civil_of_doe_spec doe y m d :
  0 <= doe < 146097 -> civil_of_doe doe = (y, m, d) ->
  valid_date y m d = true /\ days_from_civil y m d = doe - 719468 /\ 0 <= y <= 400.
Proof.
  intros Hd. unfold civil_of_doe. destruct (year_of_doe doe Hd) as (Hk & Hlo & Hhi).
  set (k := yoe_of doe) in *. set (doy := doe - year_start k).
  assert (Hl : year_len k <= 366) by (unfold year_len; destruct (is_leap_year _); lia).
  pose proof (Z_all_spec _ _ _ (doy) doy_ok_all ltac:(cbn; lia)) as Hy.
  unfold doy_ok in Hy. destruct (civil_of_doy doy) as [m0 d0].
  rewrite !andb_true_iff, !orb_true_iff, !Z.leb_le, !Z.eqb_eq, negb_true_iff, Z.eqb_neq in Hy.
  destruct Hy as ((((((Hm1 & Hm2) & Hd1) & Hd2) & Hd3) & Hfeb) & Hdoy).
  intros [= <- <- <-]. split; [|split].
  - unfold valid_date. rewrite days_in_month_leap. rewrite !andb_true_iff, !Z.leb_le.
    destruct (is_leap_year _) eqn:L; [lia|]. repeat split; try lia.
    destruct Hd3 as [E|]; [exfalso|lia]. destruct Hfeb as [|Hm]; [lia|].
    subst m0. cbn in L. unfold year_len in Hhi. rewrite L in Hhi. lia.
  - unfold doy_of in Hdoy. unfold days_from_civil. cbv zeta.
    assert (E : (if m0 <=? 2 then (if m0 <=? 2 then k + 1 else k) - 1
                 else if m0 <=? 2 then k + 1 else k) = k) by (destruct (m0 <=? 2); lia).
    rewrite E, (Z.div_small k 400) by lia. rewrite Z.mul_0_l, Z.sub_0_r.
    unfold doy, year_start in Hdoy. lia.
  - destruct (m0 <=? 2); lia.
Qed.

(** Moving a date by [k] eras of 400 years moves its number by
    [146097 * k] days and keeps it valid. *)
Lemma days_from_civil_shift y m d k :
  days_from_civil (y + k * 400) m d = days_from_civil y m d + k * 146097.
Proof.
  unfold days_from_civil. cbv zeta.
  assert (E : forall a, (a + k * 400) / 400 = a / 400 + k) by (intros; apply Z.div_add; lia).
  destruct (m <=? 2), (m >? 2);
    rewrite ?(Z.sub_add_distr y), ?(Z.add_sub_swap y (k * 400) 1), E;
    match goal with |- context [?a + k * 400 - (?a / 400 + k) * 400] =>
      replace (a + k * 400 - (a / 400 + k) * 400) with (a - a / 400 * 400) by lia end; lia.
Qed.

Lemma is_leap_year_shift y k : is_leap_year (y + k * 400) = is_leap_year y.
Proof.
  unfold is_leap_year.
  replace (y + k * 400) with (y + (k * 100) * 4) by lia. rewrite Z.mod_add by lia.
  replace (y + k * 100 * 4) with (y + (k * 4) * 100) by lia. rewrite Z.mod_add by lia.
  replace (y + k * 4 * 100) with (y + k * 400) by lia. rewrite Z.mod_add by lia. reflexivity.
Qed.

Lemma valid_date_shift y m d k : valid_date (y + k * 400) m d = valid_date y m d.
Proof. unfold valid_date, days_in_month. by rewrite is_leap_year_shift. Qed.

(** [civil_from_days] gives a valid date whose number is the one it
    started from. *)
Lemma civil_from_days_spec z y m d :
  civil_from_days z = (y, m, d) -> valid_date y m d = true /\ days_from_civil y m d = z.
Proof.
  unfold civil_from_days. cbv zeta.
  pose proof (Z.mod_pos_bound (z + 719468) 146097 ltac:(lia)) as Hb.
  pose proof (Z.div_mod (z + 719468) 146097 ltac:(lia)) as Hd.
  destruct (civil_of_doe ((z + 719468) mod 146097)) as [[y0 m0] d0] eqn:E.
  destruct (civil_of_doe_spec _ _ _ _ Hb E) as (Hv & Hn & _). intros [= <- <- <-].
  rewrite valid_date_shift, days_from_civil_shift. split; [exact Hv|lia].
Qed.

(** The date [n] days after the epoch is valid and has number [n]. *)
Lemma date_after_spec n :
  civil_valid (date_after n) = true /\ civil_days (date_after n) = Z.of_nat n.
Proof.
  induction n as [|n [Hv Hd]]; [split; reflexivity|]. cbn [date_after].
  destruct (date_after n) as [[y m] d]. cbn [civil_valid civil_days] in Hv, Hd.
  split; [by apply next_date_valid|]. rewrite civil_days_next by exact Hv. lia.
Qed.

(** Counting days forward never goes back before 1970. *)
Lemma date_after_year n y m d : date_after n = (y, m, d) -> 1970 <= y.
Proof.
  revert y m d. induction n as [|n IH]; intros y m d; cbn [date_after]; [by intros [= <- _ _]|].
  destruct (date_after n) as [[y0 m0] d0]. specialize (IH _ _ _ eq_refl).
  unfold next_date. destruct (_ <? _); [|destruct (_ <? _)]; intros [= <- _ _]; lia.
Qed.

End Calendar.
