(* ===== verification/Rfc3339.v ===== *)
(** * Rfc3339: the expiry GitHub writes, read back by [parse_datetime]

    GitHub writes [expires_at] in the RFC 3339 form with a [Z] offset,
    the form chrono's [to_rfc3339_opts(SecondsFormat::AutoSi, true)]
    writes: [YYYY-MM-DDTHH:MM:SS], then the nanoseconds with 3, 6 or 9
    digits (the fewest that are exact) or nothing when they are zero,
    then [Z].  [to_rfc3339] writes a [DateTime] this way, with
    Calendar.v's [civil_from_days] for the date.  [parse_to_rfc3339]
    shows that [parse_datetime] (Chrono.v, the [DateTime<Utc>] field of
    [RawInstallationToken]) reads every instant with a four-digit year
    and nanoseconds below one second back exactly. *)

From S2P Require Import Prelude Chrono Calendar.

Module Rfc3339.
Import Chrono Calendar.
Local Open Scope Z_scope.

Definition digit_char (d : Z) : ascii := ascii_of_nat (48 + Z.to_nat d).

(** The [k] decimal digits of [n], zero-padded ([{:0k}]). *)
Fixpoint zpad (k : nat) (n : Z) : list ascii :=
  match k with
  | O => []
  | S k' => digit_char (n / 10 ^ Z.of_nat k') :: zpad k' (n mod 10 ^ Z.of_nat k')
  end.

(** [SecondsFormat::AutoSi]: no fraction, or milli-, micro- or
    nanoseconds. *)
Definition frac_auto (ns : Z) : list ascii :=
  if ns =? 0 then []
  else if ns mod 1000000 =? 0 then "."%char :: zpad 3 (ns / 1000000)
  else if ns mod 1000 =? 0 then "."%char :: zpad 6 (ns / 1000)
  else "."%char :: zpad 9 ns.

Definition rfc3339_fields (y mo d hh mi ss ns : Z) : list ascii :=
  zpad 4 y ++ "-"%char :: zpad 2 mo ++ "-"%char :: zpad 2 d ++ "T"%char ::
  zpad 2 hh ++ ":"%char :: zpad 2 mi ++ ":"%char :: zpad 2 ss ++ frac_auto ns ++ ["Z"%char].

(** An instant written in UTC. *)
Definition to_rfc3339 (x : DateTime) : string :=
  let days := dt_secs x / 86400 in
  let sod := dt_secs x mod 86400 in
  let '(y, m, d) := civil_from_days days in
  string_of_list_ascii
    (rfc3339_fields y m d (sod / 3600) (sod mod 3600 / 60) (sod mod 60) (dt_nsec x)).

(** The instants whose calendar year has four digits, 0000 to 9999. *)
Definition four_digit_year (x : DateTime) : Prop :=
  let '(y, _, _) := civil_from_days (dt_secs x / 86400) in 0 <= y < 10000.

(** ** Reading the digits back *)

Lemma digit_char_all : Z_all (fun q => bool_decide (digit_of (digit_char q) = Some q)) 0 10 = true.
Proof. vm_compute. reflexivity. Qed.

Lemma digit_of_char q : 0 <= q < 10 -> digit_of (digit_char q) = Some q.
Proof. intros H. exact (bool_decide_eq_true_1 _ (Z_all_spec _ _ _ _ digit_char_all H)). Qed.

Lemma zpad_S k n : zpad (S k) n = digit_char (n / 10 ^ Z.of_nat k) :: zpad k (n mod 10 ^ Z.of_nat k).
Proof. reflexivity. Qed.

Lemma pow10_succ k : 10 ^ Z.of_nat (S k) = 10 * 10 ^ Z.of_nat k.
Proof. rewrite Nat2Z.inj_succ, Z.pow_succ_r by lia. lia. Qed.

Lemma pow10_pos k : 0 < 10 ^ Z.of_nat k.
Proof. apply Z.pow_pos_nonneg; lia. Qed.

(** The leading digit and the rest of a [k + 1]-digit number. *)
Lemma lead_digit k n :
  0 <= n < 10 ^ Z.of_nat (S k) ->
  0 <= n / 10 ^ Z.of_nat k < 10 /\ 0 <= n mod 10 ^ Z.of_nat k < 10 ^ Z.of_nat k /\
  n = n / 10 ^ Z.of_nat k * 10 ^ Z.of_nat k + n mod 10 ^ Z.of_nat k.
Proof.
  rewrite pow10_succ. pose proof (pow10_pos k). intros Hn.
  split; [split; [apply Z.div_pos; lia|apply Z.div_lt_upper_bound; lia]|].
  split; [apply Z.mod_pos_bound; lia|]. rewrite Z.mul_comm. apply Z.div_mod. lia.
Qed.

Lemma fixed_digits_zpad k acc n r :
  0 <= n < 10 ^ Z.of_nat k ->
  fixed_digits k acc (zpad k n ++ r) = Some (acc * 10 ^ Z.of_nat k + n, r).
Proof.
  revert acc n. induction k as [|k IH]; intros acc n Hn.
  - cbn in Hn |- *. f_equal. f_equal. lia.
  - destruct (lead_digit k n Hn) as (Hq & Hr & E).
    rewrite zpad_S. cbn [app fixed_digits]. rewrite digit_of_char by exact Hq. cbn [mbind option_bind].
    rewrite IH by exact Hr. rewrite pow10_succ. do 2 f_equal. lia.
Qed.

(** The byte after a fraction is not a digit. *)
Definition stops (r : list ascii) : Prop :=
  match r with c :: _ => digit_of c = None | [] => True end.

Lemma frac_digits_stop f scale acc r : stops r -> frac_digits f scale acc r = (acc, r).
Proof. destruct f, r as [|c r]; cbn; try done. intros ->. reflexivity. Qed.

Lemma scale_down s k : s * 10 ^ Z.of_nat (S k) / 10 = s * 10 ^ Z.of_nat k.
Proof.
  rewrite pow10_succ. replace (s * (10 * 10 ^ Z.of_nat k)) with (s * 10 ^ Z.of_nat k * 10) by ring.
  apply Z.div_mul. lia.
Qed.

(** [k + 1] digits read with the scale [s * 10^k] add [s * n]. *)
Lemma frac_digits_zpad k f s acc n r :
  (S k <= f)%nat -> 0 <= n < 10 ^ Z.of_nat (S k) -> stops r ->
  frac_digits f (s * 10 ^ Z.of_nat k) acc (zpad (S k) n ++ r) = (acc + s * n, r).
Proof.
  revert f acc n. induction k as [|k IH]; intros f acc n Hf Hn Hr;
    (destruct f as [|f]; [lia|]);
    destruct (lead_digit _ _ Hn) as (Hq & Hm & E);
    rewrite zpad_S; cbn [app frac_digits]; rewrite digit_of_char by exact Hq.
  - rewrite frac_digits_stop by exact Hr. change (10 ^ Z.of_nat 0) with 1 in *. rewrite Z.div_1_r. f_equal. lia.
  - rewrite scale_down, (IH f) by (lia || exact Hm || exact Hr). f_equal.
    set (q := n / _) in *. set (m := n mod _) in *. rewrite E. ring.
Qed.

Lemma fixed_digits_zpad0 k n r :
  0 <= n < 10 ^ Z.of_nat k -> fixed_digits k 0 (zpad k n ++ r) = Some (n, r).
Proof. intros H. by rewrite fixed_digits_zpad. Qed.

Lemma zpad_length k n : List.length (zpad k n) = k.
Proof. revert n. induction k; intros n; cbn; auto. Qed.

(** ** The fraction *)

Lemma nanosecond_digits k s n rest :
  s * 10 ^ Z.of_nat k = 100000000 -> 0 <= n < 10 ^ Z.of_nat (S k) ->
  nanosecond ("."%char :: zpad (S k) n ++ "Z"%char :: rest) = Some (s * n, "Z"%char :: rest).
Proof.
  intros Hs Hn. unfold nanosecond. rewrite Ascii.eqb_refl.
  destruct (lead_digit _ _ Hn) as (Hq & _ & _).
  rewrite zpad_S. cbn [app]. rewrite digit_of_char by exact Hq. cbn [mbind option_bind].
  match goal with |- context [frac_digits _ _ _ ?l] =>
    replace l with (zpad (S k) n ++ "Z"%char :: rest) by (rewrite zpad_S; reflexivity) end.
  rewrite <- Hs, frac_digits_zpad; [f_equal; lia| |exact Hn|reflexivity].
  rewrite length_app, zpad_length. lia.
Qed.

(** The fraction [SecondsFormat::AutoSi] writes reads back as the
    nanoseconds. *)
Lemma nanosecond_frac_auto ns rest :
  0 <= ns < 1000000000 ->
  nanosecond (frac_auto ns ++ "Z"%char :: rest) = Some (ns, "Z"%char :: rest).
Proof.
  intros Hn. unfold frac_auto.
  destruct (ns =? 0) eqn:E0; [apply Z.eqb_eq in E0 as ->; reflexivity|].
  destruct (ns mod 1000000 =? 0) eqn:E1; [|destruct (ns mod 1000 =? 0) eqn:E2];
    rewrite ?Z.eqb_eq in *; cbn [app].
  - rewrite (nanosecond_digits 2 1000000) by (reflexivity || (cbn; Z.div_mod_to_equations; lia)).
    f_equal. f_equal. Z.div_mod_to_equations. lia.
  - rewrite (nanosecond_digits 5 1000) by (reflexivity || (cbn; Z.div_mod_to_equations; lia)).
    f_equal. f_equal. Z.div_mod_to_equations. lia.
  - rewrite (nanosecond_digits 8 1) by (reflexivity || (cbn; lia)). f_equal. f_equal. lia.
Qed.

(** ** The whole timestamp *)

Lemma expect_same c l : expect c (c :: l) = Some l.
Proof. unfold expect. by rewrite Ascii.eqb_refl. Qed.

Lemma timezone_zulu : timezone_offset_zulu ["Z"%char] = Some (0, []).
Proof. reflexivity. Qed.

(** A side condition [0 <= v < 10 ^ k] with a concrete [k]. *)
Ltac pow_bound :=
  match goal with |- context [10 ^ Z.of_nat ?k] =>
    let c := eval vm_compute in (10 ^ Z.of_nat k) in change (10 ^ Z.of_nat k) with c end; lia.

Lemma parse_rfc3339_fields y m d hh mi ss ns :
  0 <= y < 10000 -> valid_date y m d = true ->
  0 <= hh < 24 -> 0 <= mi < 60 -> 0 <= ss < 60 -> 0 <= ns < 1000000000 ->
  parse_datetime (string_of_list_ascii (rfc3339_fields y m d hh mi ss ns)) =
    Some (mkDateTime (days_from_civil y m d * 86400 + hh * 3600 + mi * 60 + ss) ns).
Proof.
  intros Hy Hv Hh Hmi Hs Hns.
  pose proof (days_in_month_range y m) as Hdm. pose proof Hv as Hv'.
  unfold valid_date in Hv'. rewrite !andb_true_iff, !Z.leb_le in Hv'.
  unfold parse_datetime. rewrite list_ascii_of_string_of_list_ascii. unfold rfc3339_fields.
  repeat (first [rewrite fixed_digits_zpad0 by pow_bound | rewrite expect_same];
          cbn [mbind option_bind]).
  rewrite nanosecond_frac_auto by exact Hns. cbn [mbind option_bind].
  rewrite timezone_zulu. cbn [mbind option_bind].
  change ((1 <=? m) && (m <=? 12) && (1 <=? d) && (d <=? days_in_month y m)) with (valid_date y m d).
  rewrite Hv. replace (hh <=? 23) with true by (symmetry; apply Z.leb_le; lia).
  replace (mi <=? 59) with true by (symmetry; apply Z.leb_le; lia).
  replace (ss <=? 59) with true by (symmetry; apply Z.leb_le; lia).
  cbn [andb]. do 2 f_equal. lia.
Qed.

(** The fields [to_rfc3339] writes for an instant with a four-digit
    year: a valid date, the hours, minutes and seconds of the day, and
    together they give back the seconds. *)
Lemma to_rfc3339_spec x :
  four_digit_year x ->
  exists y m d hh mi ss,
    to_rfc3339 x = string_of_list_ascii (rfc3339_fields y m d hh mi ss (dt_nsec x)) /\
    0 <= y < 10000 /\ valid_date y m d = true /\
    0 <= hh < 24 /\ 0 <= mi < 60 /\ 0 <= ss < 60 /\
    dt_secs x = days_from_civil y m d * 86400 + hh * 3600 + mi * 60 + ss.
Proof.
  destruct x as [secs ns]. unfold four_digit_year, to_rfc3339. cbn [dt_secs dt_nsec]. cbv zeta.
  destruct (civil_from_days (secs / 86400)) as [[y m] d] eqn:Ec. intros Hy.
  destruct (civil_from_days_spec _ _ _ _ Ec) as (Hv & Hd).
  pose proof (Z.mod_pos_bound secs 86400 ltac:(lia)).
  exists y, m, d, (secs mod 86400 / 3600), (secs mod 86400 mod 3600 / 60), (secs mod 86400 mod 60).
  split; [reflexivity|]. split; [exact Hy|]. split; [exact Hv|].
  rewrite Hd. Z.div_mod_to_equations. lia.
Qed.

(** Every instant with a four-digit year and nanoseconds below one
    second, written in the RFC 3339 form GitHub sends, is read back by
    [parse_datetime] as exactly the same instant. *)
Lemma parse_to_rfc3339 x :
  four_digit_year x -> 0 <= dt_nsec x < 1000000000 -> parse_datetime (to_rfc3339 x) = Some x.
Proof.
  intros Hr Hn. destruct (to_rfc3339_spec x Hr) as (y & m & d & hh & mi & ss & -> & ? & ? & ? & ? & ? & E).
  rewrite parse_rfc3339_fields by assumption. destruct x as [secs ns]. cbn in E |- *. by rewrite E.
Qed.

End Rfc3339.
