(* ===== verification/Json.v ===== *)
(** * Json: the serde_json reader used by [Response::json]

    [.json()] (lib.rs 117) is [serde_json::from_slice::<RawInstallationToken>]
    on the response body.  The derived [Deserialize] of
    [RawInstallationToken] (lib.rs 85-89, modelled in Token.v) calls the
    reader operations modelled here, on the body as a list of bytes:
    - [parse_whitespace]: skips [' '], [\n], [\t], [\r];
    - [parse_str]: a string after its opening quote, with the escapes
      backslash escapes of the quote, backslash, slash, [b], [f], [n],
      [r], [t] and [uXXXX] (surrogate pairs combined, a lone
      surrogate refused), control characters refused, and the decoded
      bytes checked to be UTF-8 ([utf8_valid], as [str::from_utf8]);
    - [ignore_value]: the value of an unknown field, skipped with the
      JSON grammar, where strings are only scanned ([ignore_str]: escapes
      checked for shape, UTF-8 not checked) and no depth limit applies
      (serde_json's [ignore_value] keeps its own stack of frames).
    [ignore_value] recurses on nested arrays and objects with a fuel; the
    caller gives it the length of the input plus one, which JsonFuel.v
    proves enough. *)

From S2P Require Import Prelude.

Module Json.
Local Open Scope string_scope.

(** [serde_json::error::ErrorCode], and the serde errors raised by the
    derived visitor. *)
Inductive JsonError :=
| EofWhileParsingList | EofWhileParsingObject | EofWhileParsingString
| EofWhileParsingValue | ExpectedColon | ExpectedListCommaOrEnd
| ExpectedObjectCommaOrEnd | ExpectedSomeIdent | ExpectedSomeValue
| InvalidEscape | InvalidNumber | InvalidUnicodeCodePoint
| ControlCharacterWhileParsingString | KeyMustBeAString
| LoneLeadingSurrogateInHexEscape | UnexpectedEndOfHexEscape
| TrailingCharacters | TrailingComma
| InvalidType | InvalidLength (n : nat) | MissingField (f : string)
| DuplicateField (f : string) | Custom (msg : string)
| OutOfFuel.

#[export] Instance JsonError_eq_dec : EqDecision JsonError.
Proof. solve_decision. Defined.

Definition bytes := list ascii.

Definition QUOTE : ascii := ascii_of_nat 34.
Definition BACKSLASH : ascii := ascii_of_nat 92.

Definition is_ws (c : ascii) : bool :=
  Ascii.eqb c " " || Ascii.eqb c (ascii_of_nat 10) || Ascii.eqb c (ascii_of_nat 9)
  || Ascii.eqb c (ascii_of_nat 13).

(** [Deserializer::parse_whitespace]: the input from the first byte
    that is not blank. *)
Fixpoint parse_whitespace (l : bytes) : bytes :=
  match l with
  | c :: l' => if is_ws c then parse_whitespace l' else l
  | [] => []
  end.

Definition is_digit (c : ascii) : bool :=
  let n := nat_of_ascii c in (48 <=? n)%nat && (n <=? 57)%nat.

Definition hex_val (c : ascii) : option Z :=
  let n := nat_of_ascii c in
  if (48 <=? n)%nat && (n <=? 57)%nat then Some (Z.of_nat n - 48)%Z
  else if (65 <=? n)%nat && (n <=? 70)%nat then Some (Z.of_nat n - 55)%Z
  else if (97 <=? n)%nat && (n <=? 102)%nat then Some (Z.of_nat n - 87)%Z
  else None.

(** [decode_hex_escape] on four bytes. *)
Definition hex4 (a b c d : ascii) : option Z :=
  x1 ← hex_val a; x2 ← hex_val b; x3 ← hex_val c; x4 ← hex_val d;
  Some (((x1 * 16 + x2) * 16 + x3) * 16 + x4)%Z.

Definition byte (n : Z) : ascii := ascii_of_nat (Z.to_nat n).

(** The UTF-8 encoding of a code point ([push_wtf8_codepoint]). *)
Definition utf8_encode (cp : Z) : bytes :=
  if (cp <? 128)%Z then [byte cp]
  else if (cp <? 2048)%Z then
    [byte (192 + cp / 64); byte (128 + cp mod 64)]
  else if (cp <? 65536)%Z then
    [byte (224 + cp / 4096); byte (128 + (cp / 64) mod 64); byte (128 + cp mod 64)]
  else
    [byte (240 + cp / 262144); byte (128 + (cp / 4096) mod 64);
     byte (128 + (cp / 64) mod 64); byte (128 + cp mod 64)].

Definition in_range (lo hi : nat) (c : ascii) : bool :=
  (lo <=? nat_of_ascii c)%nat && (nat_of_ascii c <=? hi)%nat.

Definition is_cont (c : ascii) : bool := in_range 128 191 c.

(** [core::str::from_utf8] succeeds: well-formed UTF-8 (no overlong
    forms, no surrogates, nothing above U+10FFFF). *)
Fixpoint utf8_valid (l : bytes) : bool :=
  match l with
  | [] => true
  | b0 :: r =>
      let n := nat_of_ascii b0 in
      if (n <? 128)%nat then utf8_valid r
      else if (194 <=? n)%nat && (n <=? 223)%nat then
        match r with b1 :: r' => is_cont b1 && utf8_valid r' | [] => false end
      else if (224 <=? n)%nat && (n <=? 239)%nat then
        match r with
        | b1 :: b2 :: r' =>
            (if (n =? 224)%nat then in_range 160 191 b1
             else if (n =? 237)%nat then in_range 128 159 b1
             else is_cont b1) && is_cont b2 && utf8_valid r'
        | _ => false
        end
      else if (240 <=? n)%nat && (n <=? 244)%nat then
        match r with
        | b1 :: b2 :: b3 :: r' =>
            (if (n =? 240)%nat then in_range 144 191 b1
             else if (n =? 244)%nat then in_range 128 143 b1
             else is_cont b1) && is_cont b2 && is_cont b3 && utf8_valid r'
        | _ => false
        end
      else false
  end.

Definition simple_escape (e : ascii) : option ascii :=
  if Ascii.eqb e QUOTE then Some QUOTE
  else if Ascii.eqb e BACKSLASH then Some BACKSLASH
  else if Ascii.eqb e "/" then Some "/"%char
  else if Ascii.eqb e "b" then Some (ascii_of_nat 8)
  else if Ascii.eqb e "f" then Some (ascii_of_nat 12)
  else if Ascii.eqb e "n" then Some (ascii_of_nat 10)
  else if Ascii.eqb e "r" then Some (ascii_of_nat 13)
  else if Ascii.eqb e "t" then Some (ascii_of_nat 9)
  else None.

Definition is_lead_surrogate (n : Z) : bool := (55296 <=? n)%Z && (n <=? 56319)%Z.
Definition is_trail_surrogate (n : Z) : bool := (56320 <=? n)%Z && (n <=? 57343)%Z.

(** [SliceRead::parse_str] up to the closing quote: the decoded bytes
    (reversed in [acc]) and the rest of the input. *)
Fixpoint parse_str_bytes (l : bytes) (acc : bytes) : result (bytes * bytes) JsonError :=
  match l with
  | [] => Err EofWhileParsingString
  | c :: l' =>
      if Ascii.eqb c QUOTE then Ok (rev acc, l')
      else if Ascii.eqb c BACKSLASH then
        match l' with
        | [] => Err EofWhileParsingString
        | e :: l2 =>
            if Ascii.eqb e "u" then
              match l2 with
              | h1 :: h2 :: h3 :: h4 :: l3 =>
                  match hex4 h1 h2 h3 h4 with
                  | None => Err InvalidEscape
                  | Some n =>
                      if is_trail_surrogate n then Err LoneLeadingSurrogateInHexEscape
                      else if is_lead_surrogate n then
                        match l3 with
                        | b :: u :: g1 :: g2 :: g3 :: g4 :: l4 =>
                            if Ascii.eqb b BACKSLASH && Ascii.eqb u "u" then
                              match hex4 g1 g2 g3 g4 with
                              | None => Err InvalidEscape
                              | Some n2 =>
                                  if is_trail_surrogate n2 then
                                    let cp := ((n - 55296) * 1024 + (n2 - 56320) + 65536)%Z in
                                    parse_str_bytes l4 (rev (utf8_encode cp) ++ acc)%list
                                  else Err LoneLeadingSurrogateInHexEscape
                              end
                            else Err UnexpectedEndOfHexEscape
                        | _ => Err EofWhileParsingString
                        end
                      else parse_str_bytes l3 (rev (utf8_encode n) ++ acc)%list
                  end
              | _ => Err EofWhileParsingString
              end
            else match simple_escape e with
                 | Some x => parse_str_bytes l2 (x :: acc)
                 | None => Err InvalidEscape
                 end
        end
      else if (nat_of_ascii c <? 32)%nat then Err ControlCharacterWhileParsingString
      else parse_str_bytes l' (c :: acc)
  end.

(** [parse_str] with its UTF-8 check ([as_str]). *)
Definition parse_str (l : bytes) : result (string * bytes) JsonError :=
  match parse_str_bytes l [] with
  | Ok (s, rest) =>
      if utf8_valid s then Ok (string_of_list_ascii s, rest)
      else Err InvalidUnicodeCodePoint
  | Err e => Err e
  end.

(** [SliceRead::ignore_str]: scan a string, checking escapes only for
    their shape. *)
Fixpoint ignore_str (l : bytes) : result bytes JsonError :=
  match l with
  | [] => Err EofWhileParsingString
  | c :: l' =>
      if Ascii.eqb c QUOTE then Ok l'
      else if Ascii.eqb c BACKSLASH then
        match l' with
        | [] => Err EofWhileParsingString
        | e :: l2 =>
            if Ascii.eqb e "u" then
              match l2 with
              | h1 :: h2 :: h3 :: h4 :: l3 =>
                  match hex4 h1 h2 h3 h4 with
                  | Some _ => ignore_str l3
                  | None => Err InvalidEscape
                  end
              | _ => Err EofWhileParsingString
              end
            else match simple_escape e with
                 | Some _ => ignore_str l2
                 | None => Err InvalidEscape
                 end
        end
      else if (nat_of_ascii c <? 32)%nat then Err ControlCharacterWhileParsingString
      else ignore_str l'
  end.

Fixpoint skip_digits (l : bytes) : bytes :=
  match l with
  | c :: l' => if is_digit c then skip_digits l' else l
  | [] => []
  end.

(** [ignore_exponent], after the [e] or [E]. *)
Definition ignore_exponent (l : bytes) : result bytes JsonError :=
  let l := match l with
           | c :: l' => if Ascii.eqb c "+" || Ascii.eqb c "-" then l' else l
           | [] => []
           end in
  match l with
  | c :: l' => if is_digit c then Ok (skip_digits l') else Err InvalidNumber
  | [] => Err InvalidNumber
  end.

Definition is_exp_mark (c : ascii) : bool := Ascii.eqb c "e" || Ascii.eqb c "E".

(** [ignore_decimal], after the dot. *)
Definition ignore_decimal (l : bytes) : result bytes JsonError :=
  match l with
  | c :: _ =>
      if is_digit c then
        match skip_digits l with
        | e :: l' => if is_exp_mark e then ignore_exponent l' else Ok (e :: l')
        | [] => Ok []
        end
      else Err InvalidNumber
  | [] => Err InvalidNumber
  end.

(** [ignore_integer]: one [0], or a non-zero digit and digits, then an
    optional fraction and exponent. *)
Definition ignore_integer (l : bytes) : result bytes JsonError :=
  let after_int (r : bytes) :=
    match r with
    | c :: r' => if Ascii.eqb c "." then ignore_decimal r'
                 else if is_exp_mark c then ignore_exponent r'
                 else Ok r
    | [] => Ok []
    end in
  match l with
  | c :: l' =>
      if Ascii.eqb c "0" then
        match l' with
        | d :: _ => if is_digit d then Err InvalidNumber else after_int l'
        | [] => Ok []
        end
      else if is_digit c then after_int (skip_digits l')
      else Err InvalidNumber
  | [] => Err InvalidNumber
  end.

(** [parse_ident]: the rest of [null], [true] or [false]. *)
Fixpoint parse_ident (ident : list ascii) (l : bytes) : result bytes JsonError :=
  match ident, l with
  | [], _ => Ok l
  | i :: ident', c :: l' => if Ascii.eqb i c then parse_ident ident' l' else Err ExpectedSomeIdent
  | _ :: _, [] => Err EofWhileParsingValue
  end.

(** [Deserializer::ignore_value]: skip one JSON value. *)
Fixpoint ignore_value (fuel : nat) (l : bytes) : result bytes JsonError :=
  match fuel with
  | O => Err OutOfFuel
  | S f =>
      match parse_whitespace l with
      | [] => Err EofWhileParsingValue
      | c :: l' =>
          if Ascii.eqb c "n" then parse_ident ["u"; "l"; "l"]%char l'
          else if Ascii.eqb c "t" then parse_ident ["r"; "u"; "e"]%char l'
          else if Ascii.eqb c "f" then parse_ident ["a"; "l"; "s"; "e"]%char l'
          else if Ascii.eqb c "-" then ignore_integer l'
          else if is_digit c then ignore_integer (c :: l')
          else if Ascii.eqb c QUOTE then ignore_str l'
          else if Ascii.eqb c "[" then
            match parse_whitespace l' with
            | c' :: l'' => if Ascii.eqb c' "]" then Ok l'' else ignore_seq_items f l'
            | [] => Err EofWhileParsingList
            end
          else if Ascii.eqb c "{" then
            match parse_whitespace l' with
            | c' :: l'' => if Ascii.eqb c' "}" then Ok l'' else ignore_map_entries f l'
            | [] => Err EofWhileParsingObject
            end
          else Err ExpectedSomeValue
      end
  end
(** The elements of a non-empty array, up to and including [\]]. *)
with ignore_seq_items (fuel : nat) (l : bytes) : result bytes JsonError :=
  match fuel with
  | O => Err OutOfFuel
  | S f =>
      match ignore_value f l with
      | Err e => Err e
      | Ok r =>
          match parse_whitespace r with
          | c :: r' =>
              if Ascii.eqb c "," then ignore_seq_items f r'
              else if Ascii.eqb c "]" then Ok r'
              else Err ExpectedListCommaOrEnd
          | [] => Err EofWhileParsingList
          end
      end
  end
(** The entries of a non-empty object, up to and including [}]. *)
with ignore_map_entries (fuel : nat) (l : bytes) : result bytes JsonError :=
  match fuel with
  | O => Err OutOfFuel
  | S f =>
      match parse_whitespace l with
      | c :: l1 =>
          if Ascii.eqb c QUOTE then
            match ignore_str l1 with
            | Err e => Err e
            | Ok l2 =>
                match parse_whitespace l2 with
                | c2 :: l3 =>
                    if Ascii.eqb c2 ":" then
                      match ignore_value f l3 with
                      | Err e => Err e
                      | Ok r =>
                          match parse_whitespace r with
                          | c3 :: r' =>
                              if Ascii.eqb c3 "," then ignore_map_entries f r'
                              else if Ascii.eqb c3 "}" then Ok r'
                              else Err ExpectedObjectCommaOrEnd
                          | [] => Err EofWhileParsingObject
                          end
                      end
                    else Err ExpectedColon
                | [] => Err EofWhileParsingObject
                end
            end
          else Err KeyMustBeAString
      | [] => Err EofWhileParsingObject
      end
  end.

(** [Deserializer::end]: only whitespace may follow the value. *)
Definition end_of_input (l : bytes) : result unit JsonError :=
  match parse_whitespace l with
  | [] => Ok tt
  | _ :: _ => Err TrailingCharacters
  end.

End Json.
