(* ===== verification/JsonWrite.v ===== *)
(** * JsonWrite: serde_json's string writer, against the reader

    The bodies GitHub sends and the JWT header are written by a JSON
    serializer; serde_json's [format_escaped_str] writes a string as a
    quote, each byte through the [ESCAPE] table, and a quote:
    - the quote and the backslash are preceded by a backslash;
    - the control bytes [\b], [\t], [\n], [\f], [\r] get their short
      escape, the other bytes below 32 the form [\u00XX] with
      lower-case hex digits;
    - every other byte, [/] and 127 included, is written as itself.
    [escape_byte_read] shows the reader of Json.v reads every escaped
    byte back as that byte; [parse_str_escape] is the round trip of a
    whole string, whose result depends only on whether the bytes are
    UTF-8, and [ignore_str_escape] the same for the scanner that skips a
    string. *)

From S2P Require Import Prelude Json.

Module JsonWrite.
Import Json.
Local Open Scope string_scope.

(** [HEX_DIGITS = b"0123456789abcdef"] *)
Definition hex_digit (n : nat) : ascii :=
  ascii_of_nat (if (n <? 10)%nat then 48 + n else 87 + n).

(** One byte through serde_json's [ESCAPE] table and
    [CharEscape::from_escape_table]. *)
Definition escape_byte (c : ascii) : bytes :=
  let n := nat_of_ascii c in
  if Ascii.eqb c QUOTE then [BACKSLASH; QUOTE]
  else if Ascii.eqb c BACKSLASH then [BACKSLASH; BACKSLASH]
  else if (n <? 32)%nat then
    match n with
    | 8 => [BACKSLASH; "b"%char]
    | 9 => [BACKSLASH; "t"%char]
    | 10 => [BACKSLASH; "n"%char]
    | 12 => [BACKSLASH; "f"%char]
    | 13 => [BACKSLASH; "r"%char]
    | _ => [BACKSLASH; "u"%char; "0"%char; "0"%char; hex_digit (n / 16); hex_digit (n mod 16)]
    end
  else [c].

(** [format_escaped_str_contents] *)
Definition escape_bytes (l : bytes) : bytes := flat_map escape_byte l.

(** [format_escaped_str]: the string literal. *)
Definition json_string (s : string) : string :=
  string_of_list_ascii (QUOTE :: escape_bytes (list_ascii_of_string s) ++ [QUOTE]).

(** A byte a JSON string holds as itself: printable ASCII other than the
    quote and the backslash. *)
Definition plain_char (c : ascii) : bool :=
  (32 <=? nat_of_ascii c)%nat && (nat_of_ascii c <? 128)%nat &&
  negb (Ascii.eqb c QUOTE) && negb (Ascii.eqb c BACKSLASH).

Definition plain (s : string) : bool := str_forallb plain_char s.

(** ** Each byte *)

Lemma escape_byte_read c l acc :
  parse_str_bytes (escape_byte c ++ l)%list acc = parse_str_bytes l (c :: acc).
Proof. destruct c as [[] [] [] [] [] [] [] []]; reflexivity. Qed.

Lemma escape_byte_ignore c l : ignore_str (escape_byte c ++ l)%list = ignore_str l.
Proof. destruct c as [[] [] [] [] [] [] [] []]; reflexivity. Qed.

Lemma escape_byte_plain c : plain_char c = true -> escape_byte c = [c].
Proof. destruct c as [[] [] [] [] [] [] [] []]; (discriminate || reflexivity). Qed.

Lemma plain_char_spec c :
  plain_char c = true ->
  Ascii.eqb c QUOTE = false /\ Ascii.eqb c BACKSLASH = false /\
  (nat_of_ascii c <? 32)%nat = false /\ (nat_of_ascii c <? 128)%nat = true.
Proof.
  unfold plain_char. intros H. repeat (apply andb_prop in H as [H ?]).
  apply negb_true_iff in H0, H1. apply Nat.leb_le in H.
  repeat split; [done|done| |done]. apply Nat.ltb_ge. lia.
Qed.

(** ** Whole strings *)

Lemma escape_bytes_read s rest acc :
  parse_str_bytes (escape_bytes s ++ QUOTE :: rest)%list acc = Ok (rev acc ++ s, rest)%list.
Proof.
  revert acc. induction s as [|c s IH]; intros acc.
  - cbn [escape_bytes flat_map app parse_str_bytes]. rewrite Ascii.eqb_refl. by rewrite app_nil_r.
  - unfold escape_bytes. cbn [flat_map]. rewrite <- app_assoc, escape_byte_read.
    fold (escape_bytes s). rewrite IH. cbn [rev]. by rewrite <- app_assoc.
Qed.

Lemma ignore_str_escape s rest : ignore_str (escape_bytes s ++ QUOTE :: rest)%list = Ok rest.
Proof.
  induction s as [|c s IH].
  - cbn [escape_bytes flat_map app ignore_str]. by rewrite Ascii.eqb_refl.
  - unfold escape_bytes. cbn [flat_map]. rewrite <- app_assoc, escape_byte_ignore. exact IH.
Qed.

(** The reader returns the written string exactly when its bytes are
    UTF-8, and refuses it otherwise. *)
Lemma parse_str_escape s rest :
  parse_str (escape_bytes s ++ QUOTE :: rest)%list =
    if utf8_valid s then Ok (string_of_list_ascii s, rest) else Err InvalidUnicodeCodePoint.
Proof. unfold parse_str. by rewrite escape_bytes_read. Qed.

Lemma parse_str_valid s rest :
  utf8_valid (list_ascii_of_string s) = true ->
  parse_str (escape_bytes (list_ascii_of_string s) ++ QUOTE :: rest)%list = Ok (s, rest).
Proof. intros Hs. by rewrite parse_str_escape, Hs, string_of_list_ascii_of_string. Qed.

Lemma escape_bytes_plain s : forallb plain_char s = true -> escape_bytes s = s.
Proof.
  induction s as [|c s IH]; [done|]. cbn [forallb]. intros [Hc Hs]%andb_prop.
  unfold escape_bytes. cbn [flat_map]. rewrite escape_byte_plain by exact Hc.
  fold (escape_bytes s). by rewrite IH.
Qed.

Lemma utf8_valid_plain s : forallb plain_char s = true -> utf8_valid s = true.
Proof.
  induction s as [|c s IH]; [done|]. cbn [forallb]. intros [Hc Hs]%andb_prop.
  destruct (plain_char_spec c Hc) as (_ & _ & _ & Hlt).
  cbn [utf8_valid]. rewrite Hlt. by apply IH.
Qed.

Lemma parse_str_plain s rest :
  plain s = true ->
  parse_str (list_ascii_of_string s ++ QUOTE :: rest)%list = Ok (s, rest).
Proof.
  intros Hs. rewrite <- (escape_bytes_plain _ Hs), parse_str_escape.
  rewrite utf8_valid_plain by exact Hs. by rewrite string_of_list_ascii_of_string.
Qed.

Lemma ignore_str_plain s rest :
  forallb plain_char s = true -> ignore_str (s ++ QUOTE :: rest)%list = Ok rest.
Proof. intros Hs. rewrite <- (escape_bytes_plain _ Hs). apply ignore_str_escape. Qed.

(** A text that needs no escaping is written between quotes as it is. *)
Lemma json_string_plain s : plain s = true -> json_string s = json_quote s.
Proof.
  intros Hs. unfold json_string, json_quote. rewrite escape_bytes_plain by exact Hs.
  apply list_ascii_of_string_inj. rewrite list_ascii_of_string_of_list_ascii.
  rewrite !list_ascii_of_string_app. reflexivity.
Qed.

Lemma json_string_bytes s :
  list_ascii_of_string (json_string s) = QUOTE :: escape_bytes (list_ascii_of_string s) ++ [QUOTE].
Proof. unfold json_string. apply list_ascii_of_string_of_list_ascii. Qed.

End JsonWrite.
