(* ===== verification/JsonFuel.v ===== *)
(** * JsonFuel: the fuel of [ignore_value] is enough

    serde_json's [ignore_value] loops over an explicit stack and always
    ends; the model recurses on a fuel, and the derived visitor gives it
    the length of the remaining input plus one (Token.v).  This file
    shows that this fuel is never what decides the outcome of a value
    the reader accepts: every reader operation that succeeds consumes
    input ([*_consumes]), a nested value consumes both its brackets, so
    a value accepted with any fuel is accepted, with the same rest,
    with the fuel the visitor gives ([ignore_value_fuel_adequate]). *)

From S2P Require Import Prelude Json.

Module JsonFuel.
Import Json.
Local Abbreviation length := (@List.length _).

(** Case split on the scrutinee of the first [match] in a hypothesis. *)
Ltac dmatch H :=
  match type of H with
  | context [match ?x with _ => _ end] => destruct x eqn:?
  end.

(** Replay in the goal the branch choices recorded as equations. *)
Ltac replay :=
  repeat match goal with
  | E : ?x = _ |- context [?x] => progress rewrite E
  end.

Lemma parse_whitespace_len l : length (parse_whitespace l) <= length l.
Proof.
  induction l as [|c l IH]; cbn [parse_whitespace]; [done|].
  destruct (is_ws c); cbn [length]; lia.
Qed.

Lemma parse_whitespace_cons l c l' :
  parse_whitespace l = c :: l' -> length l' < length l.
Proof.
  intros E. pose proof (parse_whitespace_len l) as H. rewrite E in H. cbn in H. lia.
Qed.

Lemma skip_digits_len l : length (skip_digits l) <= length l.
Proof.
  induction l as [|c l IH]; cbn [skip_digits]; [done|].
  destruct (is_digit c); cbn [length]; lia.
Qed.

Lemma ignore_str_consumes l r : ignore_str l = Ok r -> length r < length l.
Proof.
  remember (length l) as n eqn:En. revert l r En.
  induction n as [n IH] using lt_wf_ind. intros l r -> H.
  destruct l as [|c l']; cbn [ignore_str] in H; [discriminate|].
  repeat (dmatch H; try discriminate); simplify_eq;
    try (cbn [length]; lia);
    match goal with
    | H : ignore_str ?x = Ok r |- _ =>
        assert (length r < length x) by (eapply IH; [|reflexivity|exact H]; cbn [length] in *; lia)
    end; cbn [length] in *; lia.
Qed.

Lemma parse_ident_consumes ident l r : parse_ident ident l = Ok r -> length r <= length l.
Proof.
  revert l. induction ident as [|i ident IH]; intros l H; cbn [parse_ident] in H.
  - by simplify_eq.
  - destruct l as [|c l']; [discriminate|].
    destruct (Ascii.eqb i c); [|discriminate]. apply IH in H. cbn [length]. lia.
Qed.

Lemma ignore_exponent_consumes l r : ignore_exponent l = Ok r -> length r < length l.
Proof.
  unfold ignore_exponent. cbv zeta. intros H.
  destruct l as [|c l']; [discriminate|].
  destruct (Ascii.eqb c "+" || Ascii.eqb c "-").
  - destruct l' as [|d l'']; [discriminate|].
    destruct (is_digit d); [|discriminate]. injection H as <-.
    pose proof (skip_digits_len l''). cbn [length]. lia.
  - destruct (is_digit c); [|discriminate]. injection H as <-.
    pose proof (skip_digits_len l'). cbn [length]. lia.
Qed.

Lemma ignore_decimal_consumes l r : ignore_decimal l = Ok r -> length r < length l.
Proof.
  unfold ignore_decimal. intros H.
  destruct l as [|c t]; [discriminate|]. destruct (is_digit c) eqn:Hd; [|discriminate].
  cbn [skip_digits] in H. rewrite Hd in H. pose proof (skip_digits_len t) as Hs.
  destruct (skip_digits t) as [|e l'].
  - injection H as <-. cbn [length]. lia.
  - destruct (is_exp_mark e).
    + apply ignore_exponent_consumes in H. cbn [length] in *. lia.
    + injection H as <-. cbn [length] in *. lia.
Qed.

(** The tail of [ignore_integer] after the integer digits: the
    optional fraction and exponent, which never lengthen the input. *)
Ltac after_int_if H :=
  destruct (Ascii.eqb _ "."%char);
  [apply ignore_decimal_consumes in H
  |destruct (is_exp_mark _); [apply ignore_exponent_consumes in H|injection H as <-]].

Ltac after_int_consumes H :=
  cbv beta iota in H;
  lazymatch type of H with
  | (match ?r with [] => _ | _ :: _ => _ end) = _ =>
      destruct r; cbv beta iota in H; [injection H as <-|after_int_if H]
  | _ => after_int_if H
  end.

Lemma ignore_integer_consumes l r : ignore_integer l = Ok r -> length r < length l.
Proof.
  unfold ignore_integer. cbv zeta. intros H.
  destruct l as [|c l']; [discriminate|]. cbv beta iota in H.
  destruct (Ascii.eqb c "0").
  - destruct l' as [|d l'']; cbv beta iota in H; [injection H as <-; cbn [length]; lia|].
    destruct (is_digit d); [discriminate|].
    after_int_consumes H; cbn [length] in *; lia.
  - destruct (is_digit c); [|discriminate].
    pose proof (skip_digits_len l') as Hs. revert H Hs.
    generalize (skip_digits l'). intros s H Hs.
    after_int_consumes H; cbn [length] in *; lia.
Qed.

(** ** Fuel adequacy *)

(** A run of a fuelled reader on [l] that returned [r] consumed input,
    and any fuel of at least the number of bytes consumed gives the
    same result. *)
Definition adequate (run : nat -> bytes -> result bytes JsonError) (l r : bytes) : Prop :=
  length r < length l /\ forall g, length l - length r <= g -> run g l = Ok r.

(** Record the length facts of the blanks skipped so far. *)
Ltac ws_lengths :=
  repeat match goal with
  | E : parse_whitespace ?x = _ :: ?y |- _ =>
      lazymatch goal with
      | _ : length y < length x |- _ => fail
      | _ => pose proof (parse_whitespace_cons _ _ _ E)
      end
  end.

(** One fuelled call, after the split on the branches it took: turn the
    calls it made into their length facts, and replay the same branches
    with any large enough fuel. *)
Ltac fuel_finish IHv IHs IHm H :=
  try match type of H with Ok _ = Ok _ => injection H as <- end;
  repeat match goal with
  | E : ignore_value _ _ = Ok _ |- _ => apply IHv in E; destruct E as [?Hlen ?Hrun]
  | E : ignore_seq_items _ _ = Ok _ |- _ => apply IHs in E; destruct E as [?Hlen ?Hrun]
  | E : ignore_map_entries _ _ = Ok _ |- _ => apply IHm in E; destruct E as [?Hlen ?Hrun]
  end;
  ws_lengths;
  repeat match goal with
  | E : parse_ident _ ?x = Ok ?y |- _ =>
      lazymatch goal with _ : length y <= length x |- _ => fail | _ => pose proof (parse_ident_consumes _ _ _ E) end
  | E : ignore_integer ?x = Ok ?y |- _ =>
      lazymatch goal with _ : length y < length x |- _ => fail | _ => pose proof (ignore_integer_consumes _ _ E) end
  | E : ignore_str ?x = Ok ?y |- _ =>
      lazymatch goal with _ : length y < length x |- _ => fail | _ => pose proof (ignore_str_consumes _ _ E) end
  end;
  split; [cbn [length] in *; lia|];
  intros g Hg; destruct g as [|g]; [cbn [length] in *; lia|];
  cbn [ignore_value ignore_seq_items ignore_map_entries]; replay;
  repeat (match goal with
          | Hrun : forall g, _ -> ?run g ?x = Ok ?y |- context [?run ?g' ?x] =>
              rewrite (Hrun g') by (cbn [length] in *; lia)
          end; replay);
  try reflexivity.

(** Split on the branches a fuelled call took. *)
Ltac fuel_case IHv IHs IHm H :=
  repeat (dmatch H; try discriminate); fuel_finish IHv IHs IHm H.

Lemma ignore_fuel_adequate (f : nat) :
  (forall l r, ignore_value f l = Ok r -> adequate ignore_value l r) /\
  (forall l r, ignore_seq_items f l = Ok r -> adequate ignore_seq_items l r) /\
  (forall l r, ignore_map_entries f l = Ok r -> adequate ignore_map_entries l r).
Proof.
  induction f as [|f (IHv & IHs & IHm)].
  { split; [|split]; intros; discriminate. }
  split; [|split]; intros l r H; cbn [ignore_value ignore_seq_items ignore_map_entries] in H;
    unfold adequate; fuel_case IHv IHs IHm H.
Qed.

End JsonFuel.
