(* ===== verification/Token.v ===== *)
(** * Token: [RawInstallationToken] and its derived [Deserialize]

    [struct RawInstallationToken { token: String, expires_at:
    DateTime<Utc> }] (lib.rs 83-89) derives [Deserialize].  The derived
    code, driven by serde_json's [deserialize_struct], accepts
    - a JSON object ([visit_map]): keys in any order, unknown keys
      skipped with [ignore_value], a repeated known key refused
      ([duplicate_field]), a missing one refused ([missing_field]);
    - a JSON array of exactly two elements ([visit_seq]), the token
      then the expiry: serde's derive accepts the sequence form of every
      struct;
    and [from_slice] then requires the rest of the body to be blank.
    The field values are read with [deserialize_str]: the token as a
    [String], the expiry as a string parsed by Chrono.v.

    [visit_map] runs once per key with a fuel; [from_slice] gives it the
    length of the body plus one, and each round consumes at least the
    key's quotes (Decode.v proves this fuel enough). *)

From S2P Require Import Prelude Chrono Json.

Module Token.
Import Json Chrono.
Local Open Scope string_scope.

(** [struct RawInstallationToken] *)
Record RawInstallationToken := mkRawInstallationToken {
  token : string;
  expires_at : DateTime
}.

#[export] Instance RawInstallationToken_eq_dec : EqDecision RawInstallationToken.
Proof. solve_decision. Defined.

(** The derived field identifier: [__field0], [__field1], [__ignore]. *)
Inductive Field := Field_token | Field_expires_at | Field_ignore.

Definition field_of_str (s : string) : Field :=
  if String.eqb s "token" then Field_token
  else if String.eqb s "expires_at" then Field_expires_at
  else Field_ignore.

(** [Deserializer::deserialize_str] / [deserialize_string]. *)
Definition deserialize_string (l : bytes) : result (string * bytes) JsonError :=
  match parse_whitespace l with
  | c :: l' => if Ascii.eqb c QUOTE then parse_str l' else Err InvalidType
  | [] => Err EofWhileParsingValue
  end.

(** [DateTime<Utc>]'s [Deserialize]: a string, parsed. *)
Definition deserialize_datetime (l : bytes) : result (DateTime * bytes) JsonError :=
  match deserialize_string l with
  | Ok (s, rest) =>
      match parse_datetime s with
      | Some dt => Ok (dt, rest)
      | None => Err (Custom "input contains invalid characters")
      end
  | Err e => Err e
  end.

(** [parse_object_colon] *)
Definition parse_object_colon (l : bytes) : result bytes JsonError :=
  match parse_whitespace l with
  | c :: l' => if Ascii.eqb c ":" then Ok l' else Err ExpectedColon
  | [] => Err EofWhileParsingObject
  end.

(** [MapAccess::next_key_seed]: [None] at the closing brace (left for
    [end_map]), otherwise the key, after a comma unless [first]. *)
Definition next_key (first : bool) (l : bytes) : result (option string * bytes) JsonError :=
  match parse_whitespace l with
  | [] => Err EofWhileParsingObject
  | c :: l' =>
      if Ascii.eqb c "}" then Ok (None, parse_whitespace l)
      else
        let peek := if Ascii.eqb c "," && negb first then Some (parse_whitespace l')
                    else if first then Some (c :: l') else None in
        match peek with
        | None => Err ExpectedObjectCommaOrEnd
        | Some (c2 :: p') =>
            if Ascii.eqb c2 QUOTE then
              match parse_str p' with
              | Ok (k, rest) => Ok (Some k, rest)
              | Err e => Err e
              end
            else if Ascii.eqb c2 "}" then Err TrailingComma
            else Err KeyMustBeAString
        | Some [] => Err EofWhileParsingValue
        end
  end.

(** The derived [visit_map]: one round per key. *)
Fixpoint visit_map (fuel : nat) (first : bool) (tok : option string)
    (exp : option DateTime) (l : bytes) : result (RawInstallationToken * bytes) JsonError :=
  match fuel with
  | O => Err OutOfFuel
  | S f =>
      match next_key first l with
      | Err e => Err e
      | Ok (None, l') =>
          match tok, exp with
          | None, _ => Err (MissingField "token")
          | Some _, None => Err (MissingField "expires_at")
          | Some t, Some x => Ok (mkRawInstallationToken t x, l')
          end
      | Ok (Some k, l') =>
          match field_of_str k with
          | Field_token =>
              match tok with
              | Some _ => Err (DuplicateField "token")
              | None =>
                  match res_bind (parse_object_colon l') deserialize_string with
                  | Ok (v, l3) => visit_map f false (Some v) exp l3
                  | Err e => Err e
                  end
              end
          | Field_expires_at =>
              match exp with
              | Some _ => Err (DuplicateField "expires_at")
              | None =>
                  match res_bind (parse_object_colon l') deserialize_datetime with
                  | Ok (v, l3) => visit_map f false tok (Some v) l3
                  | Err e => Err e
                  end
              end
          | Field_ignore =>
              match res_bind (parse_object_colon l')
                      (fun l2 => ignore_value (S (List.length l2)) l2) with
              | Ok l3 => visit_map f false tok exp l3
              | Err e => Err e
              end
          end
      end
  end.

(** [Deserializer::end_map] *)
Definition end_map (l : bytes) : result bytes JsonError :=
  match parse_whitespace l with
  | [] => Err EofWhileParsingObject
  | c :: l' =>
      if Ascii.eqb c "}" then Ok l'
      else if Ascii.eqb c "," then Err TrailingComma
      else Err TrailingCharacters
  end.

(** [SeqAccess::next_element_seed] up to the element: [None] at the
    closing bracket, otherwise the input at the element. *)
Definition next_element (first : bool) (l : bytes) : result (option bytes) JsonError :=
  match parse_whitespace l with
  | [] => Err EofWhileParsingList
  | c :: l' =>
      if Ascii.eqb c "]" then Ok None
      else if Ascii.eqb c "," && negb first then
        match parse_whitespace l' with
        | c2 :: _ => if Ascii.eqb c2 "]" then Err TrailingComma else Ok (Some (parse_whitespace l'))
        | [] => Err EofWhileParsingValue
        end
      else if first then Ok (Some (c :: l'))
      else Err ExpectedListCommaOrEnd
  end.

(** The derived [visit_seq]: exactly the token, then the expiry. *)
Definition visit_seq (l : bytes) : result (RawInstallationToken * bytes) JsonError :=
  match next_element true l with
  | Err e => Err e
  | Ok None => Err (InvalidLength 0)
  | Ok (Some l1) =>
      match deserialize_string l1 with
      | Err e => Err e
      | Ok (t, l2) =>
          match next_element false l2 with
          | Err e => Err e
          | Ok None => Err (InvalidLength 1)
          | Ok (Some l3) =>
              match deserialize_datetime l3 with
              | Err e => Err e
              | Ok (x, l4) => Ok (mkRawInstallationToken t x, l4)
              end
          end
      end
  end.

(** [Deserializer::end_seq] *)
Definition end_seq (l : bytes) : result bytes JsonError :=
  match parse_whitespace l with
  | [] => Err EofWhileParsingList
  | c :: l' =>
      if Ascii.eqb c "]" then Ok l'
      else if Ascii.eqb c "," then
        match parse_whitespace l' with
        | c2 :: _ => if Ascii.eqb c2 "]" then Err TrailingComma else Err TrailingCharacters
        | [] => Err TrailingCharacters
        end
      else Err TrailingCharacters
  end.

(** [Deserializer::deserialize_struct] for [RawInstallationToken]. *)
Definition deserialize_raw (l : bytes) : result (RawInstallationToken * bytes) JsonError :=
  match parse_whitespace l with
  | [] => Err EofWhileParsingValue
  | c :: l' =>
      if Ascii.eqb c "[" then
        match visit_seq l' with
        | Ok (v, r) => match end_seq r with Ok r' => Ok (v, r') | Err e => Err e end
        | Err e => Err e
        end
      else if Ascii.eqb c "{" then
        match visit_map (S (List.length l')) true None None l' with
        | Ok (v, r) => match end_map r with Ok r' => Ok (v, r') | Err e => Err e end
        | Err e => Err e
        end
      else Err InvalidType
  end.

(** [serde_json::from_slice::<RawInstallationToken>(body)] *)
Definition from_slice (body : string) : result RawInstallationToken JsonError :=
  match deserialize_raw (list_ascii_of_string body) with
  | Ok (v, r) => match end_of_input r with Ok _ => Ok v | Err e => Err e end
  | Err e => Err e
  end.

(** ** Examples: the unit test and the shapes the derive accepts *)

Definition NL : string := String (ascii_of_nat 10) EmptyString.

(** The body of [test_raw_installation_token_parse] (lib.rs 222-225). *)
Definition test_body : string :=
  "{" ++ NL ++ "            " ++ json_quote "token" ++ ": " ++ json_quote "v1.1f699f1069f60xxx" ++
  "," ++ NL ++ "            " ++ json_quote "expires_at" ++ ": " ++
  json_quote "2016-07-11T22:14:10Z" ++ NL ++ "            }".

(** The unit test of lib.rs 220-234 on the model: the token and
    [Utc.ymd(2016, 7, 11).and_hms(22, 14, 10)]. *)
Example from_slice_test_vector :
  from_slice test_body =
    Ok (mkRawInstallationToken "v1.1f699f1069f60xxx" (mkDateTime 1468275250 0)).
Proof. vm_compute. reflexivity. Qed.

End Token.
