(* ===== verification/Decode.v ===== *)
(** * Decode: what the derived visitor of [RawInstallationToken] computes

    Theorems about Token.v's model of [serde_json::from_slice] on the
    response body (lib.rs 85-89, 117):
    - termination: every round of [visit_map] consumes input, so the fuel
      [deserialize_raw] gives it (the length of the body plus one) is
      enough for every object the visitor accepts with any fuel
      ([visit_map_fuel_adequate]);
    - equivalence: on a flat object of string fields written by
      serde_json (escaped, any UTF-8), the streaming visitor computes
      what a lookup of the two fields computes ([from_slice_flat_object]);
      Body.v builds the round trip of the body GitHub sends on it;
    - for any flat object, known keys repeated or not, the visitor is
      the entry-level visit [visit_entries] ([from_slice_visit_entries]):
      an entry with an unknown key can be dropped anywhere without
      changing the result ([from_slice_unknown_key]), and a second
      [token] entry is refused with [duplicate_field] once nothing
      failed before it ([from_slice_duplicate_token]);
    - the derived sequence form ([from_slice_array_form]). *)

From S2P Require Import Prelude Chrono Json JsonFuel JsonWrite Token.

Module Decode.
Import Json JsonFuel JsonWrite Chrono Token.
Local Abbreviation length := (@List.length _).

(** ** Consumption of the reader operations the visitor calls *)

Lemma parse_str_bytes_consumes l acc s r :
  parse_str_bytes l acc = Ok (s, r) -> length r < length l.
Proof.
  remember (length l) as n eqn:En. revert l acc s r En.
  induction n as [n IH] using lt_wf_ind. intros l acc s r -> H.
  destruct l as [|c l']; cbn [parse_str_bytes] in H; [discriminate|].
  repeat (dmatch H; try discriminate); simplify_eq; try (cbn [length]; lia);
    match goal with
    | H : parse_str_bytes ?x _ = Ok _ |- _ =>
        assert (length r < length x) by (eapply IH; [|reflexivity|exact H]; cbn [length] in *; lia)
    end; cbn [length] in *; lia.
Qed.

Lemma parse_str_consumes l s r : parse_str l = Ok (s, r) -> length r < length l.
Proof.
  unfold parse_str. intros H. repeat (dmatch H; try discriminate). simplify_eq.
  eapply parse_str_bytes_consumes. eassumption.
Qed.

Lemma deserialize_string_consumes l s r : deserialize_string l = Ok (s, r) -> length r < length l.
Proof.
  unfold deserialize_string. intros H. repeat (dmatch H; try discriminate).
  ws_lengths. apply parse_str_consumes in H. cbn [length] in *. lia.
Qed.

Lemma deserialize_datetime_consumes l x r : deserialize_datetime l = Ok (x, r) -> length r < length l.
Proof.
  unfold deserialize_datetime. intros H. repeat (dmatch H; try discriminate). simplify_eq.
  eapply deserialize_string_consumes. eassumption.
Qed.

Lemma next_key_consumes first l k r : next_key first l = Ok (Some k, r) -> length r < length l.
Proof.
  unfold next_key. intros H. repeat (dmatch H; try discriminate); simplify_eq;
    repeat match goal with E : (if ?b then _ else _) = Some _ |- _ => destruct b; simplify_eq end;
    ws_lengths; match goal with E : parse_str _ = Ok _ |- _ => apply parse_str_consumes in E end;
    cbn [length] in *; lia.
Qed.

Lemma colon_then_consumes {A} (k : bytes -> result A JsonError) (len : A -> nat) l x :
  (forall y a, k y = Ok a -> len a < length y) ->
  res_bind (parse_object_colon l) k = Ok x -> len x < length l.
Proof.
  intros Hk. unfold parse_object_colon, res_bind. intros H.
  destruct (parse_whitespace l) as [|c l'] eqn:E; [discriminate|].
  destruct (Ascii.eqb c ":"); [|discriminate]. ws_lengths.
  apply Hk in H. cbn [length] in *. lia.
Qed.

Lemma ignore_value_consumes f l r : ignore_value f l = Ok r -> length r < length l.
Proof. intros H. exact (proj1 (proj1 (ignore_fuel_adequate f) l r H)). Qed.

Lemma colon_string_consumes l v r :
  res_bind (parse_object_colon l) deserialize_string = Ok (v, r) -> length r < length l.
Proof.
  apply (colon_then_consumes _ (fun p => length (snd p))).
  intros y [s r'] Ha. exact (deserialize_string_consumes _ _ _ Ha).
Qed.

Lemma colon_datetime_consumes l v r :
  res_bind (parse_object_colon l) deserialize_datetime = Ok (v, r) -> length r < length l.
Proof.
  apply (colon_then_consumes _ (fun p => length (snd p))).
  intros y [x r'] Ha. exact (deserialize_datetime_consumes _ _ _ Ha).
Qed.

Lemma colon_ignore_consumes l r :
  res_bind (parse_object_colon l) (fun l2 => ignore_value (S (length l2)) l2) = Ok r ->
  length r < length l.
Proof. apply (colon_then_consumes _ length). intros y a. apply ignore_value_consumes. Qed.

(** Every field the visitor reads ends before the input does. *)
Ltac field_lengths :=
  repeat match goal with
  | E : res_bind (parse_object_colon ?l) _ = Ok (_, ?r) |- _ =>
      lazymatch goal with _ : length r < length l |- _ => fail | _ =>
        first [pose proof (colon_string_consumes _ _ _ E)
              |pose proof (colon_datetime_consumes _ _ _ E)] end
  | E : res_bind (parse_object_colon ?l) _ = Ok ?r |- _ =>
      lazymatch goal with _ : length r < length l |- _ => fail | _ =>
        pose proof (colon_ignore_consumes _ _ E) end
  | E : next_key _ ?l = Ok (Some _, ?r) |- _ =>
      lazymatch goal with _ : length r < length l |- _ => fail | _ =>
        pose proof (next_key_consumes _ _ _ _ E) end
  end.

(** ** Termination: the visitor's fuel is enough *)

Lemma visit_map_adequate f first tok exp l v r :
  visit_map f first tok exp l = Ok (v, r) ->
  length r <= length l /\
  forall g, length l - length r < g -> visit_map g first tok exp l = Ok (v, r).
Proof.
  revert first tok exp l. induction f as [|f IH]; intros first tok exp l H; [discriminate|].
  cbn [visit_map] in H.
  repeat (dmatch H; try discriminate); subst;
    lazymatch type of H with
    | visit_map _ _ _ _ _ = _ =>
        destruct (IH _ _ _ _ H) as [Hr IHg]; field_lengths;
        (split; [cbn [length] in *; lia|]);
        intros [|g] Hg; [cbn [length] in *; lia|]; cbn [visit_map]; replay;
        apply IHg; cbn [length] in *; lia
    | _ =>
        injection H as <- <-; split;
        [unfold next_key in *; pose proof (parse_whitespace_len l);
         repeat (dmatch Heqr0; try discriminate); congruence
        |intros [|g] Hg; [lia|]; cbn [visit_map]; replay; reflexivity]
    end.
Qed.

(** ** The punctuation the printer emits, as the reader sees it *)

Create Rewrite HintDb json_chars.

Section Punctuation.
Variable l : bytes.
Lemma ws_quote : parse_whitespace (QUOTE :: l) = QUOTE :: l. Proof. reflexivity. Qed.
Lemma ws_comma : parse_whitespace ("," :: l)%char = ("," :: l)%char. Proof. reflexivity. Qed.
Lemma ws_colon : parse_whitespace (":" :: l)%char = (":" :: l)%char. Proof. reflexivity. Qed.
Lemma ws_rbrace : parse_whitespace ("}" :: l)%char = ("}" :: l)%char. Proof. reflexivity. Qed.
Lemma ws_lbrace : parse_whitespace ("{" :: l)%char = ("{" :: l)%char. Proof. reflexivity. Qed.
Lemma ws_lbracket : parse_whitespace ("[" :: l)%char = ("[" :: l)%char. Proof. reflexivity. Qed.
Lemma ws_rbracket : parse_whitespace ("]" :: l)%char = ("]" :: l)%char. Proof. reflexivity. Qed.
End Punctuation.

Lemma punctuation_eqb :
  Ascii.eqb QUOTE "}" = false /\ Ascii.eqb QUOTE "," = false /\ Ascii.eqb QUOTE QUOTE = true /\
  Ascii.eqb "," "}" = false /\ Ascii.eqb "," "," = true /\ Ascii.eqb ":" ":" = true /\
  Ascii.eqb "}" "}" = true /\ Ascii.eqb "{" "[" = false /\ Ascii.eqb "{" "{" = true /\
  Ascii.eqb QUOTE "n" = false /\ Ascii.eqb QUOTE "t" = false /\ Ascii.eqb QUOTE "f" = false /\
  Ascii.eqb QUOTE "-" = false /\ is_digit QUOTE = false /\ Ascii.eqb QUOTE "[" = false /\
  Ascii.eqb QUOTE "{" = false /\ Ascii.eqb "[" "[" = true /\ Ascii.eqb QUOTE "]" = false /\
  Ascii.eqb "," "]" = false /\ Ascii.eqb "]" "]" = true.
Proof. vm_compute. tauto. Qed.

#[local] Hint Rewrite ws_quote ws_comma ws_colon ws_rbrace ws_lbrace ws_lbracket ws_rbracket
  : json_chars.

(** Rewrite the reader's tests on the printer's punctuation. *)
Ltac punct_once :=
  autorewrite with json_chars;
  let P := fresh in pose proof punctuation_eqb as P;
  repeat match type of P with
         | _ /\ _ => let H := fresh in destruct P as [H P]; rewrite ?H; clear H
         end;
  rewrite ?P; clear P; cbn [andb negb orb].

Ltac punct := do 3 punct_once.

(** ** Flat objects: the visitor against a lookup of the fields *)

(** A JSON object whose fields are all strings, written by serde_json
    without blanks: [{"k1":"v1","k2":"v2"}], each string escaped. *)
Definition flat_entry (kv : string * string) : string :=
  json_string (fst kv) ++ ":" ++ json_string (snd kv).

Definition flat_object (es : list (string * string)) : string :=
  "{" ++ String.concat "," (map flat_entry es) ++ "}".

Definition entry_bytes (kv : string * string) : bytes :=
  QUOTE :: escape_bytes (list_ascii_of_string (fst kv)) ++ QUOTE :: ":"%char :: QUOTE ::
  escape_bytes (list_ascii_of_string (snd kv)) ++ [QUOTE].

Fixpoint entries_bytes (first : bool) (es : list (string * string)) : bytes :=
  match es with
  | [] => []
  | kv :: es' => (if first then [] else [","%char]) ++ entry_bytes kv ++ entries_bytes false es'
  end.

(** The value of the first field named [k]. *)
Fixpoint lookup_field (k : string) (es : list (string * string)) : option string :=
  match es with
  | [] => None
  | (k', v) :: es' => if String.eqb k' k then Some v else lookup_field k es'
  end.

Fixpoint count_key (k : string) (es : list (string * string)) : nat :=
  match es with
  | [] => 0
  | (k', _) :: es' => (if String.eqb k' k then 1 else 0) + count_key k es'
  end.

Definition INVALID_DATE : JsonError := Custom "input contains invalid characters".

(** The end of the visit: both fields found, or the first missing one. *)
Definition finish (tok : option string) (exp : option DateTime)
    : result RawInstallationToken JsonError :=
  match tok, exp with
  | None, _ => Err (MissingField "token")
  | Some _, None => Err (MissingField "expires_at")
  | Some t, Some x => Ok (mkRawInstallationToken t x)
  end.

(** The reference: look the two fields up, the expiry parsed first (the
    visitor fails on a bad expiry as soon as it reads it). *)
Definition ref_decode_from (tok : option string) (exp : option DateTime)
    (es : list (string * string)) : result RawInstallationToken JsonError :=
  let tok' := match tok with Some t => Some t | None => lookup_field "token" es end in
  match exp with
  | Some x => finish tok' (Some x)
  | None =>
      match lookup_field "expires_at" es with
      | None => finish tok' None
      | Some s => match parse_datetime s with
                  | Some x => finish tok' (Some x)
                  | None => Err INVALID_DATE
                  end
      end
  end.

Definition ref_decode (es : list (string * string)) : result RawInstallationToken JsonError :=
  ref_decode_from None None es.

(** The derived visitor at the level of the entries, for any flat
    object (known keys repeated or not): the key of each entry is
    classified by [field_of_str], a repeated known key is
    [duplicate_field], an expiry is parsed when it is read, unknown
    keys are skipped, and [finish] closes the object. *)
Fixpoint visit_entries (tok : option string) (exp : option DateTime) (es : list (string * string))
    : result RawInstallationToken JsonError :=
  match es with
  | [] => finish tok exp
  | (k, v) :: es' =>
      match field_of_str k with
      | Field_token =>
          match tok with
          | Some _ => Err (DuplicateField "token")
          | None => visit_entries (Some v) exp es'
          end
      | Field_expires_at =>
          match exp with
          | Some _ => Err (DuplicateField "expires_at")
          | None =>
              match parse_datetime v with
              | Some x => visit_entries tok (Some x) es'
              | None => Err INVALID_DATE
              end
          end
      | Field_ignore => visit_entries tok exp es'
      end
  end.

(** An expiry that does not parse fails the reference decoder, whatever
    the token. *)
Lemma ref_decode_bad_date es s :
  lookup_field "expires_at" es = Some s -> parse_datetime s = None -> ref_decode es = Err INVALID_DATE.
Proof. intros Hs Hx. unfold ref_decode, ref_decode_from. by rewrite Hs, Hx. Qed.

(** The key and the value are UTF-8, as every Rust [String] is. *)
Definition entry_valid (kv : string * string) : bool :=
  utf8_valid (list_ascii_of_string (fst kv)) && utf8_valid (list_ascii_of_string (snd kv)).

Lemma entry_bytes_app kv tail :
  entry_bytes kv ++ tail =
  QUOTE :: escape_bytes (list_ascii_of_string (fst kv)) ++ QUOTE :: ":"%char :: QUOTE ::
  escape_bytes (list_ascii_of_string (snd kv)) ++ QUOTE :: tail.
Proof. unfold entry_bytes. cbn [app]. rewrite <- app_assoc. cbn [app]. by rewrite <- app_assoc. Qed.

Lemma entry_valid_spec kv :
  entry_valid kv = true ->
  utf8_valid (list_ascii_of_string (fst kv)) = true /\ utf8_valid (list_ascii_of_string (snd kv)) = true.
Proof. unfold entry_valid. by intros [? ?]%andb_prop. Qed.

(** The key of the next entry, after the comma unless it is the first. *)
Lemma next_key_entry first kv tail :
  entry_valid kv = true ->
  next_key first ((if first then [] else [","%char]) ++ entry_bytes kv ++ tail) =
  Ok (Some (fst kv), ":"%char :: QUOTE :: escape_bytes (list_ascii_of_string (snd kv)) ++ QUOTE :: tail).
Proof.
  intros [Hk _]%entry_valid_spec. rewrite entry_bytes_app.
  destruct first; cbn [app]; unfold next_key; punct;
    by rewrite parse_str_valid.
Qed.

Section FieldValue.
Variables (v : string) (tail : bytes).
Hypothesis Hv : utf8_valid (list_ascii_of_string v) = true.

Lemma string_field :
  res_bind (parse_object_colon (":"%char :: QUOTE :: escape_bytes (list_ascii_of_string v) ++ QUOTE :: tail))
    deserialize_string = Ok (v, tail).
Proof.
  unfold parse_object_colon. punct. cbn [res_bind]. unfold deserialize_string. punct.
  by apply parse_str_valid.
Qed.

Lemma datetime_field :
  res_bind (parse_object_colon (":"%char :: QUOTE :: escape_bytes (list_ascii_of_string v) ++ QUOTE :: tail))
    deserialize_datetime =
  match parse_datetime v with Some x => Ok (x, tail) | None => Err INVALID_DATE end.
Proof.
  unfold parse_object_colon. punct. cbn [res_bind]. unfold deserialize_datetime, deserialize_string.
  punct. by rewrite parse_str_valid.
Qed.

Lemma ignore_field :
  res_bind (parse_object_colon (":"%char :: QUOTE :: escape_bytes (list_ascii_of_string v) ++ QUOTE :: tail))
    (fun l2 => ignore_value (S (length l2)) l2) = Ok tail.
Proof.
  unfold parse_object_colon. punct. cbn [res_bind ignore_value]. punct.
  by apply ignore_str_escape.
Qed.
End FieldValue.

(** The visitor over the entries of a flat object, from any state of
    the fields seen so far, computes the reference decoder; a known key
    appears at most once. *)
Lemma visit_map_entries (es : list (string * string)) :
  forall (fuel : nat) (first : bool) (tok : option string) (exp : option DateTime) (rest : bytes),
  forallb entry_valid es = true -> length es < fuel ->
  count_key "token" es <= match tok with Some _ => 0 | None => 1 end ->
  count_key "expires_at" es <= match exp with Some _ => 0 | None => 1 end ->
  visit_map fuel first tok exp (entries_bytes first es ++ ("}" :: rest)%char) =
    match ref_decode_from tok exp es with
    | Ok v => Ok (v, ("}" :: rest)%char)
    | Err e => Err e
    end.
Proof.
  induction es as [|[k v] es IH]; intros fuel first tok exp rest Hp Hf Ht He;
    (destruct fuel as [|f]; [cbn [length] in Hf; lia|]).
  - cbn [entries_bytes app visit_map]. unfold next_key. punct.
    unfold ref_decode_from, finish. cbn [lookup_field]. by destruct tok, exp.
  - cbn [forallb] in Hp. apply andb_prop in Hp as [Hkv Hp].
    destruct (entry_valid_spec _ Hkv) as [_ Hv]. cbn [fst snd] in Hv.
    cbn [count_key length] in *. cbn [entries_bytes]. rewrite <- !app_assoc.
    cbn [visit_map]. rewrite next_key_entry by exact Hkv. cbn [fst snd].
    unfold field_of_str, ref_decode_from. cbn [lookup_field].
    destruct (String.eqb k "token") eqn:Et.
    + apply String.eqb_eq in Et as ->. destruct tok; [lia|].
      rewrite string_field by exact Hv. cbn [String.eqb] in He |- *.
      rewrite IH by (done || lia). reflexivity.
    + destruct (String.eqb k "expires_at") eqn:Ee.
      * destruct exp; [lia|]. rewrite datetime_field by exact Hv.
        destruct (parse_datetime v) as [x|]; [|reflexivity].
        rewrite IH by (done || lia). reflexivity.
      * rewrite ignore_field. rewrite IH by (done || lia). reflexivity.
Qed.

(** The visitor over the bytes of the entries of any flat object is the
    entry-level visitor. *)
Lemma visit_map_visit_entries (es : list (string * string)) :
  forall (fuel : nat) (first : bool) (tok : option string) (exp : option DateTime) (rest : bytes),
  forallb entry_valid es = true -> length es < fuel ->
  visit_map fuel first tok exp (entries_bytes first es ++ ("}" :: rest)%char) =
    match visit_entries tok exp es with
    | Ok v => Ok (v, ("}" :: rest)%char)
    | Err e => Err e
    end.
Proof.
  induction es as [|[k v] es IH]; intros fuel first tok exp rest Hp Hf;
    (destruct fuel as [|f]; [cbn [length] in Hf; lia|]).
  - cbn [entries_bytes app visit_map]. unfold next_key. punct. by destruct tok, exp.
  - cbn [forallb] in Hp. apply andb_prop in Hp as [Hkv Hp].
    destruct (entry_valid_spec _ Hkv) as [_ Hv]. cbn [fst snd] in Hv.
    cbn [length] in Hf. cbn [entries_bytes]. rewrite <- !app_assoc.
    cbn [visit_map]. rewrite next_key_entry by exact Hkv. cbn [fst snd visit_entries].
    destruct (field_of_str k).
    + destruct tok; [reflexivity|]. rewrite string_field by exact Hv. apply IH; (done || lia).
    + destruct exp; [reflexivity|]. rewrite datetime_field by exact Hv.
      destruct (parse_datetime v); [apply IH; (done || lia)|reflexivity].
    + rewrite ignore_field. apply IH; (done || lia).
Qed.

Lemma quote_bytes : list_ascii_of_string dq = [QUOTE].
Proof. reflexivity. Qed.

Lemma flat_entry_bytes kv : list_ascii_of_string (flat_entry kv) = entry_bytes kv.
Proof.
  unfold flat_entry, entry_bytes.
  rewrite !list_ascii_of_string_app, !json_string_bytes. cbn [app].
  rewrite <- app_assoc. reflexivity.
Qed.

Lemma concat_entries_bytes es :
  list_ascii_of_string (String.concat "," (map flat_entry es)) = entries_bytes true es.
Proof.
  induction es as [|kv es IH]; [reflexivity|].
  destruct es as [|kv' es].
  - cbn [map String.concat entries_bytes]. rewrite flat_entry_bytes. cbn [app].
    by rewrite app_nil_r.
  - change (String.concat "," (map flat_entry (kv :: kv' :: es)))
      with (flat_entry kv ++ "," ++ String.concat "," (map flat_entry (kv' :: es)))%string.
    rewrite !list_ascii_of_string_app, IH, flat_entry_bytes. reflexivity.
Qed.

Lemma flat_object_bytes es :
  list_ascii_of_string (flat_object es) = ("{" :: entries_bytes true es ++ ["}"])%char.
Proof.
  unfold flat_object. rewrite !list_ascii_of_string_app, concat_entries_bytes. reflexivity.
Qed.

Lemma entries_bytes_length first es : length es <= length (entries_bytes first es).
Proof.
  revert first. induction es as [|kv es IH]; intros first; cbn [entries_bytes length]; [lia|].
  rewrite !length_app. specialize (IH false). unfold entry_bytes. cbn [length]. lia.
Qed.

(** ** The theorems *)

(** The fuel is enough: an object the visitor
    accepts with any fuel is accepted, with the same value and rest,
    with the fuel [deserialize_raw] gives it (the length of the input
    plus one), so the fuel never decides a successful decode. *)
Lemma visit_map_fuel_adequate f first tok exp l v r :
  visit_map f first tok exp l = Ok (v, r) ->
  visit_map (S (length l)) first tok exp l = Ok (v, r).
Proof.
  intros H. apply (proj2 (visit_map_adequate _ _ _ _ _ _ _ H)). lia.
Qed.

(** The flat-object decoding, shared by the theorems below and by Body.v. *)
Lemma from_slice_flat es :
  forallb entry_valid es = true ->
  count_key "token" es <= 1 -> count_key "expires_at" es <= 1 ->
  from_slice (flat_object es) = ref_decode es.
Proof.
  intros Hp Ht He. unfold from_slice, deserialize_raw.
  rewrite flat_object_bytes. punct.
  pose proof (entries_bytes_length true es) as Hl.
  rewrite (visit_map_entries es _ true None None []) by (done || (rewrite ?length_app; lia)).
  unfold ref_decode. destruct (ref_decode_from None None es); [|reflexivity].
  unfold end_map. punct. reflexivity.
Qed.

(** [from_slice] on any flat object of UTF-8 strings. *)
Lemma from_slice_visit_entries es :
  forallb entry_valid es = true -> from_slice (flat_object es) = visit_entries None None es.
Proof.
  intros Hp. unfold from_slice, deserialize_raw.
  rewrite flat_object_bytes. punct.
  pose proof (entries_bytes_length true es) as Hl.
  rewrite (visit_map_visit_entries es _ true None None []) by (done || (rewrite ?length_app; lia)).
  destruct (visit_entries None None es); [|reflexivity].
  unfold end_map. punct. reflexivity.
Qed.

Lemma field_of_str_token k : field_of_str k = Field_token <-> k = "token".
Proof.
  unfold field_of_str. split.
  - destruct (String.eqb_spec k "token"); [done|]. by destruct (String.eqb k "expires_at").
  - intros ->. reflexivity.
Qed.

Lemma field_of_str_expires_at k : field_of_str k = Field_expires_at <-> k = "expires_at".
Proof.
  unfold field_of_str. split.
  - destruct (String.eqb k "token"); [done|]. by destruct (String.eqb_spec k "expires_at").
  - intros ->. reflexivity.
Qed.

Lemma count_key_app k es1 es2 : count_key k (es1 ++ es2) = count_key k es1 + count_key k es2.
Proof. induction es1 as [|[k' v'] es1 IH]; cbn; [done|]. rewrite IH. lia. Qed.

(** An unknown entry changes nothing of the entry-level visit. *)
Lemma visit_entries_unknown es1 k v es2 :
  field_of_str k = Field_ignore ->
  forall tok exp, visit_entries tok exp (es1 ++ (k, v) :: es2) = visit_entries tok exp (es1 ++ es2).
Proof.
  intros Hk. induction es1 as [|[k' v'] es1 IH]; intros tok exp; cbn [app visit_entries].
  - by rewrite Hk.
  - destruct (field_of_str k'); [destruct tok|destruct exp; [|destruct (parse_datetime v')]|]; auto.
Qed.

(** A prefix with at most one token and at most one expiry, each
    expiry parsing, is visited without error: the visit goes on with the
    fields it found. *)
Lemma visit_entries_prefix es :
  forall (tok : option string) (exp : option DateTime) (rest : list (string * string)),
  count_key "token" es <= match tok with Some _ => 0 | None => 1 end ->
  count_key "expires_at" es <= match exp with Some _ => 0 | None => 1 end ->
  Forall (fun kv => fst kv = "expires_at" -> is_Some (parse_datetime (snd kv))) es ->
  exists tok' exp', visit_entries tok exp (es ++ rest) = visit_entries tok' exp' rest /\
    (is_Some tok \/ 0 < count_key "token" es -> is_Some tok').
Proof.
  induction es as [|[k v] es IH]; intros tok exp rest Ht He Hx.
  - exists tok, exp. split; [done|]. cbn. intros [H|H]; [done|lia].
  - inversion Hx as [|? ? Hkv Hx']; subst. cbn [count_key fst snd] in *. cbn [app visit_entries].
    destruct (field_of_str k) eqn:Ek.
    + apply field_of_str_token in Ek as ->. cbn in Ht, He. destruct tok; [lia|].
      destruct (IH (Some v) exp rest ltac:(cbn in *; lia) He Hx') as (tok' & exp' & E & Hs).
      exists tok', exp'. split; [exact E|]. intros _. apply Hs. left. done.
    + apply field_of_str_expires_at in Ek as ->. cbn in Ht, He.
      destruct exp; [lia|]. cbn in He. destruct (Hkv eq_refl) as [x Hp]. cbn [snd] in Hp. rewrite Hp.
      destruct (IH tok (Some x) rest Ht ltac:(cbn; lia) Hx') as (tok' & exp' & E & Hs).
      exists tok', exp'. split; [exact E|]. intros H. apply Hs. destruct H as [H|H]; [by left|right; cbn in H; lia].
    + assert (Hk : String.eqb k "token" = false /\ String.eqb k "expires_at" = false).
      { unfold field_of_str in Ek.
        destruct (String.eqb k "token"), (String.eqb k "expires_at"); done. }
      destruct Hk as [Hk1 Hk2]. rewrite Hk1 in Ht |- *. rewrite Hk2 in He.
      destruct (IH tok exp rest ltac:(cbn in *; lia) ltac:(cbn in *; lia) Hx') as (tok' & exp' & E & Hs).
      exists tok', exp'. split; [exact E|]. intros H. apply Hs. cbn in H. exact H.
Qed.

(** C17: On a flat object of string fields written by serde_json (any
    UTF-8 keys and values, escaped), with each known key at most once,
    [from_slice] computes what a lookup of the two fields computes: the token and the parsed expiry
    when both are present, [missing_field] for the first one missing,
    and the date error when the expiry does not parse; unknown keys are
    skipped and the order of the keys does not matter. *)
Theorem from_slice_flat_object es :
  forallb entry_valid es = true ->
  count_key "token" es <= 1 -> count_key "expires_at" es <= 1 ->
  from_slice (flat_object es) = ref_decode es.
Proof. exact (from_slice_flat es). Qed.

(** C18: Unknown keys are skipped: removing from a flat object an
    entry whose key is neither [token] nor [expires_at], wherever it
    stands and whatever the other entries are (repeated known keys
    included), does not change what [from_slice] returns, success or
    error. *)
Theorem from_slice_unknown_key es1 k v es2 :
  forallb entry_valid (es1 ++ (k, v) :: es2) = true ->
  k <> "token" -> k <> "expires_at" ->
  from_slice (flat_object (es1 ++ (k, v) :: es2)) = from_slice (flat_object (es1 ++ es2)).
Proof.
  intros Hp Ht He.
  assert (Hk : field_of_str k = Field_ignore).
  { unfold field_of_str. destruct (String.eqb_spec k "token"); [done|].
    by destruct (String.eqb_spec k "expires_at"). }
  assert (Hq : forallb entry_valid (es1 ++ es2) = true).
  { rewrite forallb_app in Hp |- *. cbn [forallb] in Hp.
    apply andb_prop in Hp as [H1 [_ H2]%andb_prop]. by rewrite H1, H2. }
  rewrite !from_slice_visit_entries by assumption.
  by apply visit_entries_unknown.
Qed.

(** C19: A repeated [token] key is refused with [duplicate_field],
    even with the same value and whatever follows it, as soon as it is
    read: for every flat object whose entries before the second [token]
    hold no other [token], at most one [expires_at], and only expiries
    that parse (so that nothing fails earlier). *)
Theorem from_slice_duplicate_token es1 t1 es2 t2 es3 :
  forallb entry_valid (es1 ++ ("token", t1) :: es2 ++ ("token", t2) :: es3) = true ->
  count_key "token" (es1 ++ es2) = 0 -> count_key "expires_at" (es1 ++ es2) <= 1 ->
  Forall (fun kv => fst kv = "expires_at" -> is_Some (parse_datetime (snd kv))) (es1 ++ es2) ->
  from_slice (flat_object (es1 ++ ("token", t1) :: es2 ++ ("token", t2) :: es3)) =
    Err (DuplicateField "token").
Proof.
  intros Hp Ht He Hx. rewrite from_slice_visit_entries by exact Hp.
  rewrite app_comm_cons, app_assoc.
  rewrite count_key_app in Ht, He. apply Forall_app in Hx as [Hx1 Hx2].
  destruct (visit_entries_prefix (es1 ++ ("token", t1) :: es2) None None (("token", t2) :: es3))
    as (tok' & exp' & -> & Hs).
  - rewrite count_key_app. cbn. lia.
  - rewrite count_key_app. cbn. lia.
  - apply Forall_app. split; [exact Hx1|]. constructor; [discriminate|exact Hx2].
  - destruct Hs as [t Ht']; [right; rewrite count_key_app; cbn; lia|].
    rewrite Ht'. reflexivity.
Qed.

(** C30: The derived deserializer also accepts the two fields as a
    JSON array: for every UTF-8 token and expiry text and an expiry that
    parses, [[token, expires_at]] written by serde_json decodes to the
    same value as the object. *)
Theorem from_slice_array_form t s x :
  utf8_valid (list_ascii_of_string t) = true -> utf8_valid (list_ascii_of_string s) = true ->
  parse_datetime s = Some x ->
  from_slice ("[" ++ json_string t ++ "," ++ json_string s ++ "]") =
    Ok (mkRawInstallationToken t x).
Proof.
  intros Ht Hs Hx. unfold from_slice, deserialize_raw.
  rewrite !list_ascii_of_string_app, !json_string_bytes. cbn [list_ascii_of_string app].
  punct. unfold visit_seq, next_element. punct.
  unfold deserialize_string. punct. rewrite <- app_assoc. cbn [app].
  rewrite parse_str_valid by exact Ht. punct.
  unfold deserialize_datetime, deserialize_string. punct. rewrite <- app_assoc. cbn [app].
  rewrite parse_str_valid by exact Hs. rewrite Hx.
  unfold end_seq. punct. reflexivity.
Qed.

(** ** Witnesses *)

Definition expiry0 : string := "2016-07-11T22:14:10Z".

(** A token with a quote, a backslash and a newline, which serde_json
    writes escaped. *)
Definition token_esc : string := "v1." ++ dq ++ "a" ++ String BACKSLASH (String "010"%char "b").

(** The body GitHub sends, keys in another order, one unknown key. *)
Definition github_entries : list (string * string) :=
  [("expires_at", expiry0); ("repository_selection", "all"); ("token", token_esc)].

Lemma from_slice_flat_object_witness :
  forallb entry_valid github_entries = true /\
  count_key "token" github_entries <= 1 /\ count_key "expires_at" github_entries <= 1 /\
  from_slice (flat_object github_entries) = ref_decode github_entries /\
  ref_decode github_entries = Ok (mkRawInstallationToken token_esc (mkDateTime 1468275250 0)).
Proof.
  assert (Hp : forallb entry_valid github_entries = true) by (vm_compute; reflexivity).
  assert (Ht : count_key "token" github_entries <= 1) by (vm_compute; lia).
  assert (He : count_key "expires_at" github_entries <= 1) by (vm_compute; lia).
  split; [exact Hp|]. split; [exact Ht|]. split; [exact He|].
  split; [exact (from_slice_flat_object github_entries Hp Ht He)|].
  vm_compute. reflexivity.
Defined.

Lemma from_slice_unknown_key_witness :
  forallb entry_valid ([("token", token_esc)] ++ ("repository_selection", "all") ::
                       [("expires_at", expiry0)]) = true /\
  "repository_selection" <> "token" /\ "repository_selection" <> "expires_at" /\
  from_slice (flat_object ([("token", token_esc)] ++ ("repository_selection", "all") ::
                           [("expires_at", expiry0)])) =
    from_slice (flat_object ([("token", token_esc)] ++ [("expires_at", expiry0)])).
Proof.
  assert (Hp : forallb entry_valid ([("token", token_esc)] ++ ("repository_selection", "all") ::
                                    [("expires_at", expiry0)]) = true) by (vm_compute; reflexivity).
  assert (H1 : "repository_selection" <> "token") by discriminate.
  assert (H2 : "repository_selection" <> "expires_at") by discriminate.
  split; [exact Hp|]. split; [exact H1|]. split; [exact H2|].
  exact (from_slice_unknown_key _ _ _ _ Hp H1 H2).
Defined.

Lemma from_slice_duplicate_token_witness :
  forallb entry_valid ([("expires_at", expiry0)] ++ ("token", "a") :: [] ++ ("token", "a") :: []) = true /\
  count_key "token" ([("expires_at", expiry0)] ++ []) = 0 /\
  count_key "expires_at" ([("expires_at", expiry0)] ++ []) <= 1 /\
  Forall (fun kv => fst kv = "expires_at" -> is_Some (parse_datetime (snd kv)))
    ([("expires_at", expiry0)] ++ []) /\
  from_slice (flat_object ([("expires_at", expiry0)] ++ ("token", "a") :: [] ++ ("token", "a") :: [])) =
    Err (DuplicateField "token").
Proof.
  assert (Hp : forallb entry_valid ([("expires_at", expiry0)] ++ ("token", "a") :: [] ++
                                    ("token", "a") :: []) = true) by (vm_compute; reflexivity).
  assert (Ht : count_key "token" ([("expires_at", expiry0)] ++ []) = 0) by reflexivity.
  assert (He : count_key "expires_at" ([("expires_at", expiry0)] ++ []) <= 1) by (cbn; lia).
  assert (Hx : Forall (fun kv => fst kv = "expires_at" -> is_Some (parse_datetime (snd kv)))
                 ([("expires_at", expiry0)] ++ [])).
  { constructor; [|constructor]. intros _. eexists. vm_compute. reflexivity. }
  split; [exact Hp|]. split; [exact Ht|]. split; [exact He|]. split; [exact Hx|].
  exact (from_slice_duplicate_token _ _ _ _ _ Hp Ht He Hx).
Defined.

Lemma from_slice_array_form_witness :
  utf8_valid (list_ascii_of_string token_esc) = true /\
  utf8_valid (list_ascii_of_string expiry0) = true /\
  parse_datetime expiry0 = Some (mkDateTime 1468275250 0) /\
  from_slice ("[" ++ json_string token_esc ++ "," ++ json_string expiry0 ++ "]") =
    Ok (mkRawInstallationToken token_esc (mkDateTime 1468275250 0)).
Proof.
  assert (Ht : utf8_valid (list_ascii_of_string token_esc) = true) by (vm_compute; reflexivity).
  assert (Hs : utf8_valid (list_ascii_of_string expiry0) = true) by (vm_compute; reflexivity).
  assert (Hx : parse_datetime expiry0 = Some (mkDateTime 1468275250 0)) by (vm_compute; reflexivity).
  split; [exact Ht|]. split; [exact Hs|]. split; [exact Hx|].
  exact (from_slice_array_form token_esc expiry0 _ Ht Hs Hx).
Defined.

End Decode.
