(* ===== verification/Body.v ===== *)
(** * Body: the response GitHub sends, decoded

    The exchange response (lib.rs 115-117) is a JSON object holding the
    token, the expiry and other fields in any order.  This file puts
    the writer side together (JsonWrite.v's escaped strings, Rfc3339.v's
    timestamps) and shows what the derived [Deserialize] of
    [RawInstallationToken] (Token.v) returns on it:
    - [deserialize_datetime_rfc3339]: the [expires_at] field reads every
      instant with a four-digit year back exactly;
    - [deserialize_datetime_epoch_days]: the midnight of the date reached
      by counting [n] days from 1970-01-01 is the instant [n * 86400]:
      no time-zone drift and no day lost;
    - [from_slice_github_body]: any body holding a UTF-8 token, an expiry
      and other fields, in any order, decodes to that token and expiry. *)

From S2P Require Import Prelude Chrono Calendar Rfc3339 Json JsonWrite Token Decode.

Module Body.
Import Chrono Calendar Rfc3339 Json JsonWrite Token Decode.

(** ** The timestamps are ASCII, hence UTF-8 *)

Definition ascii7 (l : bytes) : bool := forallb (fun c => nat_of_ascii c <? 128)%nat l.

Lemma utf8_valid_ascii l : ascii7 l = true -> utf8_valid l = true.
Proof.
  induction l as [|c l IH]; [done|]. cbn [ascii7 forallb]. intros [Hc Hl]%andb_prop.
  cbn [utf8_valid]. rewrite Hc. by apply IH.
Qed.

Lemma ascii7_app l1 l2 : ascii7 (l1 ++ l2) = ascii7 l1 && ascii7 l2.
Proof. apply forallb_app. Qed.

Lemma ascii7_cons c l : ascii7 (c :: l) = (nat_of_ascii c <? 128)%nat && ascii7 l.
Proof. reflexivity. Qed.

Lemma digit_char_ascii_all :
  Z_all (fun q => (nat_of_ascii (digit_char q) <? 128)%nat) 0 10 = true.
Proof. vm_compute. reflexivity. Qed.

Lemma zpad_ascii k n : (0 <= n < 10 ^ Z.of_nat k)%Z -> ascii7 (zpad k n) = true.
Proof.
  revert n. induction k as [|k IH]; intros n Hn; [done|].
  destruct (lead_digit k n Hn) as (Hq & Hr & _). rewrite zpad_S. cbn [ascii7 forallb].
  rewrite (Z_all_spec _ _ _ _ digit_char_ascii_all Hq). by apply IH.
Qed.

Lemma frac_auto_ascii ns : (0 <= ns < 1000000000)%Z -> ascii7 (frac_auto ns) = true.
Proof.
  intros Hn. unfold frac_auto.
  destruct (ns =? 0)%Z; [done|]. destruct (ns mod 1000000 =? 0)%Z; [|destruct (ns mod 1000 =? 0)%Z];
    cbn [ascii7 forallb]; (apply andb_true_intro; split; [reflexivity|]); apply zpad_ascii;
    pow_bound || (change (10 ^ Z.of_nat 3)%Z with 1000%Z || change (10 ^ Z.of_nat 6)%Z with 1000000%Z);
    Z.div_mod_to_equations; lia.
Qed.

Lemma rfc3339_fields_utf8 y m d hh mi ss ns :
  (0 <= y < 10000)%Z -> valid_date y m d = true ->
  (0 <= hh < 24)%Z -> (0 <= mi < 60)%Z -> (0 <= ss < 60)%Z -> (0 <= ns < 1000000000)%Z ->
  utf8_valid (rfc3339_fields y m d hh mi ss ns) = true.
Proof.
  intros Hy Hv Hh Hmi Hs Hns. apply utf8_valid_ascii.
  pose proof (days_in_month_range y m). unfold valid_date in Hv.
  rewrite !andb_true_iff, !Z.leb_le in Hv.
  unfold rfc3339_fields. repeat rewrite ?ascii7_app, ?ascii7_cons.
  rewrite frac_auto_ascii by exact Hns.
  rewrite !zpad_ascii by pow_bound. reflexivity.
Qed.

Lemma to_rfc3339_utf8 x :
  four_digit_year x -> (0 <= dt_nsec x < 1000000000)%Z ->
  utf8_valid (list_ascii_of_string (to_rfc3339 x)) = true.
Proof.
  intros Hr Hn. destruct (to_rfc3339_spec x Hr) as (y & m & d & hh & mi & ss & -> & ? & ? & ? & ? & ? & _).
  rewrite list_ascii_of_string_of_list_ascii. by apply rfc3339_fields_utf8.
Qed.

(** ** Reading a written string field *)

Lemma deserialize_string_json s r :
  utf8_valid (list_ascii_of_string s) = true ->
  deserialize_string (list_ascii_of_string (json_string s) ++ r) = Ok (s, r).
Proof.
  intros Hs. unfold deserialize_string. rewrite json_string_bytes. cbn [app].
  rewrite ws_quote, Ascii.eqb_refl, <- app_assoc. cbn [app]. by apply parse_str_valid.
Qed.

Lemma deserialize_datetime_json s r x :
  utf8_valid (list_ascii_of_string s) = true -> parse_datetime s = Some x ->
  deserialize_datetime (list_ascii_of_string (json_string s) ++ r) = Ok (x, r).
Proof.
  intros Hs Hx. unfold deserialize_datetime. by rewrite deserialize_string_json, Hx.
Qed.

(** ** Fields in any order *)

Lemma count_key_perm k es es' : es ≡ₚ es' -> count_key k es = count_key k es'.
Proof.
  induction 1 as [| [k1 v1] ? ? _ IH | [k1 v1] [k2 v2] ? | ? ? ? _ IH1 _ IH2];
    cbn [count_key]; lia.
Qed.

Lemma forallb_perm {A} (f : A -> bool) l l' : l ≡ₚ l' -> forallb f l = forallb f l'.
Proof.
  intros Hp. apply eq_bool_prop_intro. rewrite !Is_true_true, !forallb_forall.
  split; intros H a Ha; apply H; [rewrite Hp|rewrite <- Hp]; exact Ha.
Qed.

Lemma count_key_in k v es : In (k, v) es -> 1 <= count_key k es.
Proof.
  induction es as [|[k' v'] es IH]; [done|]. cbn [In count_key].
  intros [[= -> ->]|H]; [rewrite String.eqb_refl; lia|specialize (IH H); lia].
Qed.

(** The one field named [k] is the one [lookup_field] finds. *)
Lemma lookup_field_unique k v es :
  count_key k es = 1 -> In (k, v) es -> lookup_field k es = Some v.
Proof.
  induction es as [|[k' v'] es IH]; [done|]. cbn [In count_key lookup_field].
  destruct (String.eqb k' k) eqn:E.
  - apply String.eqb_eq in E as ->. intros Hc [[= ->]|H]; [done|].
    pose proof (count_key_in _ _ _ H). lia.
  - intros Hc [[= -> _]|H]; [by rewrite String.eqb_refl in E|]. apply IH; [lia|exact H].
Qed.

Lemma ref_decode_found es t s x :
  lookup_field "token" es = Some t -> lookup_field "expires_at" es = Some s ->
  parse_datetime s = Some x -> ref_decode es = Ok (mkRawInstallationToken t x).
Proof. intros Ht Hs Hx. unfold ref_decode, ref_decode_from. by rewrite Ht, Hs, Hx. Qed.

(** ** The theorems *)

(** C20: The [expires_at] field of [RawInstallationToken] reads
    every instant with a four-digit year and nanoseconds below one
    second, written as a JSON string in the RFC 3339 form GitHub sends
    (date, time, an exact fraction of 0, 3, 6 or 9 digits, [Z]), back as
    exactly that instant, and leaves the rest of the input. *)
Theorem deserialize_datetime_rfc3339 x r :
  four_digit_year x -> (0 <= dt_nsec x < 1000000000)%Z ->
  deserialize_datetime (list_ascii_of_string (json_string (to_rfc3339 x)) ++ r) = Ok (x, r).
Proof.
  intros Hr Hn. apply deserialize_datetime_json; [by apply to_rfc3339_utf8|].
  by apply parse_to_rfc3339.
Qed.

(** C26: The day count is exact: the midnight [YYYY-MM-DDT00:00:00Z]
    of the date reached by stepping [n] calendar days from 1970-01-01
    (through every month end, leap day and year end) is decoded as the
    instant [n * 86400] seconds after the epoch. *)
Theorem deserialize_datetime_epoch_days n y m d r :
  date_after n = (y, m, d) -> (y < 10000)%Z ->
  deserialize_datetime
    (list_ascii_of_string (json_string (string_of_list_ascii (rfc3339_fields y m d 0 0 0 0))) ++ r) =
    Ok (mkDateTime (Z.of_nat n * 86400) 0, r).
Proof.
  intros Ed Hy. pose proof (date_after_year _ _ _ _ Ed) as Hy0.
  destruct (date_after_spec n) as [Hv Hd]. rewrite Ed in Hv, Hd. cbn [civil_valid civil_days] in Hv, Hd.
  apply deserialize_datetime_json.
  - rewrite list_ascii_of_string_of_list_ascii. apply rfc3339_fields_utf8; (exact Hv || lia).
  - rewrite parse_rfc3339_fields by (exact Hv || lia). do 2 f_equal. lia.
Qed.

(** C16: Any response body holding a UTF-8 token, an expiry with a
    four-digit year, and other UTF-8 fields with other keys, in any
    order, written by serde_json, decodes to that token and exactly that
    expiry. *)
Theorem from_slice_github_body es t x others :
  es ≡ₚ ("token", t) :: ("expires_at", to_rfc3339 x) :: others ->
  utf8_valid (list_ascii_of_string t) = true ->
  four_digit_year x -> (0 <= dt_nsec x < 1000000000)%Z ->
  forallb entry_valid others = true ->
  count_key "token" others = 0 -> count_key "expires_at" others = 0 ->
  from_slice (flat_object es) = Ok (mkRawInstallationToken t x).
Proof.
  intros Hp Ht Hr Hn Ho Hct Hce.
  assert (Hx : utf8_valid (list_ascii_of_string (to_rfc3339 x)) = true) by (by apply to_rfc3339_utf8).
  rewrite from_slice_flat.
  - apply (ref_decode_found _ t (to_rfc3339 x)); [| |by apply parse_to_rfc3339];
      apply lookup_field_unique; rewrite ?(count_key_perm _ _ _ Hp); cbn; try lia;
      rewrite Hp; [left|right; left]; reflexivity.
  - rewrite (forallb_perm _ _ _ Hp).
    apply andb_true_intro; split; [unfold entry_valid; cbn [fst snd]; by rewrite Ht|].
    apply andb_true_intro; split; [unfold entry_valid; cbn [fst snd]; by rewrite Hx|exact Ho].
  - rewrite (count_key_perm _ _ _ Hp). cbn. lia.
  - rewrite (count_key_perm _ _ _ Hp). cbn. lia.
Qed.

(** ** Witnesses *)

(** The test vector's expiry with half a second. *)
Definition expiry_half : DateTime := mkDateTime 1468275250 500000000.

Lemma deserialize_datetime_rfc3339_witness :
  four_digit_year expiry_half /\ (0 <= dt_nsec expiry_half < 1000000000)%Z /\
  to_rfc3339 expiry_half = "2016-07-11T22:14:10.500Z"%string /\
  deserialize_datetime (list_ascii_of_string (json_string (to_rfc3339 expiry_half)) ++ ["}"%char]) =
    Ok (expiry_half, ["}"%char]).
Proof.
  assert (Hr : four_digit_year expiry_half) by (unfold four_digit_year; vm_compute; split; congruence).
  assert (Hn : (0 <= dt_nsec expiry_half < 1000000000)%Z) by (vm_compute; split; congruence).
  split; [exact Hr|]. split; [exact Hn|]. split; [vm_compute; reflexivity|].
  exact (deserialize_datetime_rfc3339 expiry_half _ Hr Hn).
Defined.

Lemma deserialize_datetime_epoch_days_witness :
  date_after 789 = (1972, 2, 29)%Z /\ (1972 < 10000)%Z /\
  deserialize_datetime
    (list_ascii_of_string (json_string (string_of_list_ascii (rfc3339_fields 1972 2 29 0 0 0 0))) ++ []) =
    Ok (mkDateTime (Z.of_nat 789 * 86400) 0, []).
Proof.
  assert (Ed : date_after 789 = (1972, 2, 29)%Z) by (vm_compute; reflexivity).
  split; [exact Ed|]. split; [lia|].
  exact (deserialize_datetime_epoch_days 789 _ _ _ [] Ed ltac:(lia)).
Defined.

Definition body_entries : list (string * string) :=
  [("expires_at", to_rfc3339 expiry_half); ("repository_selection", "all"); ("token", token_esc)].

Lemma from_slice_github_body_witness :
  body_entries ≡ₚ ("token", token_esc) :: ("expires_at", to_rfc3339 expiry_half) ::
                   [("repository_selection", "all")] /\
  from_slice (flat_object body_entries) = Ok (mkRawInstallationToken token_esc expiry_half).
Proof.
  assert (Hp : body_entries ≡ₚ ("token", token_esc) :: ("expires_at", to_rfc3339 expiry_half) ::
                 [("repository_selection", "all")]) by (unfold body_entries; solve_Permutation).
  split; [exact Hp|].
  refine (from_slice_github_body _ _ _ _ Hp _ _ _ _ _ _).
  - vm_compute. reflexivity.
  - unfold four_digit_year; vm_compute; split; congruence.
  - vm_compute; split; congruence.
  - vm_compute. reflexivity.
  - vm_compute. reflexivity.
  - vm_compute. reflexivity.
Defined.

End Body.
