(* ===== verification/Auth.v ===== *)
(** * Auth: the crate's parameters, errors and JWT claims

    - [AuthError] (lib.rs 37-55): one constructor per library error the
      crate converts with [#[from]];
    - [GithubAuthParams] (lib.rs 179-213): the caller's four inputs;
    - [JwtClaims] and [JwtClaims::new] (lib.rs 57-81): [iat] is the
      clock's seconds since the epoch, [exp] is [iat + 60], [iss] is the
      application id; reading the clock fails with [TimeError] when it
      is before the epoch;
    - [claims_json]: the [#[derive(Serialize)]] of [JwtClaims] as
      serde_json writes it (fields in declaration order, no blanks).

    Theorems: [JwtClaims_new_spec] (the claims' values), and
    [JwtClaims_new_before_epoch] (the error path). *)

From S2P Require Import Prelude Time Http World Decimal Jwt.

Module Auth.
Import Time Http World Jwt.
Local Open Scope string_scope.

(** [pub enum AuthError] *)
Inductive AuthError :=
| JwtError (e : Jwt.Error)
| InvalidHeaderValue (e : Http.InvalidHeaderValue)
| ReqwestError (e : Http.ReqwestError)
| TimeError (e : Time.SystemTimeError).

#[export] Instance AuthError_eq_dec : EqDecision AuthError.
Proof. solve_decision. Defined.

(** [pub struct GithubAuthParams] *)
Record GithubAuthParams := mkGithubAuthParams {
  user_agent : string;
  private_key : list Byte.byte;
  installation_id : Z;
  app_id : Z
}.

(** The two ids are [u64]. *)
Definition params_wf (p : GithubAuthParams) : bool :=
  in_u64 (installation_id p) && in_u64 (app_id p).

(** [struct JwtClaims { iat: u64, exp: u64, iss: u64 }] *)
Record JwtClaims := mkJwtClaims { iat : Z; exp : Z; iss : Z }.

#[export] Instance JwtClaims_eq_dec : EqDecision JwtClaims.
Proof. solve_decision. Defined.

(** The lifetime of the identity assertion, in seconds. *)
Definition JWT_LIFETIME : Z := 60.

(** [JwtClaims::new(params)] *)
Definition JwtClaims_new (params : GithubAuthParams) : Eff World AuthError JwtClaims :=
  (t <- now ;;
   d <- eff_try TimeError (duration_since t UNIX_EPOCH) ;;
   let n := as_secs d in
   eff_ret (mkJwtClaims n (n + JWT_LIFETIME)%Z (app_id params)))%eff.

(** [serde_json::to_string(&claims)] *)
Definition claims_json (c : JwtClaims) : string :=
  "{" ++ json_quote "iat" ++ ":" ++ Decimal.dec_string (iat c) ++
  "," ++ json_quote "exp" ++ ":" ++ Decimal.dec_string (exp c) ++
  "," ++ json_quote "iss" ++ ":" ++ Decimal.dec_string (iss c) ++ "}".

(** [const MACHINE_MAN_PREVIEW] *)
Definition MACHINE_MAN_PREVIEW : string := "application/vnd.github.machine-man-preview+json".

(** ** The clock the theorems assume: every reading is a valid
    [Timespec]. *)
Definition clock_wf (w : World) : Prop := forall n, time_wf (w_clock w n) = true.

Lemma clock_wf_tick w : clock_wf w -> clock_wf (tick w).
Proof. done. Qed.

Lemma clock_now_wf w : clock_wf w -> time_wf (clock_now w) = true.
Proof. intros H. apply H. Qed.

(** ** Theorems *)

(** The claims [JwtClaims::new] builds from a clock reading. *)
Definition claims_at (t : SystemTime) (params : GithubAuthParams) : JwtClaims :=
  mkJwtClaims (tv_sec t) (tv_sec t + JWT_LIFETIME)%Z (app_id params).

Lemma JwtClaims_new_run params w :
  clock_wf w -> (0 <= tv_sec (clock_now w))%Z ->
  JwtClaims_new params w = (Ok (claims_at (clock_now w) params), tick w).
Proof.
  intros Hw Hs.
  destruct (duration_since_epoch (clock_now w) (clock_now_wf w Hw) Hs) as (d & Hd & Hsec).
  unfold JwtClaims_new. eff_unfold. rewrite Hd. simpl. by rewrite Hsec.
Qed.

(** C22: [JwtClaims::new] on a clock at or after the epoch: one clock
    reading, [iat] is its seconds, [exp = iat + 60] and does not overflow
    [u64], and [iss] is the application id. *)
Lemma JwtClaims_new_spec params w :
  clock_wf w -> (0 <= tv_sec (clock_now w))%Z ->
  exists c, JwtClaims_new params w = (Ok c, tick w) /\
    iat c = tv_sec (clock_now w) /\ exp c = (iat c + 60)%Z /\ iss c = app_id params /\
    in_u64 (iat c) = true /\ in_u64 (exp c) = true.
Proof.
  intros Hw Hs. exists (claims_at (clock_now w) params).
  split; [by apply JwtClaims_new_run|]. cbn. split; [done|]. split; [done|]. split; [done|].
  pose proof (clock_now_wf w Hw) as Ht. unfold time_wf in Ht.
  apply andb_prop in Ht as [Ht _]. apply andb_prop in Ht as [Ht _].
  apply in_i64_spec in Ht. rewrite !in_u64_spec.
  unfold JWT_LIFETIME, i64_max, i64_min, u64_max, u64_modulus in *. lia.
Qed.

(** Before the epoch, [duration_since] fails and so does
    [JwtClaims::new], with [TimeError]. *)
Lemma JwtClaims_new_before_epoch params w :
  clock_wf w -> (tv_sec (clock_now w) < 0)%Z ->
  exists e, JwtClaims_new params w = (Err (TimeError e), tick w).
Proof.
  intros Hw Hs.
  destruct (duration_since_epoch_Err (clock_now w) (clock_now_wf w Hw) Hs) as [e He].
  exists e. unfold JwtClaims_new. eff_unfold. by rewrite He.
Qed.

End Auth.
