(* ===== verification/Exchange.v ===== *)
(** * Exchange: [get_installation_token] (lib.rs 91-118)

    One exchange: build the claims (one clock reading), sign them with
    the RS256 header and the [from_secret] key, then POST to
    [https://api.github.com/app/installations/{installation_id}/access_tokens]
    with [Authorization: Bearer <jwt>] and the machine-man preview
    [Accept] header, reject a 4xx/5xx status, and decode the body.
    Every failure is returned through [?] with its [AuthError]
    constructor; nothing is retried.

    The signing primitive is the section's [JwtEncoder]; the theorems
    hold for every encoder.
    - [get_installation_token_run]: the whole behaviour once the claims
      are signed: the one request put on the wire and the result for
      each answer of the remote (transport failure, error status,
      undecodable body, token);
    - [read_response_cases]: [.error_for_status()?.json()?] on every
      response, the status checked before the body is read;
      [get_installation_token_body_error]: a body that cannot be read
      fails the exchange with the body error after one request;
    - [get_installation_token_sign_error]: a signing failure sends
      nothing;
    - [get_installation_token_family_checked]: with an encoder that
      checks key families (jsonwebtoken 7), the [from_secret] key and
      RS256 make every exchange fail before any request is sent;
    - [get_installation_token_sent] / [get_installation_token_reads]: at
      most one request, the exchange request with the signed claims, and
      one clock reading. *)

From S2P Require Import Prelude Time Http World Decimal Jwt Chrono Json Token Auth.

Module Exchange.
Import Time Http World Jwt Token Auth.
Local Open Scope string_scope.

Definition URL_PREFIX : string := "https://api.github.com/app/installations/".
Definition URL_SUFFIX : string := "/access_tokens".

(** [format!("https://api.github.com/app/installations/{}/access_tokens", id)] *)
Definition access_tokens_url (installation_id : Z) : string :=
  URL_PREFIX ++ Decimal.dec_string installation_id ++ URL_SUFFIX.

(** [let mut header = Header::default(); header.alg = Algorithm::RS256;] *)
Definition jwt_header : Header := set_alg RS256 Header_default.

(** [EncodingKey::from_secret(&params.private_key)] *)
Definition jwt_key (params : GithubAuthParams) : EncodingKey :=
  EncodingKey_from_secret (private_key params).

(** [reqwest::Error] for a body that [serde_json] refuses. *)
Definition decode_error : Http.ReqwestError := mkReqwestError KDecode None.

(** [.error_for_status()?.json()?] on a response: the status is checked
    first; [json] then reads the whole body and decodes it. *)
Definition read_response (resp : Response) : result RawInstallationToken AuthError :=
  res_bind (map_err ReqwestError (error_for_status resp))
    (fun r => res_bind (map_err ReqwestError (resp_bytes r))
      (fun body => map_err (fun _ => ReqwestError decode_error) (from_slice body))).

Section WithEncoder.
Context {enc : JwtEncoder}.

  (** [get_installation_token(client, params)] *)
Definition get_installation_token (client : Client) (params : GithubAuthParams)
      : Eff World AuthError RawInstallationToken :=
    (claims <- JwtClaims_new params ;;
     token <- eff_try JwtError (jwt_encode jwt_header (claims_json claims) (jwt_key params)) ;;
     let url := access_tokens_url (installation_id params) in
     resp <- eff_map_err ReqwestError
               (send (rb_header "Accept" MACHINE_MAN_PREVIEW
                        (rb_bearer_auth token (client_post client url)))) ;;
     eff_try id (read_response resp))%eff.
End WithEncoder.

(** ** The request and the answer *)

(** The request the exchange puts on the wire. *)
Definition exchange_request (client : Client) (params : GithubAuthParams) (jwt : string)
    : Request :=
  with_default_headers client
    (mkRequest POST (access_tokens_url (installation_id params))
       [(AUTHORIZATION, "Bearer " ++ jwt); (ACCEPT, MACHINE_MAN_PREVIEW)]).

(** The result for the remote's answer ([None]: transport failure). *)
Definition exchange_result (params : GithubAuthParams) (answer : option Response)
    : result RawInstallationToken AuthError :=
  match answer with
  | None => Err (ReqwestError (mkReqwestError KRequest
                                 (Some (access_tokens_url (installation_id params)))))
  | Some resp => read_response resp
  end.


(** ** Theorems *)

Lemma url_parse_access_tokens_url id :
  url_parse (access_tokens_url id) = Ok (access_tokens_url id).
Proof. reflexivity. Qed.

Lemma accept_header_name : HeaderName_from_str "Accept" = Ok ACCEPT.
Proof. reflexivity. Qed.

Lemma machine_man_preview_ok : HeaderValue_from_str MACHINE_MAN_PREVIEW = Ok MACHINE_MAN_PREVIEW.
Proof. reflexivity. Qed.

(** The request builder of the exchange, once the JWT is a valid header
    value, holds the request [exchange_request] sends. *)
Lemma exchange_builder client params jwt :
  header_value_ok ("Bearer " ++ jwt) = true ->
  rb_header "Accept" MACHINE_MAN_PREVIEW
    (rb_bearer_auth jwt (client_post client (access_tokens_url (installation_id params)))) =
  mkRequestBuilder client
    (Ok (mkRequest POST (access_tokens_url (installation_id params))
           [(AUTHORIZATION, "Bearer " ++ jwt); (ACCEPT, MACHINE_MAN_PREVIEW)])).
Proof.
  intros Hv. unfold client_post. rewrite url_parse_access_tokens_url. cbn [res_bind].
  unfold rb_bearer_auth, rb_header_named at 1. cbn [rb_request].
  unfold HeaderValue_from_str at 1. rewrite Hv.
  unfold rb_header. cbn [rb_request]. rewrite accept_header_name.
  unfold rb_header_named. cbn [rb_request rb_client req_method req_url req_headers].
  rewrite machine_man_preview_ok. reflexivity.
Qed.

(** A JWT that is not a valid header value turns the builder into an
    error: nothing is sent. *)
Lemma exchange_builder_err client params jwt :
  header_value_ok ("Bearer " ++ jwt) = false ->
  rb_request (rb_header "Accept" MACHINE_MAN_PREVIEW
    (rb_bearer_auth jwt (client_post client (access_tokens_url (installation_id params))))) =
  Err builder_error.
Proof.
  intros Hv. unfold client_post. rewrite url_parse_access_tokens_url. cbn [res_bind].
  unfold rb_bearer_auth, rb_header_named at 1. cbn [rb_request].
  unfold HeaderValue_from_str at 1. rewrite Hv. reflexivity.
Qed.

Lemma read_response_status resp :
  (400 <= resp_status resp < 600)%Z ->
  read_response resp =
    Err (ReqwestError (mkReqwestError (KStatus (resp_status resp)) (Some (resp_url resp)))).
Proof.
  intros [H1 H2]. unfold read_response, error_for_status.
  apply Z.leb_le in H1. apply Z.ltb_lt in H2. by rewrite H1, H2.
Qed.

(** A status below 400 or from 600 on is accepted and the body is
    read; every decoding error becomes the one [reqwest] decode
    error. *)
Lemma read_response_body resp :
  ~ (400 <= resp_status resp < 600)%Z ->
  read_response resp =
    match resp_body resp with
    | None => Err (ReqwestError (mkReqwestError KBody None))
    | Some body => map_err (fun _ => ReqwestError decode_error) (from_slice body)
    end.
Proof.
  intros Hs. unfold read_response, error_for_status.
  destruct ((400 <=? resp_status resp)%Z && (resp_status resp <? 600)%Z) eqn:E.
  - apply andb_prop in E as [E1 E2]. apply Z.leb_le in E1. apply Z.ltb_lt in E2. lia.
  - cbn [map_err res_bind]. unfold resp_bytes. by destruct (resp_body resp).
Qed.

Lemma read_response_ok resp body raw :
  ~ (400 <= resp_status resp < 600)%Z -> resp_body resp = Some body -> from_slice body = Ok raw ->
  read_response resp = Ok raw.
Proof. intros Hs Hb Hd. by rewrite read_response_body, Hb, Hd. Qed.

(** C27: [.error_for_status()?.json()?] on every response: a 4xx/5xx
    status is the error whatever the body, since the status is checked
    before the body is read; otherwise a body that cannot be read to its
    end is reqwest's body error, before anything is decoded, and a body
    that is read is the token [from_slice] decodes, or the one decode
    error. *)
Lemma read_response_cases resp :
  read_response resp =
    if bool_decide (400 <= resp_status resp < 600)%Z
    then Err (ReqwestError (mkReqwestError (KStatus (resp_status resp)) (Some (resp_url resp))))
    else match resp_body resp with
         | None => Err (ReqwestError (mkReqwestError KBody None))
         | Some body => map_err (fun _ => ReqwestError decode_error) (from_slice body)
         end.
Proof.
  case_bool_decide as Hs; [exact (read_response_status resp Hs)|].
  exact (read_response_body resp Hs).
Qed.

Section WithEncoder.
Context {enc : JwtEncoder}.

  (** One exchange, once the claims are signed, as a function of the
      remote's answer. *)
Lemma get_installation_token_exec client params w jwt :
    clock_wf w -> (0 <= tv_sec (clock_now w))%Z ->
    jwt_encode jwt_header (claims_json (claims_at (clock_now w) params)) (jwt_key params) = Ok jwt ->
    header_value_ok ("Bearer " ++ jwt) = true ->
    get_installation_token client params w =
      (exchange_result params (w_server w (List.length (w_sent w)) (exchange_request client params jwt)),
       record_request (exchange_request client params jwt) (tick w)).
  Proof.
    intros Hw Hs Hsign Hv. unfold get_installation_token.
    erewrite eff_bind_Ok by exact (JwtClaims_new_run params w Hw Hs).
    unfold eff_bind at 1, eff_try at 1.
    rewrite Hsign. cbn [map_err].
    rewrite exchange_builder by exact Hv.
    unfold eff_bind, eff_map_err, send, execute. cbn [rb_request rb_client].
    fold (exchange_request client params jwt).
    destruct (w_server _ _ _); cbn; [|reflexivity].
    unfold eff_try. by rewrite map_err_id.
  Qed.

  (** C8: The behaviour of one exchange once the claims are signed: one
      clock reading, exactly one request on the wire, and the result
      the remote's answer to it determines. *)
Lemma get_installation_token_run client params w jwt :
    clock_wf w -> (0 <= tv_sec (clock_now w))%Z ->
    jwt_encode jwt_header (claims_json (claims_at (clock_now w) params)) (jwt_key params) = Ok jwt ->
    header_value_ok ("Bearer " ++ jwt) = true ->
    get_installation_token client params w =
      (exchange_result params (w_server w (List.length (w_sent w)) (exchange_request client params jwt)),
       record_request (exchange_request client params jwt) (tick w)).
  Proof.
    intros Hw Hs Hsign Hv. exact (get_installation_token_exec client params w jwt Hw Hs Hsign Hv).
  Qed.

  (** C12: The remote answers the exchange request with a success
      status but the connection drops while the body is read: the
      exchange fails with reqwest's body error (no decoding is tried)
      after exactly one request. *)
Lemma get_installation_token_body_error client params w jwt resp :
    clock_wf w -> (0 <= tv_sec (clock_now w))%Z ->
    jwt_encode jwt_header (claims_json (claims_at (clock_now w) params)) (jwt_key params) = Ok jwt ->
    header_value_ok ("Bearer " ++ jwt) = true ->
    w_server w (List.length (w_sent w)) (exchange_request client params jwt) = Some resp ->
    ~ (400 <= resp_status resp < 600)%Z -> resp_body resp = None ->
    get_installation_token client params w =
      (Err (ReqwestError (mkReqwestError KBody None)),
       record_request (exchange_request client params jwt) (tick w)).
  Proof.
    intros Hw Hs Hsign Hv Hsrv Hst Hb.
    rewrite (get_installation_token_exec client params w jwt Hw Hs Hsign Hv), Hsrv.
    cbn [exchange_result]. by rewrite (read_response_body resp Hst), Hb.
  Qed.

  (** The exchange does not change the clock (it only reads it) and
      does not log. *)
Lemma get_installation_token_frame client params w :
    w_clock (snd (get_installation_token client params w)) = w_clock w /\
    w_log (snd (get_installation_token client params w)) = w_log w.
  Proof.
    unfold get_installation_token, JwtClaims_new, eff_bind, eff_try, eff_map_err, eff_ret, now.
    cbn [fst snd]. destruct (duration_since _ _) as [d|e]; cbn [map_err]; [|done].
    destruct (jwt_encode _ _ _) as [jwt|e]; cbn [map_err]; [|done].
    pose proof (send_frame
      (rb_header "Accept" MACHINE_MAN_PREVIEW
        (rb_bearer_auth jwt (client_post client (access_tokens_url (installation_id params)))))
      (tick w)) as Hc.
    destruct (send _ _) as [[resp|e] w1]; cbn [map_err fst snd] in *; [|done].
    unfold eff_try. by destruct (map_err id (read_response resp)).
  Qed.

  (** What an exchange puts on the wire: nothing, or exactly the
      exchange request of this client and these parameters, carrying the
      JWT the encoder made of the claims [JwtClaims::new] built. *)
Lemma get_installation_token_sent client params w :
    exists l, w_sent (snd (get_installation_token client params w)) = (w_sent w ++ l)%list /\
      (List.length l <= 1)%nat /\
      Forall (fun req => exists claims jwt,
                fst (JwtClaims_new params w) = Ok claims /\
                jwt_encode jwt_header (claims_json claims) (jwt_key params) = Ok jwt /\
                req = exchange_request client params jwt) l.
  Proof.
    unfold get_installation_token, eff_bind at 1.
    destruct (JwtClaims_new params w) as [[claims|e] w1] eqn:Ec;
      [|exists []; rewrite app_nil_r; cbn; split; [|split; [lia|constructor]];
        unfold JwtClaims_new, eff_bind, now, eff_try, eff_ret in Ec; cbn in Ec;
        destruct (duration_since _ _); by injection Ec as _ <-].
    assert (Hw1 : w1 = tick w).
    { unfold JwtClaims_new, eff_bind, now, eff_try, eff_ret in Ec. cbn in Ec.
      destruct (duration_since _ _); by injection Ec as _ <-. }
    subst w1. unfold eff_bind at 1, eff_try at 1.
    destruct (jwt_encode _ _ _) as [jwt|e] eqn:Ej; cbn [map_err];
      [|exists []; rewrite app_nil_r; cbn; auto].
    destruct (header_value_ok ("Bearer " ++ jwt)) eqn:Hv.
    - rewrite exchange_builder by exact Hv. unfold eff_bind, eff_map_err, send, execute.
      cbn [rb_request rb_client]. fold (exchange_request client params jwt).
      exists [exchange_request client params jwt].
      split; [|split; [cbn; lia|constructor; [exists claims, jwt; done|constructor]]].
      destruct (w_server _ _ _) as [resp|]; cbn; [|done].
      unfold eff_try. by destruct (map_err id (read_response resp)).
    - unfold eff_bind, eff_map_err, send. rewrite (exchange_builder_err client params jwt Hv).
      exists []. rewrite app_nil_r. cbn. auto.
  Qed.

  (** The exchange reads the clock once before anything else. *)
Lemma get_installation_token_reads client params w :
    (S (w_reads w) <= w_reads (snd (get_installation_token client params w)))%nat.
  Proof.
    unfold get_installation_token, JwtClaims_new, eff_bind, eff_try, eff_map_err, eff_ret, now.
    cbn [fst snd]. destruct (duration_since _ _) as [d|e]; cbn [map_err]; [|cbn; lia].
    destruct (jwt_encode _ _ _) as [jwt|e]; cbn [map_err]; [|cbn; lia].
    destruct (send _ _) as [[resp|e] w1] eqn:Hs; cbn [map_err fst snd];
      apply send_reads in Hs; cbn in Hs.
    - unfold eff_try. destruct (map_err id (read_response resp)); cbn; lia.
    - lia.
  Qed.

  (** A signing failure is returned as [JwtError] before any request. *)
Lemma get_installation_token_sign_error client params w e :
    clock_wf w -> (0 <= tv_sec (clock_now w))%Z ->
    jwt_encode jwt_header (claims_json (claims_at (clock_now w) params)) (jwt_key params) = Err e ->
    get_installation_token client params w = (Err (JwtError e), tick w).
  Proof.
    intros Hw Hs Hsign. unfold get_installation_token.
    erewrite eff_bind_Ok by exact (JwtClaims_new_run params w Hw Hs).
    unfold eff_bind at 1, eff_try at 1.
    by rewrite Hsign.
  Qed.

  (** C29: A clock before the epoch fails the exchange with [TimeError]
      before anything is signed or sent. *)
Lemma get_installation_token_before_epoch client params w :
    clock_wf w -> (tv_sec (clock_now w) < 0)%Z ->
    exists e, get_installation_token client params w = (Err (TimeError e), tick w).
  Proof.
    intros Hw Hs. destruct (JwtClaims_new_before_epoch params w Hw Hs) as [e He].
    exists e. unfold get_installation_token. by erewrite eff_bind_Err by exact He.
  Qed.

  (** With an encoder that refuses a key of the wrong family
      (jsonwebtoken 7's [encode]), the HMAC key [from_secret] builds and
      the RS256 header make every exchange fail with
      [JwtError(InvalidAlgorithm)], before any request is sent. *)
Lemma get_installation_token_family_checked `{!FamilyChecked enc} client params w :
    clock_wf w -> (0 <= tv_sec (clock_now w))%Z ->
    get_installation_token client params w =
      (Err (JwtError (mkError InvalidAlgorithm)), tick w).
  Proof.
    intros Hw Hs. apply get_installation_token_sign_error; [done|done|].
    apply family_check. discriminate.
  Qed.
End WithEncoder.
End Exchange.
