(* ===== verification/Bearer.v ===== *)
(** * Bearer: what the JWT of the exchange carries

    [get_installation_token] (lib.rs 100-105, 113) sends
    [Authorization: Bearer <jwt>] where [jwt] is jsonwebtoken's
    [encode(&header, &claims, &private_key)].  With any encoder whose
    successful results have jsonwebtoken 7's layout ([Jwt.JwsLayout]),
    whatever the signature, a remote that splits the token at its first
    two dots and decodes the first two segments with
    [Base64.b64_decode] reads the header text
    [{"typ":"JWT","alg":"RS256"}] (written out in [RS256_HEADER_JSON],
    not computed from the crate's header) and the claims
    [JwtClaims::new] built from the clock ([exchange_bearer_decodes]).
    With jsonwebtoken 7 itself and the crate's [from_secret] key the
    signing always fails ([Manager.new_family_checked]), so nothing is
    sent at all.  With any encoder whose output is a
    compact JWS ([CompactOutput], which the layout satisfies when its
    signature is base64url text,
    [jws_unchecked_compact]), [Authorization: Bearer <jwt>] is always a
    valid header value, so a signed exchange always reaches the wire
    ([exchange_signed_sends]). *)

From S2P Require Import Prelude Time Http World Decimal Jwt Base64 Chrono Json Token Auth Exchange.

Module Bearer.
Import Time Http World Jwt Base64 Auth Exchange.
Local Open Scope string_scope.

(** The bytes before the first dot, and those after it. *)
Fixpoint split_at_dot (l : list ascii) : option (list ascii * list ascii) :=
  match l with
  | [] => None
  | c :: r =>
      if Ascii.eqb c "." then Some ([], r)
      else match split_at_dot r with
           | Some (a, b) => Some (c :: a, b)
           | None => None
           end
  end.

(** A compact JWS split into its header, payload and signature. *)
Definition jwt_segments (jwt : string) : option (string * string * string) :=
  match split_at_dot (list_ascii_of_string jwt) with
  | Some (h, r) =>
      match split_at_dot r with
      | Some (p, s) => Some (string_of_list_ascii h, string_of_list_ascii p, string_of_list_ascii s)
      | None => None
      end
  | None => None
  end.

Lemma split_at_dot_app (l r : list ascii) :
  ~ In "."%char l -> split_at_dot (l ++ "."%char :: r)%list = Some (l, r).
Proof.
  induction l as [|c l IH]; intros Hn; cbn [app split_at_dot].
  - by rewrite Ascii.eqb_refl.
  - assert (Hc : Ascii.eqb c "." = false) by (apply Ascii.eqb_neq; intros ->; apply Hn; left; done).
    rewrite Hc, IH; [done|]. intros Hin. apply Hn. by right.
Qed.

Lemma dot_bytes : list_ascii_of_string "." = ["."%char].
Proof. reflexivity. Qed.

(** The segments of a token made of two encoded parts and a signature. *)
Lemma jws_segments hd c sig :
  jwt_segments (b64_encode hd ++ "." ++ b64_encode c ++ "." ++ sig) =
  Some (b64_encode hd, b64_encode c, sig).
Proof.
  unfold jwt_segments. rewrite !list_ascii_of_string_app, !dot_bytes. cbn [app].
  rewrite split_at_dot_app by apply b64_encode_no_dot.
  rewrite split_at_dot_app by apply b64_encode_no_dot.
  by rewrite !string_of_list_ascii_of_string.
Qed.

(** The header [{"typ":"JWT","alg":"RS256"}] as JSON text, written out. *)
Definition RS256_HEADER_JSON : string :=
  "{" ++ json_quote "typ" ++ ":" ++ json_quote "JWT" ++ "," ++
  json_quote "alg" ++ ":" ++ json_quote "RS256" ++ "}".

(** C13: Whatever the signature, with any encoder whose successful
    results have jsonwebtoken's layout (jsonwebtoken 7's [encode] has
    it), on a valid clock at or after the epoch, every request the
    exchange puts on the wire is the exchange request whose Bearer JWT
    splits into three segments, the first decoding to the header text
    [{"typ":"JWT","alg":"RS256"}] and the second to the claims
    [iat = now], [exp = now + 60], [iss = app_id] that
    [JwtClaims::new] built. *)
Theorem exchange_bearer_decodes `{enc : JwtEncoder} `{!JwsLayout enc} client params w :
  clock_wf w -> (0 <= tv_sec (clock_now w))%Z ->
  exists l,
    w_sent (snd (get_installation_token client params w)) = (w_sent w ++ l)%list /\
    Forall (fun req => exists jwt hd pl sig,
      req = exchange_request client params jwt /\
      jwt_segments jwt = Some (hd, pl, sig) /\
      b64_decode hd = Some RS256_HEADER_JSON /\
      b64_decode pl = Some (claims_json (claims_at (clock_now w) params))) l.
Proof.
  intros Hw Hs.
  destruct (get_installation_token_sent client params w) as (l & E & _ & Hf).
  exists l. split; [exact E|]. eapply Forall_impl; [exact Hf|].
  intros req (claims & jwt & Hc & Hj & ->).
  rewrite (JwtClaims_new_run params w Hw Hs) in Hc. injection Hc as <-.
  destruct (jws_layout_law _ _ _ _ Hj) as [sig ->].
  eexists _, _, _, sig. split; [done|]. split; [apply jws_segments|].
  split; apply b64_decode_encode.
Qed.

(** ** The Bearer header is always a valid header value *)

Lemma jws_char_value_ok c : is_jws_char c = true -> header_value_byte_ok c = true.
Proof. destruct c as [[] [] [] [] [] [] [] []]; (discriminate || reflexivity). Qed.

Lemma str_forallb_impl (f g : ascii -> bool) s :
  (forall c, f c = true -> g c = true) -> str_forallb f s = true -> str_forallb g s = true.
Proof.
  unfold str_forallb. intros Hfg. rewrite !forallb_forall. intros H c Hc. apply Hfg, H, Hc.
Qed.

(** [Authorization: Bearer <jwt>] of a compact JWS is a valid value. *)
Lemma bearer_value_ok jwt :
  str_forallb is_jws_char jwt = true -> header_value_ok ("Bearer " ++ jwt) = true.
Proof.
  intros H. unfold header_value_ok. rewrite str_forallb_app.
  apply andb_true_intro. split; [reflexivity|]. exact (str_forallb_impl _ _ _ jws_char_value_ok H).
Qed.

Lemma b64_char_jws_all :
  forallb (fun k => is_jws_char (b64_char (Z.of_nat k))) (seq 0 64) = true.
Proof. vm_compute. reflexivity. Qed.

Lemma b64_char_jws k : (0 <= k < 64)%Z -> is_jws_char (b64_char k) = true.
Proof.
  intros Hk. pose proof b64_char_jws_all as H. rewrite forallb_forall in H.
  specialize (H (Z.to_nat k)). rewrite Z2Nat.id in H by lia. apply H, in_seq. lia.
Qed.

Lemma b64_encode_jws s : str_forallb is_jws_char (b64_encode s) = true.
Proof.
  unfold str_forallb, b64_encode. rewrite list_ascii_of_string_of_list_ascii, forallb_forall.
  intros c Hc. pose proof (b64_encode_digits (list_ascii_of_string s)) as H.
  rewrite List.Forall_forall in H. destruct (H _ Hc) as (k & Hk & ->). by apply b64_char_jws.
Qed.

(** The JWS layout is a compact JWS whenever the signature appended is
    base64url text, as [sign] returns it. *)
Lemma jws_unchecked_compact crypto_sign :
  (forall a k m sig, crypto_sign a k m = Ok sig -> str_forallb is_jws_char sig = true) ->
  CompactOutput (jws_unchecked crypto_sign).
Proof.
  intros Hs h c k t. unfold jwt_encode, jws_unchecked, jws, res_bind.
  destruct (crypto_sign _ _ _) as [sig|e] eqn:E; [|discriminate]. intros [= <-].
  rewrite !str_forallb_app. rewrite !b64_encode_jws, (Hs _ _ _ _ E). reflexivity.
Qed.

(** C9: With an encoder that writes a compact JWS, the exchange's
    Bearer header can never be refused: once the claims are signed, the
    exchange request is put on the wire, exactly once, and the result
    is what the remote's answer to it makes. *)
Theorem exchange_signed_sends `{enc : JwtEncoder} `{!CompactOutput enc} client params w jwt :
  clock_wf w -> (0 <= tv_sec (clock_now w))%Z ->
  jwt_encode jwt_header (claims_json (claims_at (clock_now w) params)) (jwt_key params) = Ok jwt ->
  get_installation_token client params w =
    (exchange_result params (w_server w (List.length (w_sent w)) (exchange_request client params jwt)),
     record_request (exchange_request client params jwt) (tick w)) /\
  w_sent (snd (get_installation_token client params w)) = (w_sent w ++ [exchange_request client params jwt])%list.
Proof.
  intros Hw Hs Hj.
  rewrite (get_installation_token_exec client params w jwt Hw Hs Hj
             (bearer_value_ok _ (compact_output _ _ _ _ Hj))).
  split; [reflexivity|]. cbn [snd]. by rewrite record_request_sent, tick_sent.
Qed.

End Bearer.
