(* ===== verification/Manager.v ===== *)
(** * Manager: [InstallationToken] (lib.rs 120-177)

    The credential manager holds the client, the current token, the
    local time it was fetched and the parameters.  A method that takes
    [&mut self] runs on [Sys = InstallationToken * World]: the first
    component is [self], the second the environment of World.v.
    - [new] (lib.rs 137-150): build the client with the caller's user
      agent, run one exchange, then read the clock for [fetch_time];
    - [refresh] (lib.rs 164-176): read the clock, compute the elapsed
      time since [fetch_time] ([TimeError] when the clock is earlier);
      when more than [55 * 60] whole seconds have elapsed, log, run one
      exchange and, after it succeeded, assign [token] and then
      [fetch_time] (a new clock reading);
    - [header] (lib.rs 156-162): [refresh()?], then the map
      [authorization: token <token>] ([InvalidHeaderValue] when the
      token is not a valid header value).

    Theorems: [refresh_due_iff] (the threshold in nanoseconds),
    [header_fresh] / [header_stale] (the behaviour on each side of it),
    [header_clock_backwards], [header_error_keeps_self] (failure
    isolation), [header_keeps_config], and the invariant of the states
    reachable from [new] ([reachable_inv]). *)

From S2P Require Import Prelude Time Http World Decimal Jwt Chrono Json Token Auth Exchange.

Module Manager.
Import Time Http World Jwt Token Auth Exchange.
Local Open Scope string_scope.

(** [pub struct InstallationToken] *)
Record InstallationToken := mkInstallationToken {
  client : Client;
  token : string;
  fetch_time : SystemTime;
  params : GithubAuthParams
}.

Definition set_token (t : string) (s : InstallationToken) : InstallationToken :=
  mkInstallationToken (client s) t (fetch_time s) (params s).

Definition set_fetch_time (t : SystemTime) (s : InstallationToken) : InstallationToken :=
  mkInstallationToken (client s) (token s) t (params s).

(** [55 * 60]: refresh after 55 minutes. *)
Definition REFRESH_AFTER_SECS : Z := 55 * 60.

(** [&mut self] together with the environment. *)
Definition Sys : Type := InstallationToken * World.

Definition in_world {A} (m : Eff World AuthError A) : Eff Sys AuthError A :=
  eff_zoom snd (fun w s => (fst s, w)) m.

Definition self_get : Eff Sys AuthError InstallationToken := fun s => (Ok (fst s), s).

Definition self_update (f : InstallationToken -> InstallationToken) : Eff Sys AuthError unit :=
  fun s => (Ok tt, (f (fst s), snd s)).

(** [reqwest::blocking::Client::builder().user_agent(&params.user_agent).build()] *)
Definition build_client (params : GithubAuthParams) : result Client Http.ReqwestError :=
  cb_build (cb_user_agent (user_agent params) Client_builder).

(** [format!("token {}", self.token)] *)
Definition auth_value (tok : string) : string := "token " ++ tok.

Section WithEncoder.
Context {enc : JwtEncoder}.

  (** [InstallationToken::new(params)] *)
Definition new (params : GithubAuthParams) : Eff World AuthError InstallationToken :=
    (client <- eff_try ReqwestError (build_client params) ;;
     raw <- get_installation_token client params ;;
     t <- now ;;
     eff_ret (mkInstallationToken client (Token.token raw) t params))%eff.

  (** [InstallationToken::refresh(&mut self)] *)
Definition refresh : Eff Sys AuthError unit :=
    (self <- self_get ;;
     t <- in_world now ;;
     elapsed <- eff_try TimeError (duration_since t (fetch_time self)) ;;
     if (REFRESH_AFTER_SECS <? as_secs elapsed)%Z then
       in_world (log_info "refreshing installation token") ;;
       raw <- in_world (get_installation_token (client self) (params self)) ;;
       self_update (set_token (Token.token raw)) ;;
       t' <- in_world now ;;
       self_update (set_fetch_time t')
     else eff_ret tt)%eff.

  (** [InstallationToken::header(&mut self)] *)
Definition header : Eff Sys AuthError HeaderMap :=
    (refresh ;;
     self <- self_get ;;
     let headers := HeaderMap_new in
     let val := auth_value (token self) in
     v <- eff_try InvalidHeaderValue (HeaderValue_from_str val) ;;
     eff_ret (hm_insert (HeaderName_from_static "Authorization") v headers))%eff.
End WithEncoder.

(** ** Theorems *)

(** The client [new] builds for a user agent. *)
Definition configured_client (ua : string) : Client :=
  mkClient (hm_insert USER_AGENT ua [(ACCEPT, "*/*")]).

Lemma build_client_Ok params :
  header_value_ok (user_agent params) = true ->
  build_client params = Ok (configured_client (user_agent params)).
Proof.
  intros H. unfold build_client, cb_user_agent, HeaderValue_from_str. by rewrite H.
Qed.

Lemma build_client_Err params :
  header_value_ok (user_agent params) = false ->
  build_client params = Err builder_error.
Proof.
  intros H. unfold build_client, cb_user_agent, HeaderValue_from_str. by rewrite H.
Qed.

(** The map [header] builds from a token. *)
Definition auth_header (tok : string) : result HeaderMap AuthError :=
  match HeaderValue_from_str (auth_value tok) with
  | Ok v => Ok [(AUTHORIZATION, v)]
  | Err e => Err (InvalidHeaderValue e)
  end.

Lemma in_world_run {A} (m : Eff World AuthError A) self w :
  in_world m (self, w) = (fst (m w), (self, snd (m w))).
Proof. unfold in_world, eff_zoom. cbn [fst snd]. destruct (m w); reflexivity. Qed.

(** The refresh threshold in nanoseconds: [elapsed.as_secs() > 55 * 60]
    holds exactly when at least 3301 whole seconds have elapsed. *)
Lemma refresh_due_iff (now fetch : SystemTime) d :
  time_wf now = true -> time_wf fetch = true -> duration_since now fetch = Ok d ->
  (REFRESH_AFTER_SECS <? as_secs d)%Z = true <->
  (to_nanos fetch + 3301 * NSEC_PER_SEC <= to_nanos now)%Z.
Proof.
  intros Hn Hf Hd. rewrite (as_secs_duration_since now fetch d Hn Hf Hd), Z.ltb_lt.
  unfold REFRESH_AFTER_SECS, NSEC_PER_SEC.
  pose proof (Z.div_mod (to_nanos now - to_nanos fetch) 1000000000 ltac:(lia)).
  pose proof (Z.mod_pos_bound (to_nanos now - to_nanos fetch) 1000000000 ltac:(lia)).
  lia.
Qed.

Section WithEncoder.
Context {enc : JwtEncoder}.

Lemma header_refresh_Ok s s' :
    refresh s = (Ok tt, s') -> header s = (auth_header (token (fst s')), s').
  Proof.
    intros H. unfold header. erewrite eff_bind_Ok by exact H.
    destruct s' as [self' w']. unfold self_get, eff_bind, eff_try, auth_header. cbn.
    by destruct (HeaderValue_from_str (auth_value (token self'))).
  Qed.

Lemma header_refresh_Err s e s' :
    refresh s = (Err e, s') -> header s = (Err e, s').
  Proof. intros H. unfold header. by erewrite eff_bind_Err by exact H. Qed.

  (** The whole behaviour of [refresh] (lib.rs 164-176) on one state. *)
Lemma refresh_run self w :
    refresh (self, w) =
    match duration_since (clock_now w) (fetch_time self) with
    | Err e => (Err (TimeError e), (self, tick w))
    | Ok d =>
        if (REFRESH_AFTER_SECS <? as_secs d)%Z then
          match get_installation_token (client self) (params self)
                  (record_log "refreshing installation token" (tick w)) with
          | (Ok raw, w2) =>
              (Ok tt, (set_fetch_time (clock_now w2) (set_token (Token.token raw) self), tick w2))
          | (Err e, w2) => (Err e, (self, w2))
          end
        else (Ok tt, (self, tick w))
    end.
  Proof.
    unfold refresh, self_get, eff_bind at 1. cbn [fst].
    unfold eff_bind at 1. rewrite in_world_run. cbn [fst snd now].
    unfold eff_bind at 1, eff_try.
    destruct (duration_since _ _) as [d|e]; cbn [map_err]; [|reflexivity].
    destruct (_ <? _)%Z; [|reflexivity].
    unfold eff_bind at 1. rewrite in_world_run. cbn [fst snd log_info].
    unfold eff_bind at 1. rewrite in_world_run.
    destruct (get_installation_token _ _ _) as [[raw|e] w2]; cbn [fst snd]; [|reflexivity].
    unfold eff_bind, self_update. cbn [fst snd]. rewrite in_world_run. reflexivity.
  Qed.

  (** Fresh token: [refresh] reads the clock once and changes nothing. *)
Lemma refresh_fresh self w :
    clock_wf w -> time_wf (fetch_time self) = true ->
    (to_nanos (fetch_time self) <= to_nanos (clock_now w))%Z ->
    (to_nanos (clock_now w) < to_nanos (fetch_time self) + 3301 * NSEC_PER_SEC)%Z ->
    refresh (self, w) = (Ok tt, (self, tick w)).
  Proof.
    intros Hw Hf Hle Hlt. rewrite refresh_run.
    destruct (duration_since_Ok (clock_now w) (fetch_time self) (clock_now_wf w Hw) Hf Hle)
      as (d & Hd & _).
    rewrite Hd. destruct (REFRESH_AFTER_SECS <? as_secs d)%Z eqn:E; [|done].
    apply (refresh_due_iff _ _ d (clock_now_wf w Hw) Hf Hd) in E. lia.
  Qed.

  (** Stale token: [refresh] logs, runs one exchange, and on success
      assigns the new token and then a new clock reading; on failure
      [self] is left as it was. *)
Lemma refresh_stale self w :
    clock_wf w -> time_wf (fetch_time self) = true ->
    (to_nanos (fetch_time self) + 3301 * NSEC_PER_SEC <= to_nanos (clock_now w))%Z ->
    refresh (self, w) =
      match get_installation_token (client self) (params self)
              (record_log "refreshing installation token" (tick w)) with
      | (Ok raw, w2) =>
          (Ok tt, (set_fetch_time (clock_now w2) (set_token (Token.token raw) self), tick w2))
      | (Err e, w2) => (Err e, (self, w2))
      end.
  Proof.
    intros Hw Hf Hge. rewrite refresh_run.
    assert (Hle : (to_nanos (fetch_time self) <= to_nanos (clock_now w))%Z)
      by (unfold NSEC_PER_SEC in *; lia).
    destruct (duration_since_Ok (clock_now w) (fetch_time self) (clock_now_wf w Hw) Hf Hle)
      as (d & Hd & _).
    rewrite Hd. destruct (REFRESH_AFTER_SECS <? as_secs d)%Z eqn:E; [done|].
    apply not_true_iff_false in E.
    rewrite (refresh_due_iff _ _ d (clock_now_wf w Hw) Hf Hd) in E. lia.
  Qed.

  (** A clock earlier than [fetch_time] fails [refresh] with
      [TimeError] and changes nothing of [self]. *)
Lemma refresh_clock_backwards self w :
    clock_wf w -> time_wf (fetch_time self) = true ->
    (to_nanos (clock_now w) < to_nanos (fetch_time self))%Z ->
    exists e, refresh (self, w) = (Err (TimeError e), (self, tick w)).
  Proof.
    intros Hw Hf Hlt. rewrite refresh_run.
    destruct (proj2 (duration_since_Err_iff (clock_now w) (fetch_time self)
                       (clock_now_wf w Hw) Hf) Hlt) as [e He].
    rewrite He. eauto.
  Qed.

  (** Every run of [refresh], whatever the clock and the remote do:
      either [self] is unchanged, or exactly its token and then its fetch
      time were assigned (on success only). *)
Lemma refresh_shape self w :
    (exists w', refresh (self, w) = (Ok tt, (self, w'))) \/
    (exists tok t w', refresh (self, w) = (Ok tt, (set_fetch_time t (set_token tok self), w'))) \/
    (exists e w', refresh (self, w) = (Err e, (self, w'))).
  Proof.
    rewrite refresh_run.
    destruct (duration_since _ _) as [d|e]; [|eauto 6].
    destruct (_ <? _)%Z; [|eauto].
    destruct (get_installation_token _ _ _) as [[raw|e] w2]; eauto 8.
  Qed.

  (** C5: Failure isolation: a failed [refresh] leaves [self] as it was. *)
Lemma refresh_error_keeps_self self w e self' w' :
    refresh (self, w) = (Err e, (self', w')) -> self' = self.
  Proof.
    intros H. destruct (refresh_shape self w) as [(w1 & H1)|[(tok & t & w1 & H1)|(e1 & w1 & H1)]];
      rewrite H1 in H; congruence.
  Qed.

  (** [header] never changes the client or the parameters. *)
Lemma header_keeps_config self w r self' w' :
    header (self, w) = (r, (self', w')) ->
    client self' = client self /\ params self' = params self.
  Proof.
    intros H. destruct (refresh_shape self w) as [(w1 & H1)|[(tok & t & w1 & H1)|(e1 & w1 & H1)]].
    - rewrite (header_refresh_Ok _ _ H1) in H. injection H as _ <- _. done.
    - rewrite (header_refresh_Ok _ _ H1) in H. injection H as _ <- _. done.
    - rewrite (header_refresh_Err _ _ _ H1) in H. injection H as _ <- _. done.
  Qed.

  (** C24: A failed [header] keeps the previous token and fetch time, unless
      the refresh itself succeeded and only the new token could not be
      made a header value: then the new token is stored. *)
Lemma header_error_self self w e self' w' :
    header (self, w) = (Err e, (self', w')) ->
    self' = self \/
    (exists tok t ie, self' = set_fetch_time t (set_token tok self) /\
       HeaderValue_from_str (auth_value tok) = Err ie /\ e = InvalidHeaderValue ie).
  Proof.
    intros H. destruct (refresh_shape self w) as [(w1 & H1)|[(tok & t & w1 & H1)|(e1 & w1 & H1)]].
    - rewrite (header_refresh_Ok _ _ H1) in H. injection H as _ <- _. by left.
    - rewrite (header_refresh_Ok _ _ H1) in H. right. exists tok, t.
      revert H. unfold auth_header. cbn [fst token set_fetch_time set_token].
      destruct (HeaderValue_from_str (auth_value tok)) as [v|ie]; [discriminate|].
      intros [= <- <- _]. eauto.
    - rewrite (header_refresh_Err _ _ _ H1) in H. injection H as _ <- _. by left.
  Qed.

  (** C3: [header] on a fresh token: no exchange, one clock reading, and the
      map [authorization: token <token>] of the stored token. *)
Lemma header_fresh self w :
    clock_wf w -> time_wf (fetch_time self) = true ->
    (to_nanos (fetch_time self) <= to_nanos (clock_now w))%Z ->
    (to_nanos (clock_now w) < to_nanos (fetch_time self) + 3301 * NSEC_PER_SEC)%Z ->
    header (self, w) = (auth_header (token self), (self, tick w)).
  Proof.
    intros Hw Hf Hle Hlt. apply (header_refresh_Ok (self, w) (self, tick w)).
    by apply refresh_fresh.
  Qed.

  (** C4: [header] on a stale token: one exchange; on success the map of the
      new token, with the token and the fetch time replaced; on failure
      the exchange's error, with [self] unchanged. *)
Lemma header_stale self w :
    clock_wf w -> time_wf (fetch_time self) = true ->
    (to_nanos (fetch_time self) + 3301 * NSEC_PER_SEC <= to_nanos (clock_now w))%Z ->
    header (self, w) =
      match get_installation_token (client self) (params self)
              (record_log "refreshing installation token" (tick w)) with
      | (Ok raw, w2) =>
          (auth_header (Token.token raw),
           (set_fetch_time (clock_now w2) (set_token (Token.token raw) self), tick w2))
      | (Err e, w2) => (Err e, (self, w2))
      end.
  Proof.
    intros Hw Hf Hge. pose proof (refresh_stale self w Hw Hf Hge) as H.
    destruct (get_installation_token _ _ _) as [[raw|e] w2].
    - by rewrite (header_refresh_Ok _ _ H).
    - by rewrite (header_refresh_Err _ _ _ H).
  Qed.

  (** [InstallationToken::new]: with a valid user agent, one exchange and
      then a clock reading for [fetch_time]; any error of the exchange is
      returned and no manager exists. *)
Lemma new_run params w :
    header_value_ok (user_agent params) = true ->
    new params w =
      match get_installation_token (configured_client (user_agent params)) params w with
      | (Ok raw, w1) =>
          (Ok (mkInstallationToken (configured_client (user_agent params)) (Token.token raw)
                 (clock_now w1) params), tick w1)
      | (Err e, w1) => (Err e, w1)
      end.
  Proof.
    intros Hua. unfold new, eff_bind at 1, eff_try at 1.
    rewrite (build_client_Ok params Hua). cbn [map_err].
    unfold eff_bind. destruct (get_installation_token _ _ _) as [[raw|e] w1]; reflexivity.
  Qed.

  (** C28: An invalid user agent fails [new] before any request or clock
      reading. *)
Lemma new_bad_user_agent params w :
    header_value_ok (user_agent params) = false ->
    new params w = (Err (ReqwestError builder_error), w).
  Proof.
    intros Hua. unfold new, eff_bind at 1, eff_try at 1.
    by rewrite (build_client_Err params Hua).
  Qed.

  (** The states a program can hold: those [new] returns, and those
      [header] leaves, whatever it returned. *)
Inductive reachable (p : GithubAuthParams) : InstallationToken -> Prop :=
  | reach_new w w' it : new p w = (Ok it, w') -> reachable p it
  | reach_header it w r it' w' :
      reachable p it -> header (it, w) = (r, (it', w')) -> reachable p it'.

  (** The invariant of the reachable states: the parameters are the ones
      given to [new], the user agent is a valid header value, and the
      client is the one [new] configured with it. *)
Definition config_inv (p : GithubAuthParams) (it : InstallationToken) : Prop :=
    params it = p /\ header_value_ok (user_agent p) = true /\
    client it = configured_client (user_agent p).

Lemma new_Ok_config p w it w' : new p w = (Ok it, w') -> config_inv p it.
  Proof.
    intros H. destruct (header_value_ok (user_agent p)) eqn:Hua.
    - rewrite (new_run p w Hua) in H.
      destruct (get_installation_token _ _ _) as [[raw|e] w1]; [|discriminate].
      injection H as <- _. done.
    - unfold new, eff_bind at 1, eff_try at 1 in H.
      by rewrite (build_client_Err p Hua) in H.
  Qed.

  (** C21: [new] returns a manager exactly when the user agent is a valid
      header value and the exchange succeeded; the manager then holds the
      exchanged token, the clock reading taken after the exchange, the
      client configured with the user agent, and the parameters. *)
Lemma new_Ok_spec params w it w' :
    new params w = (Ok it, w') <->
    header_value_ok (user_agent params) = true /\
    exists raw w1,
      get_installation_token (configured_client (user_agent params)) params w = (Ok raw, w1) /\
      it = mkInstallationToken (configured_client (user_agent params)) (Token.token raw)
             (clock_now w1) params /\
      w' = tick w1.
  Proof.
    destruct (header_value_ok (user_agent params)) eqn:Hua.
    - rewrite (new_run params w Hua).
      destruct (get_installation_token _ _ _) as [[raw|e] w1].
      + split.
        * intros [= <- <-]. split; [done|]. eauto.
        * intros (_ & raw' & w1' & [= <- <-] & -> & ->). done.
      + split; [discriminate|]. intros (_ & raw' & w1' & [=] & _).
    - split; [|by intros []].
      unfold new, eff_bind at 1, eff_try at 1. by rewrite (build_client_Err params Hua).
  Qed.

  (** C23: [header] with a clock earlier than [fetch_time]: [TimeError], no
      exchange, and [self] unchanged, for as long as the clock stays
      behind. *)
Lemma header_clock_backwards self w :
    clock_wf w -> time_wf (fetch_time self) = true ->
    (to_nanos (clock_now w) < to_nanos (fetch_time self))%Z ->
    exists e, header (self, w) = (Err (TimeError e), (self, tick w)).
  Proof.
    intros Hw Hf Hlt. destruct (refresh_clock_backwards self w Hw Hf Hlt) as [e He].
    exists e. by apply header_refresh_Err.
  Qed.

  (** C7: The refresh is observable in the log: [header] records
      [refreshing installation token] exactly when at least 3301 whole
      seconds have elapsed since [fetch_time], so 3300 seconds and any
      fraction of a second more do not refresh. *)
Lemma header_logs_refresh_iff self w r self' w' :
    clock_wf w -> time_wf (fetch_time self) = true ->
    (to_nanos (fetch_time self) <= to_nanos (clock_now w))%Z ->
    header (self, w) = (r, (self', w')) ->
    (w_log w' = (w_log w ++ ["refreshing installation token"])%list <->
     (to_nanos (fetch_time self) + 3301 * NSEC_PER_SEC <= to_nanos (clock_now w))%Z).
  Proof.
    intros Hw Hf Hle H.
    destruct (Z.lt_ge_cases (to_nanos (clock_now w))
                (to_nanos (fetch_time self) + 3301 * NSEC_PER_SEC)) as [Hlt|Hge].
    - rewrite (header_refresh_Ok (self, w) (self, tick w) (refresh_fresh self w Hw Hf Hle Hlt)) in H.
      injection H as _ _ <-. split; [|lia].
      intros Hl. apply (f_equal (@List.length string)) in Hl.
      rewrite length_app in Hl. cbn in Hl. lia.
    - split; [done|intros _].
      pose proof (refresh_stale self w Hw Hf Hge) as Hr.
      pose proof (proj2 (get_installation_token_frame (client self) (params self)
                    (record_log "refreshing installation token" (tick w)))) as Hl.
      destruct (get_installation_token _ _ _) as [[raw|e] w2].
      + rewrite (header_refresh_Ok _ _ Hr) in H. injection H as _ _ <-. done.
      + rewrite (header_refresh_Err _ _ _ Hr) in H. injection H as _ _ <-. done.
  Qed.

  (** C14: Invariant of every reachable state, by induction on the
      reachability derivation. *)
Lemma reachable_inv p it : reachable p it -> config_inv p it.
  Proof.
    induction 1 as [w w' it Hnew|it w r it' w' _ IH Hh].
    - by eapply new_Ok_config.
    - destruct IH as (Hp & Hua & Hc).
      destruct (header_keeps_config _ _ _ _ _ Hh) as [Hc' Hp'].
      repeat split; congruence.
  Qed.

  (** C25: With an encoder that checks key families, [new] never returns a
      manager: the [from_secret] key is refused for RS256. *)
Lemma new_family_checked `{!FamilyChecked enc} params w :
    clock_wf w -> (0 <= tv_sec (clock_now w))%Z ->
    header_value_ok (user_agent params) = true ->
    new params w = (Err (JwtError (mkError InvalidAlgorithm)), tick w).
  Proof.
    intros Hw Hs Hua. rewrite (new_run params w Hua).
    by rewrite get_installation_token_family_checked.
  Qed.
  (** [header] keeps [fetch_time] a valid [Timespec]: it is either kept
      or a reading of the same clock. *)
Lemma header_fetch_time_wf self w r self' w' :
    clock_wf w -> time_wf (fetch_time self) = true ->
    header (self, w) = (r, (self', w')) -> time_wf (fetch_time self') = true.
  Proof.
    intros Hw Hf H.
    destruct (Z.lt_ge_cases (to_nanos (clock_now w)) (to_nanos (fetch_time self))) as [Hb|Hle].
    - destruct (refresh_clock_backwards self w Hw Hf Hb) as [e He].
      rewrite (header_refresh_Err _ _ _ He) in H. by injection H as _ <- _.
    - destruct (Z.lt_ge_cases (to_nanos (clock_now w))
                  (to_nanos (fetch_time self) + 3301 * NSEC_PER_SEC)) as [Hlt|Hge].
      + rewrite (header_refresh_Ok (self, w) (self, tick w)
                   (refresh_fresh self w Hw Hf Hle Hlt)) in H.
        by injection H as _ <- _.
      + pose proof (refresh_stale self w Hw Hf Hge) as Hr.
        pose proof (proj1 (get_installation_token_frame (client self) (params self)
                      (record_log "refreshing installation token" (tick w)))) as Hc.
        destruct (get_installation_token _ _ _) as [[raw|e] w2];
          [rewrite (header_refresh_Ok _ _ Hr) in H|rewrite (header_refresh_Err _ _ _ Hr) in H];
          injection H as _ <- _; [|done].
        cbn in Hc |- *. unfold clock_now. rewrite Hc. apply Hw.
  Qed.

  (** [new] reads [fetch_time] from the same clock. *)
Lemma new_fetch_time_wf p w it w' :
    clock_wf w -> new p w = (Ok it, w') -> time_wf (fetch_time it) = true.
  Proof.
    intros Hw H. destruct (header_value_ok (user_agent p)) eqn:Hua.
    - rewrite (new_run p w Hua) in H.
      pose proof (proj1 (get_installation_token_frame (configured_client (user_agent p)) p w)) as Hc.
      destruct (get_installation_token _ _ _) as [[raw|e] w1]; [|discriminate].
      injection H as <- _. cbn in Hc |- *. unfold clock_now. rewrite Hc. apply Hw.
    - unfold new, eff_bind at 1, eff_try at 1 in H. by rewrite (build_client_Err p Hua) in H.
  Qed.
End WithEncoder.
End Manager.
