(* ===== verification/Session.v ===== *)
(** * Session: a program's use of one [InstallationToken]

    A session is [InstallationToken::new] followed by any number of
    [header] calls, the environment (clock, remote, log) changing freely
    between calls but the wire trace continuing ([session]).  Over a
    whole session:
    - safety ([session_safety]): every request the crate puts on the
      wire is the exchange request of the session's parameters (a POST
      to its installation's [access_tokens] URL from the client [new]
      configured), and there are at most as many requests as calls;
    - recovery ([header_recovers]): whatever happened before, a call on
      a stale token whose exchange the remote answers with a decodable
      token serves that token and stores it with a new fetch time;
    - the state invariant ([header_updates_together]): token and fetch
      time change together, and only after a successful exchange;
    - the unused expiry ([header_bad_expiry]): a body with a valid token
      and an [expires_at] with no digit in it fails the refresh with the decode
      error and keeps the old state;
    - the documented use ([client_reuse], lib.rs 25): a request built
      with the token's client and the returned map carries the token and
      the user agent. *)

From S2P Require Import Prelude Time Http World Decimal Jwt Chrono Json JsonWrite Token Decode Auth Exchange Manager.

Module Session.
Import Time Http World Jwt Chrono Token Decode Auth Exchange Manager.
Local Open Scope string_scope.

(** A request the parameters [p] allow on the wire. *)
Definition good_request (p : GithubAuthParams) (req : Request) : Prop :=
  exists jwt, req = exchange_request (configured_client (user_agent p)) p jwt.

(** From [w] to [w'] the wire trace grew by at most [n] requests, each
    allowed by [p]. *)
Definition sent_by (p : GithubAuthParams) (w w' : World) (n : nat) : Prop :=
  exists l, w_sent w' = (w_sent w ++ l)%list /\ (List.length l <= n)%nat /\
    Forall (good_request p) l.

Lemma sent_by_same p w w' n : w_sent w' = w_sent w -> sent_by p w w' n.
Proof. intros E. exists []. rewrite app_nil_r. split; [done|]. split; [cbn; lia|constructor]. Qed.

Lemma sent_by_left p w0 w w' n : w_sent w0 = w_sent w -> sent_by p w w' n -> sent_by p w0 w' n.
Proof. intros E (l & El & Hl & Hf). exists l. rewrite E. auto. Qed.

Lemma sent_by_right p w w1 w' n : w_sent w' = w_sent w1 -> sent_by p w w1 n -> sent_by p w w' n.
Proof. intros E (l & El & Hl & Hf). exists l. rewrite E. auto. Qed.

Lemma sent_by_trans p w1 w2 w3 n m :
  sent_by p w1 w2 n -> sent_by p w2 w3 m -> sent_by p w1 w3 (n + m).
Proof.
  intros (l1 & E1 & H1 & F1) (l2 & E2 & H2 & F2). exists (l1 ++ l2)%list.
  rewrite E2, E1, app_assoc. split; [done|]. rewrite length_app.
  split; [lia|]. by apply Forall_app.
Qed.

Section WithEncoder.
Context {enc : JwtEncoder}.

Lemma exchange_sent p it w :
    config_inv p it ->
    sent_by p w (snd (get_installation_token (client it) (params it) w)) 1.
  Proof.
    intros (Hp & _ & Hc). destruct (get_installation_token_sent (client it) (params it) w)
      as (l & E & Hl & Hf).
    exists l. split; [done|]. split; [done|].
    eapply Forall_impl; [exact Hf|]. intros req (claims & jwt & _ & _ & ->). exists jwt.
    by rewrite Hc, Hp.
  Qed.

Lemma refresh_sent p it w r s' :
    config_inv p it -> refresh (it, w) = (r, s') -> sent_by p w (snd s') 1.
  Proof.
    intros Hi H. rewrite refresh_run in H.
    destruct (duration_since _ _) as [d|e]; [|injection H as _ <-; by apply sent_by_same].
    destruct (_ <? _)%Z; [|injection H as _ <-; by apply sent_by_same].
    pose proof (exchange_sent p it (record_log "refreshing installation token" (tick w)) Hi) as Hs.
    apply (sent_by_left _ w) in Hs; [|done].
    destruct (get_installation_token _ _ _) as [[raw|e] w2];
      injection H as _ <-; [|exact Hs].
    by apply (sent_by_right _ _ w2).
  Qed.

Lemma header_sent p it w r it' w' :
    config_inv p it -> header (it, w) = (r, (it', w')) -> sent_by p w w' 1.
  Proof.
    intros Hi H. destruct (refresh (it, w)) as [[[]|e] s'] eqn:Er.
    - rewrite (header_refresh_Ok _ _ Er) in H. injection H as _ E.
      pose proof (refresh_sent p it w _ _ Hi Er) as Hs. by rewrite E in Hs.
    - rewrite (header_refresh_Err _ _ _ Er) in H. injection H as _ E.
      pose proof (refresh_sent p it w _ _ Hi Er) as Hs. by rewrite E in Hs.
  Qed.

Lemma new_sent p w r w' : new p w = (r, w') -> sent_by p w w' 1.
  Proof.
    intros H. destruct (header_value_ok (user_agent p)) eqn:Hua.
    - rewrite (new_run p w Hua) in H.
      destruct (get_installation_token_sent (configured_client (user_agent p)) p w)
        as (l & E & Hl & Hf).
      assert (Hs : sent_by p w (snd (get_installation_token (configured_client (user_agent p)) p w)) 1)
        by (exists l; split; [done|]; split; [done|];
            eapply Forall_impl; [exact Hf|]; intros req (claims & jwt & _ & _ & ->); by exists jwt).
      destruct (get_installation_token _ _ _) as [[raw|e] w1];
        injection H as _ <-; [|exact Hs].
      by apply (sent_by_right _ _ w1).
    - unfold new, eff_bind at 1, eff_try at 1 in H. rewrite (build_client_Err p Hua) in H.
      injection H as _ <-. by apply sent_by_same.
  Qed.

  (** A session of [n] calls: [new], then [header] calls on worlds that
      continue the wire trace. *)
Inductive session (p : GithubAuthParams) : World -> InstallationToken -> World -> nat -> Prop :=
  | session_new w it w' : new p w = (Ok it, w') -> session p w it w' 1
  | session_header w0 it w1 n w r it' w' :
      session p w0 it w1 n -> w_sent w = w_sent w1 -> header (it, w) = (r, (it', w')) ->
      session p w0 it' w' (S n).

Lemma session_config p w0 it w n : session p w0 it w n -> config_inv p it.
  Proof.
    induction 1 as [w it w' Hnew|w0 it w1 n w r it' w' _ IH _ Hh].
    - by eapply new_Ok_config.
    - destruct IH as (Hp & Hua & Hc). destruct (header_keeps_config _ _ _ _ _ Hh) as [Hc' Hp'].
      repeat split; congruence.
  Qed.
End WithEncoder.

(** The crate's documented use of the token (lib.rs 25):
    [token.client.post(url).headers(header).send()]. *)
Definition user_post (it : InstallationToken) (url : string) (h : HeaderMap) : RequestBuilder :=
  rb_headers h (client_post (client it) url).

(** C2: Safety of a session: after [new] and any [header] calls, in
    any environment, every request the crate has put on the wire is the
    exchange request of the session's parameters (a POST to its
    installation's token URL, from the client [new] configured, with a
    Bearer JWT), and there are at most as many requests as calls. *)
Theorem session_safety `{enc : JwtEncoder} p w0 it w n :
  session p w0 it w n ->
  exists l, w_sent w = (w_sent w0 ++ l)%list /\ (List.length l <= n)%nat /\
    Forall (good_request p) l.
Proof.
  intros Hs. cut (sent_by p w0 w n); [done|].
  induction Hs as [w it w' Hnew|w0 it w1 n w r it' w' Hs IH Hw Hh].
  - exact (new_sent p w _ w' Hnew).
  - replace (S n) with (n + 1)%nat by lia.
    apply (sent_by_trans _ _ w1); [exact IH|].
    apply (sent_by_left _ _ w); [done|].
    exact (header_sent p it w r it' w' (session_config _ _ _ _ _ Hs) Hh).
Qed.

(** A stale [refresh] whose exchange the remote answers with [resp]:
    the result is what [read_response] makes of the answer, with the
    request on the wire; only a decoded token changes [self]. *)
Lemma refresh_answered `{enc : JwtEncoder} it w jwt resp :
  clock_wf w -> time_wf (fetch_time it) = true ->
  (to_nanos (fetch_time it) + 3301 * NSEC_PER_SEC <= to_nanos (clock_now w))%Z ->
  (0 <= tv_sec (clock_now (tick w)))%Z ->
  jwt_encode jwt_header (claims_json (claims_at (clock_now (tick w)) (params it)))
    (jwt_key (params it)) = Ok jwt ->
  header_value_ok ("Bearer " ++ jwt) = true ->
  w_server w (List.length (w_sent w)) (exchange_request (client it) (params it) jwt) = Some resp ->
  let w2 := record_request (exchange_request (client it) (params it) jwt)
              (tick (record_log "refreshing installation token" (tick w))) in
  refresh (it, w) =
    match read_response resp with
    | Ok raw => (Ok tt, (set_fetch_time (clock_now w2) (set_token (Token.token raw) it), tick w2))
    | Err e => (Err e, (it, w2))
    end.
Proof.
  intros Hw Hf Hstale Hs Hsign Hv Hsrv w2.
  rewrite (refresh_stale it w Hw Hf Hstale).
  rewrite (get_installation_token_exec (client it) (params it)
             (record_log "refreshing installation token" (tick w)) jwt Hw Hs Hsign Hv).
  cbn [w_server record_log tick w_sent]. rewrite Hsrv. reflexivity.
Qed.

(** C10: Recovery: whatever calls failed before, a [header] call
    on a token at least 3301 whole seconds old, whose exchange is signed
    and answered with a success status and a body that decodes to a
    token that is a valid header value, serves that token and stores it
    with the clock reading taken after the exchange. *)
Theorem header_recovers `{enc : JwtEncoder} it w jwt resp body raw :
  clock_wf w -> time_wf (fetch_time it) = true ->
  (to_nanos (fetch_time it) + 3301 * NSEC_PER_SEC <= to_nanos (clock_now w))%Z ->
  (0 <= tv_sec (clock_now (tick w)))%Z ->
  jwt_encode jwt_header (claims_json (claims_at (clock_now (tick w)) (params it)))
    (jwt_key (params it)) = Ok jwt ->
  header_value_ok ("Bearer " ++ jwt) = true ->
  w_server w (List.length (w_sent w)) (exchange_request (client it) (params it) jwt) = Some resp ->
  ~ (400 <= resp_status resp < 600)%Z ->
  resp_body resp = Some body -> from_slice body = Ok raw ->
  header_value_ok (auth_value (Token.token raw)) = true ->
  let w2 := record_request (exchange_request (client it) (params it) jwt)
              (tick (record_log "refreshing installation token" (tick w))) in
  header (it, w) =
    (Ok [(AUTHORIZATION, auth_value (Token.token raw))],
     (set_fetch_time (clock_now w2) (set_token (Token.token raw) it), tick w2)).
Proof.
  intros Hw Hf Hstale Hs Hsign Hv Hsrv Hst Hb Hd Hok w2.
  assert (Hr : refresh (it, w) =
    (Ok tt, (set_fetch_time (clock_now w2) (set_token (Token.token raw) it), tick w2))).
  { rewrite (refresh_answered it w jwt resp Hw Hf Hstale Hs Hsign Hv Hsrv).
    by rewrite (read_response_ok resp body raw Hst Hb Hd). }
  rewrite (header_refresh_Ok _ _ Hr).
  unfold auth_header. cbn [fst token set_fetch_time set_token].
  unfold HeaderValue_from_str. by rewrite Hok.
Qed.

(** C6: The token and the fetch time are updated together, and only
    by a successful exchange: after any [header] call the state is
    either unchanged, or it holds the token of the raw token the one
    exchange of the call returned and, as fetch time, the clock reading
    taken after that exchange. *)
Theorem header_updates_together `{enc : JwtEncoder} self w r self' w' :
  header (self, w) = (r, (self', w')) ->
  self' = self \/
  exists raw w2,
    get_installation_token (client self) (params self)
      (record_log "refreshing installation token" (tick w)) = (Ok raw, w2) /\
    self' = set_fetch_time (clock_now w2) (set_token (Token.token raw) self).
Proof.
  intros H. destruct (refresh (self, w)) as [r1 [s1 w1]] eqn:E.
  assert (Hs : s1 = self' ) by (destruct r1 as [[]|e];
    [rewrite (header_refresh_Ok _ _ E) in H|rewrite (header_refresh_Err _ _ _ E) in H];
    cbn in H; congruence).
  subst s1. rewrite refresh_run in E.
  destruct (duration_since _ _); [|left; congruence].
  destruct (_ <? _)%Z; [|left; congruence].
  destruct (get_installation_token _ _ _) as [[raw|e] w2] eqn:G; [|left; congruence].
  right. exists raw, w2. split; [reflexivity|congruence].
Qed.

(** C11: The expiry is parsed although it is never used: when the
    remote answers a stale token's exchange with a success status and a
    body that holds a valid token but an [expires_at] text with no
    decimal digit (such as [never] or the empty string, which every
    chrono version rejects), [header] fails with the [reqwest] decode
    error, after the request went out, and keeps the old token and
    fetch time, so the next call runs another exchange. *)
Theorem header_bad_expiry `{enc : JwtEncoder} it w jwt resp es s :
  clock_wf w -> time_wf (fetch_time it) = true ->
  (to_nanos (fetch_time it) + 3301 * NSEC_PER_SEC <= to_nanos (clock_now w))%Z ->
  (0 <= tv_sec (clock_now (tick w)))%Z ->
  jwt_encode jwt_header (claims_json (claims_at (clock_now (tick w)) (params it)))
    (jwt_key (params it)) = Ok jwt ->
  header_value_ok ("Bearer " ++ jwt) = true ->
  w_server w (List.length (w_sent w)) (exchange_request (client it) (params it) jwt) = Some resp ->
  ~ (400 <= resp_status resp < 600)%Z ->
  resp_body resp = Some (flat_object es) -> forallb entry_valid es = true ->
  count_key "token" es <= 1 -> count_key "expires_at" es <= 1 ->
  lookup_field "expires_at" es = Some s -> digit_free s = true ->
  let w2 := record_request (exchange_request (client it) (params it) jwt)
              (tick (record_log "refreshing installation token" (tick w))) in
  header (it, w) = (Err (ReqwestError decode_error), (it, w2)).
Proof.
  intros Hw Hf Hstale Hs Hsign Hv Hsrv Hst Hb Hp Ht He Hl Hx w2.
  apply header_refresh_Err.
  rewrite (refresh_answered it w jwt resp Hw Hf Hstale Hs Hsign Hv Hsrv).
  rewrite (read_response_body resp Hst), Hb, (from_slice_flat es Hp Ht He).
  by rewrite (ref_decode_bad_date es s Hl (parse_datetime_digit_free s Hx)).
Qed.

(** C15: The documented use of the token: after a [header] call
    that returned the map [h], a request the program builds with
    [token.client.post(url).headers(h)] for a URL with a scheme goes on
    the wire with [authorization: token <token>] of the stored token and
    the [user-agent] of the parameters. *)
Theorem client_reuse `{enc : JwtEncoder} p it w h it' w' url :
  config_inv p it -> header (it, w) = (Ok h, (it', w')) -> url_parse url = Ok url ->
  exists req, rb_request (user_post it' url h) = Ok req /\
    hm_get AUTHORIZATION (req_headers (with_default_headers (client it') req)) =
      Some (auth_value (token it')) /\
    hm_get USER_AGENT (req_headers (with_default_headers (client it') req)) = Some (user_agent p).
Proof.
  intros (Hp & Hua & Hc) H Hu.
  destruct (header_keeps_config _ _ _ _ _ H) as [Hc' _].
  destruct (refresh (it, w)) as [[[]|e] [it1 w1]] eqn:Er;
    [|rewrite (header_refresh_Err _ _ _ Er) in H; discriminate].
  rewrite (header_refresh_Ok _ _ Er) in H. cbn [fst] in H. injection H as Hh -> ->.
  unfold auth_header in Hh.
  destruct (HeaderValue_from_str (auth_value (token it'))) as [v|] eqn:Hv; [|discriminate].
  injection Hh as <-. unfold HeaderValue_from_str in Hv.
  destruct (header_value_ok (auth_value (token it'))); [|discriminate]. injection Hv as <-.
  unfold user_post, client_post. rewrite Hu. cbn [res_bind rb_headers rb_request rb_client].
  eexists. split; [reflexivity|].
  rewrite Hc', Hc. unfold with_default_headers, configured_client. cbn.
  split; [reflexivity|]. reflexivity.
Qed.

End Session.
