(* ===== verification/Contract.v ===== *)
(** * Contract: what the credential manager promises, and the refinement

    The specification of [InstallationToken::header] (spec section 4.3)
    as an abstract machine: the state is the token and the moment it was
    obtained (nanoseconds since the epoch); a credential request at time
    [now] either
    - serves the stored token, when fewer than 3301 whole seconds have
      elapsed ([a_fresh]), with no exchange;
    - fails with [TimeError] when the clock is before the fetch time
      ([a_clock_back]), with no exchange;
    - runs one exchange otherwise, and either serves the new token and
      replaces both the token and the fetch time by the ones the
      exchange produced, the fetch time being no earlier than the
      request ([a_refresh_ok]), or
      fails with the exchange's error and keeps both ([a_refresh_fail]).
    Serving a token means building [authorization: token <tok>], which
    may itself fail ([present]).

    [header_simulates]: every run of the concrete [header] is one abstract
    step from the abstraction of [self] to the abstraction of the new
    [self], with the same result, and the exchange the step names is the
    one the code ran ([ran_exchange]): its token and time are those of
    one [get_installation_token] on the world of the call, its error
    that exchange's error, and the requests on the wire after the call
    are exactly those of that one exchange (none when the step has no
    exchange).  [runs_refine] extends it to any sequence of calls (a
    forward simulation, in the style of a labelled simulation diagram):
    the abstract run is labelled, and each label is matched with the
    concrete call it stands for ([call_matches]).

    The abstract threshold is the code's: [elapsed.as_secs() > 3300]
    compares whole seconds, so it is 3301 seconds in nanoseconds. *)

From S2P Require Import Prelude Time Http World Decimal Jwt Chrono Json Token Auth Exchange Manager.

Module Contract.
Import Time Http World Jwt Token Auth Exchange Manager.
Local Open Scope Z_scope.

Record AState := mkAState { a_token : string; a_fetched : Z }.

Definition STALE_AFTER_NS : Z := 3301 * NSEC_PER_SEC.

(** The exchange a request ran, and its outcome: a token and the time
    it was obtained, or an error. *)
Inductive AExchange :=
| NoExchange
| ExchangeOk (tok : string) (obtained_at : Z)
| ExchangeFailed (e : AuthError).

Inductive AResult := Present (tok : string) | Fail (e : AuthError).

(** One abstract step's label: the time of the request, the exchange
    and the result. *)
Record ALabel := mkALabel { l_now : Z; l_exchange : AExchange; l_result : AResult }.

Inductive astep : AState -> Z -> AExchange -> AResult -> AState -> Prop :=
| a_fresh s now :
    a_fetched s <= now < a_fetched s + STALE_AFTER_NS ->
    astep s now NoExchange (Present (a_token s)) s
| a_clock_back s now e :
    now < a_fetched s ->
    astep s now NoExchange (Fail (TimeError e)) s
| a_refresh_ok s now tok t' :
    a_fetched s + STALE_AFTER_NS <= now -> now <= t' ->
    astep s now (ExchangeOk tok t') (Present tok) (mkAState tok t')
| a_refresh_fail s now e :
    a_fetched s + STALE_AFTER_NS <= now ->
    astep s now (ExchangeFailed e) (Fail e) s.

(** The header map a result stands for. *)
Definition present (r : AResult) : result HeaderMap AuthError :=
  match r with Present tok => auth_header tok | Fail e => Err e end.

(** The abstraction of a concrete state. *)
Definition abs (it : InstallationToken) : AState :=
  mkAState (token it) (to_nanos (fetch_time it)).

Definition REFRESH_LOG : string := "refreshing installation token".

(** The readings of a world's clock do not go backwards.  Across calls
    the worlds of [runs] are unrelated, so the clock may still jump
    back between two calls ([a_clock_back]). *)
Definition clock_mono (w : World) : Prop :=
  forall i j, (i <= j)%nat -> to_nanos (w_clock w i) <= to_nanos (w_clock w j).

Section WithEncoder.
Context {enc : JwtEncoder}.

  (** The exchange named by the abstract step is the one the code ran
      with the manager's client and parameters, on the world after the
      clock reading and the log record; [w'] is the world after the call,
      whose wire trace is the one that exchange left. *)
Definition ran_exchange (cl : Client) (p : GithubAuthParams) (w w' : World) (x : AExchange) : Prop :=
    match x with
    | NoExchange => w_sent w' = w_sent w
    | ExchangeOk tok t =>
        exists raw w2, get_installation_token cl p (record_log REFRESH_LOG (tick w)) = (Ok raw, w2) /\
                       Token.token raw = tok /\ t = to_nanos (clock_now w2) /\ w_sent w' = w_sent w2
    | ExchangeFailed e =>
        exists w2, get_installation_token cl p (record_log REFRESH_LOG (tick w)) = (Err e, w2) /\
                   w_sent w' = w_sent w2
    end.

  (** On a monotone clock the reading after a refresh exchange is no
      earlier than the reading that started the call. *)
Lemma exchange_after_request self w :
    clock_mono w ->
    to_nanos (clock_now w) <=
      to_nanos (clock_now (snd (get_installation_token (client self) (params self)
                                  (record_log REFRESH_LOG (tick w))))).
  Proof.
    intros Hm. pose proof (get_installation_token_frame (client self) (params self)
                             (record_log REFRESH_LOG (tick w))) as [Hc _].
    pose proof (get_installation_token_reads (client self) (params self)
                  (record_log REFRESH_LOG (tick w))) as Hr.
    unfold clock_now at 2. rewrite Hc. cbn in Hr |- *. apply Hm. lia.
  Qed.

  (** One call is one abstract step. *)
Lemma header_simulates self w r self' w' :
    clock_wf w -> clock_mono w -> time_wf (fetch_time self) = true ->
    header (self, w) = (r, (self', w')) ->
    exists x ar,
      astep (abs self) (to_nanos (clock_now w)) x ar (abs self') /\ r = present ar /\
      ran_exchange (client self) (params self) w w' x.
  Proof.
    intros Hw Hm Hf H.
    destruct (Z.lt_ge_cases (to_nanos (clock_now w)) (to_nanos (fetch_time self))) as [Hb|Hle].
    - destruct (refresh_clock_backwards self w Hw Hf Hb) as [e He].
      rewrite (header_refresh_Err _ _ _ He) in H. injection H as <- <- <-.
      exists NoExchange, (Fail (TimeError e)).
      split; [by constructor|]. split; [done|]. apply tick_sent.
    - destruct (Z.lt_ge_cases (to_nanos (clock_now w))
                  (to_nanos (fetch_time self) + 3301 * NSEC_PER_SEC)) as [Hlt|Hge].
      + rewrite (header_refresh_Ok (self, w) (self, tick w)
                   (refresh_fresh self w Hw Hf Hle Hlt)) in H.
        injection H as <- <- <-.
        exists NoExchange, (Present (token self)).
        split; [by constructor|]. split; [done|]. apply tick_sent.
      + pose proof (refresh_stale self w Hw Hf Hge) as Hr.
        pose proof (exchange_after_request self w Hm) as Ht.
        destruct (get_installation_token _ _ _) as [[raw|e] w2] eqn:Ex;
          [rewrite (header_refresh_Ok _ _ Hr) in H|rewrite (header_refresh_Err _ _ _ Hr) in H];
          injection H as <- <- <-.
        * exists (ExchangeOk (Token.token raw) (to_nanos (clock_now w2))),
            (Present (Token.token raw)).
          split; [by constructor|]. split; [done|].
          exists raw, w2. split; [exact Ex|]. split; [done|]. split; [done|]. apply tick_sent.
        * exists (ExchangeFailed e), (Fail e).
          split; [by constructor|]. split; [done|]. by exists w2.
  Qed.

  (** One call of a sequence: the world it ran on, its result and the
      world after it. *)
Record Call := mkCall { c_world : World; c_result : result HeaderMap AuthError; c_after : World }.

  (** Sequences of calls, each on a world whose clock readings are valid. *)
Inductive runs : InstallationToken -> list Call -> InstallationToken -> Prop :=
  | runs_nil it : runs it [] it
  | runs_step it c it' cs it'' :
      clock_wf (c_world c) -> clock_mono (c_world c) ->
      header (it, c_world c) = (c_result c, (it', c_after c)) -> runs it' cs it'' ->
      runs it (c :: cs) it''.

  (** A concrete call and the abstract label that stands for it. *)
Definition call_matches (cl : Client) (p : GithubAuthParams) (c : Call) (l : ALabel) : Prop :=
    l_now l = to_nanos (clock_now (c_world c)) /\ c_result c = present (l_result l) /\
    ran_exchange cl p (c_world c) (c_after c) (l_exchange l).
End WithEncoder.

Inductive aruns : AState -> list ALabel -> AState -> Prop :=
| aruns_nil s : aruns s [] s
| aruns_step s l s' ls s'' :
    astep s (l_now l) (l_exchange l) (l_result l) s' -> aruns s' ls s'' -> aruns s (l :: ls) s''.

(** C1: Refinement of any sequence of calls: from a valid fetch time,
    every sequence of [header] calls (each on a world whose clock gives
    valid and non-decreasing readings) is matched, call by call, by a
    labelled run of the abstract machine [astep] from [abs] of the first
    state to [abs] of the last: each label has the call's time and
    result, and its exchange is the one [get_installation_token] gives
    with the manager's client and parameters on that call's world (the
    token the abstract state takes is that exchange's token), with the
    requests of that one exchange, and none without an exchange, on the
    wire. *)
Theorem runs_refine `{enc : JwtEncoder} it cs it' :
  time_wf (fetch_time it) = true -> runs it cs it' ->
  exists ls, aruns (abs it) ls (abs it') /\ Forall2 (call_matches (client it) (params it)) cs ls.
Proof.
  intros Hf Hr. revert Hf. induction Hr as [it|it c it' cs it'' Hw Hm Hh _ IH]; intros Hf.
  - exists []. split; constructor.
  - destruct (header_simulates it _ _ it' _ Hw Hm Hf Hh) as (x & ar & Hs & Hres & Hx).
    destruct (IH (header_fetch_time_wf it _ _ it' _ Hw Hf Hh)) as (ls & Ha & Hm').
    destruct (header_keeps_config it _ _ it' _ Hh) as [Hc Hp]. rewrite Hc, Hp in Hm'.
    exists (mkALabel (to_nanos (clock_now (c_world c))) x ar :: ls).
    split; [econstructor; eauto|]. constructor; [|exact Hm']. by repeat split.
Qed.

End Contract.
