(* ===== verification/Scenario.v ===== *)
(** * Scenario: concrete runs of the crate

    Stub collaborators, as the spec's end-to-end scenario describes:
    - [stub_encoder]: the JWS layout without family check ([Jwt.jws_unchecked]) with
      a fixed signature, so that the exchange can succeed;
    - [clock0]: readings one second apart, then 56 minutes later from
      the fourth reading on;
    - [server0]: answers the first request with token [T1] and every
      later one with [T2].
    [run_new], [run_h1] and [run_h2] run [new], [header], [header]: the
    first header uses [T1] without a second exchange, the second
    refreshes once and uses [T2].  The lemmas of this file apply the
    development's theorems to these runs (and to worlds where the remote fails, the
    clock is wrong, or the remote sends a token that is not a header
    value). *)

From S2P Require Import Prelude Time Http World Decimal Jwt Base64 Chrono Json JsonWrite Token Decode Auth Exchange Bearer Manager Session Contract.

Module Scenario.
Import Time Http World Jwt Chrono Token Decode Auth Exchange Bearer Manager Session Contract.
Local Open Scope string_scope.

Definition stub_sign : Algorithm -> EncodingKey -> string -> result string Jwt.Error :=
  fun _ _ _ => Ok "c2lnbmF0dXJl".

#[local] Instance stub_encoder : JwtEncoder := jws_unchecked stub_sign.

Definition params0 : GithubAuthParams :=
  mkGithubAuthParams "my-cool-user-agent" (list_byte_of_string "my private key") 5678 1234.

Definition T0 : Z := 1600000000.

(** Readings 0, 1, 2 one second apart; from reading 3 on, 56 minutes
    after the first. *)
Definition clock0 (n : nat) : SystemTime :=
  match n with
  | O => mkSystemTime T0 0
  | 1%nat => mkSystemTime (T0 + 1) 0
  | 2%nat => mkSystemTime (T0 + 2) 0
  | _ => mkSystemTime (T0 + 3360) 0
  end.

Definition token_body (tok : string) : string :=
  "{" ++ json_quote "token" ++ ":" ++ json_quote tok ++ "," ++
  json_quote "expires_at" ++ ":" ++ json_quote "2016-07-11T22:14:10Z" ++ "}".

Definition server0 (n : nat) (req : Request) : option Response :=
  Some (mkResponse (req_url req) 201 (Some (token_body (if (n =? 0)%nat then "T1" else "T2")))).

Definition world0 : World := mkWorld clock0 0 server0 [] [].

Lemma clock0_wf : forall n, time_wf (clock0 n) = true.
Proof.
  intros [|[|[|n]]]; reflexivity.
Qed.

Lemma world0_clock_wf : clock_wf world0.
Proof. intros n. apply clock0_wf. Qed.

(** ** The run of the spec's scenario *)

Definition run_new : result InstallationToken AuthError * World := new params0 world0.

Definition it0 : InstallationToken :=
  mkInstallationToken (configured_client "my-cool-user-agent") "T1" (mkSystemTime (T0 + 1) 0) params0.

Definition w1 : World := snd run_new.

Lemma run_new_eq : run_new = (Ok it0, w1).
Proof. vm_compute. reflexivity. Qed.

Definition run_h1 : result HeaderMap AuthError * Sys := header (it0, w1).
Definition w2 : World := snd (snd run_h1).

Definition run_h2 : result HeaderMap AuthError * Sys := header (it0, w2).
Definition it2 : InstallationToken := fst (snd run_h2).
Definition w3 : World := snd (snd run_h2).

(** ** Other worlds *)

Lemma clock_wf_of w : w_clock w = clock0 -> clock_wf w.
Proof. intros H n. rewrite H. apply clock0_wf. Qed.

Lemma clock_mono_of w : w_clock w = clock0 -> clock_mono w.
Proof.
  intros H i j Hij. rewrite H. unfold to_nanos, NSEC_PER_SEC, T0.
  destruct i as [|[|[|i]]], j as [|[|[|j]]]; cbn; lia.
Qed.

Definition NL : string := String (ascii_of_nat 10) EmptyString.

(** The remote answers every request with status 500. *)
Definition server_500 (n : nat) (req : Request) : option Response :=
  Some (mkResponse (req_url req) 500 (Some "{}")).

(** The remote answers with a token holding a line feed (escaped in
    the JSON text, so the body decodes). *)
Definition server_bad (n : nat) (req : Request) : option Response :=
  Some (mkResponse (req_url req) 201 (Some (token_body "T\nX"))).

(** Worlds at the fourth reading (56 minutes after [it0]'s fetch). *)
Definition w_500 : World := mkWorld clock0 3 server_500 [] [].
Definition w_bad : World := mkWorld clock0 3 server_bad [] [].

(** A clock set back before [it0]'s fetch time, and one before 1970. *)
Definition w_back : World := mkWorld (fun _ => mkSystemTime T0 0) 0 server0 [] [].
Definition w_pre_epoch : World := mkWorld (fun _ => mkSystemTime (-5) 0) 0 server0 [] [].

Definition err_500 : AuthError :=
  ReqwestError (mkReqwestError (KStatus 500) (Some (access_tokens_url 5678))).

(** The JWT [stub_encoder] signs at the first reading of [world0]. *)
Definition jwt0 : string :=
  match jwt_encode jwt_header (claims_json (claims_at (clock_now world0) params0)) (jwt_key params0) with
  | Ok t => t
  | Err _ => ""
  end.

(** ** Witnesses *)

(** The two calls of the scenario. *)
Definition calls0 : list Call := [mkCall w1 (fst run_h1) w2; mkCall w2 (fst run_h2) w3].

Lemma runs_refine_witness :
  time_wf (fetch_time it0) = true /\ runs it0 calls0 it2 /\
  exists ls, aruns (abs it0) ls (abs it2) /\ Forall2 (call_matches (client it0) (params it0)) calls0 ls.
Proof.
  assert (Hf : time_wf (fetch_time it0) = true) by reflexivity.
  assert (Hr : runs it0 calls0 it2).
  { apply (runs_step it0 (mkCall w1 (fst run_h1) w2) it0 _ it2).
    - apply clock_wf_of. vm_compute. reflexivity.
    - apply clock_mono_of. vm_compute. reflexivity.
    - vm_compute. reflexivity.
    - apply (runs_step it0 (mkCall w2 (fst run_h2) w3) it2 [] it2).
      + apply clock_wf_of. vm_compute. reflexivity.
      + apply clock_mono_of. vm_compute. reflexivity.
      + vm_compute. reflexivity.
      + apply runs_nil. }
  split; [exact Hf|]. split; [exact Hr|]. exact (runs_refine it0 _ it2 Hf Hr).
Defined.

Lemma header_fresh_witness :
  clock_wf w1 /\ time_wf (fetch_time it0) = true /\
  (to_nanos (fetch_time it0) <= to_nanos (clock_now w1))%Z /\
  (to_nanos (clock_now w1) < to_nanos (fetch_time it0) + 3301 * NSEC_PER_SEC)%Z /\
  header (it0, w1) = (auth_header (token it0), (it0, tick w1)).
Proof.
  assert (Hw : clock_wf w1) by (apply clock_wf_of; vm_compute; reflexivity).
  assert (Hf : time_wf (fetch_time it0) = true) by reflexivity.
  assert (Hle : (to_nanos (fetch_time it0) <= to_nanos (clock_now w1))%Z)
    by (apply Z.leb_le; vm_compute; reflexivity).
  assert (Hlt : (to_nanos (clock_now w1) < to_nanos (fetch_time it0) + 3301 * NSEC_PER_SEC)%Z)
    by (apply Z.ltb_lt; vm_compute; reflexivity).
  split; [exact Hw|]. split; [exact Hf|]. split; [exact Hle|]. split; [exact Hlt|].
  exact (header_fresh it0 w1 Hw Hf Hle Hlt).
Defined.

Lemma header_stale_witness :
  clock_wf w2 /\ time_wf (fetch_time it0) = true /\
  (to_nanos (fetch_time it0) + 3301 * NSEC_PER_SEC <= to_nanos (clock_now w2))%Z /\
  header (it0, w2) =
    match get_installation_token (client it0) (params it0)
            (record_log "refreshing installation token" (tick w2)) with
    | (Ok raw, w4) =>
        (auth_header (Token.token raw),
         (set_fetch_time (clock_now w4) (set_token (Token.token raw) it0), tick w4))
    | (Err e, w4) => (Err e, (it0, w4))
    end.
Proof.
  assert (Hw : clock_wf w2) by (apply clock_wf_of; vm_compute; reflexivity).
  assert (Hf : time_wf (fetch_time it0) = true) by reflexivity.
  assert (Hge : (to_nanos (fetch_time it0) + 3301 * NSEC_PER_SEC <= to_nanos (clock_now w2))%Z)
    by (apply Z.leb_le; vm_compute; reflexivity).
  split; [exact Hw|]. split; [exact Hf|]. split; [exact Hge|].
  exact (header_stale it0 w2 Hw Hf Hge).
Defined.

Definition run_500 : result unit AuthError * Sys := refresh (it0, w_500).

Lemma refresh_error_keeps_self_witness :
  refresh (it0, w_500) = (Err err_500, (fst (snd run_500), snd (snd run_500))) /\
  fst (snd run_500) = it0.
Proof.
  assert (H : refresh (it0, w_500) = (Err err_500, (fst (snd run_500), snd (snd run_500))))
    by (vm_compute; reflexivity).
  split; [exact H|]. exact (refresh_error_keeps_self it0 w_500 err_500 _ _ H).
Defined.

Lemma header_logs_refresh_iff_witness :
  clock_wf w2 /\ time_wf (fetch_time it0) = true /\
  (to_nanos (fetch_time it0) <= to_nanos (clock_now w2))%Z /\
  header (it0, w2) = (fst run_h2, (it2, w3)) /\
  (w_log w3 = (w_log w2 ++ ["refreshing installation token"])%list <->
   (to_nanos (fetch_time it0) + 3301 * NSEC_PER_SEC <= to_nanos (clock_now w2))%Z).
Proof.
  assert (Hw : clock_wf w2) by (apply clock_wf_of; vm_compute; reflexivity).
  assert (Hf : time_wf (fetch_time it0) = true) by reflexivity.
  assert (Hle : (to_nanos (fetch_time it0) <= to_nanos (clock_now w2))%Z)
    by (apply Z.leb_le; vm_compute; reflexivity).
  assert (Hh : header (it0, w2) = (fst run_h2, (it2, w3))) by (vm_compute; reflexivity).
  split; [exact Hw|]. split; [exact Hf|]. split; [exact Hle|]. split; [exact Hh|].
  exact (header_logs_refresh_iff it0 w2 _ it2 w3 Hw Hf Hle Hh).
Defined.

Lemma get_installation_token_run_witness :
  clock_wf world0 /\ (0 <= tv_sec (clock_now world0))%Z /\
  jwt_encode jwt_header (claims_json (claims_at (clock_now world0) params0)) (jwt_key params0) = Ok jwt0 /\
  header_value_ok ("Bearer " ++ jwt0) = true /\
  get_installation_token (configured_client "my-cool-user-agent") params0 world0 =
    (exchange_result params0
       (w_server world0 (List.length (w_sent world0))
          (exchange_request (configured_client "my-cool-user-agent") params0 jwt0)),
     record_request (exchange_request (configured_client "my-cool-user-agent") params0 jwt0)
       (tick world0)).
Proof.
  assert (Hs : (0 <= tv_sec (clock_now world0))%Z) by (apply Z.leb_le; vm_compute; reflexivity).
  assert (He : jwt_encode jwt_header (claims_json (claims_at (clock_now world0) params0))
                 (jwt_key params0) = Ok jwt0) by (vm_compute; reflexivity).
  assert (Hv : header_value_ok ("Bearer " ++ jwt0) = true) by (vm_compute; reflexivity).
  split; [exact world0_clock_wf|]. split; [exact Hs|]. split; [exact He|]. split; [exact Hv|].
  exact (get_installation_token_run _ params0 world0 jwt0 world0_clock_wf Hs He Hv).
Defined.

Lemma reachable_inv_witness : reachable params0 it2 /\ config_inv params0 it2.
Proof.
  assert (H0 : reachable params0 it0)
    by (apply (reach_new params0 world0 w1 it0); vm_compute; reflexivity).
  assert (H1 : reachable params0 it0)
    by (apply (reach_header params0 it0 w1 (fst run_h1) it0 w2 H0); vm_compute; reflexivity).
  assert (H2 : reachable params0 it2)
    by (apply (reach_header params0 it0 w2 (fst run_h2) it2 w3 H1); vm_compute; reflexivity).
  split; [exact H2|]. exact (reachable_inv params0 it2 H2).
Defined.

Lemma JwtClaims_new_spec_witness :
  clock_wf world0 /\ (0 <= tv_sec (clock_now world0))%Z /\
  exists c, JwtClaims_new params0 world0 = (Ok c, tick world0) /\
    iat c = tv_sec (clock_now world0) /\ exp c = (iat c + 60)%Z /\ iss c = app_id params0 /\
    in_u64 (iat c) = true /\ in_u64 (exp c) = true.
Proof.
  assert (Hs : (0 <= tv_sec (clock_now world0))%Z) by (apply Z.leb_le; vm_compute; reflexivity).
  split; [exact world0_clock_wf|]. split; [exact Hs|].
  exact (JwtClaims_new_spec params0 world0 world0_clock_wf Hs).
Defined.

Lemma header_clock_backwards_witness :
  clock_wf w_back /\ time_wf (fetch_time it0) = true /\
  (to_nanos (clock_now w_back) < to_nanos (fetch_time it0))%Z /\
  exists e, header (it0, w_back) = (Err (TimeError e), (it0, tick w_back)).
Proof.
  assert (Hw : clock_wf w_back) by (intros n; reflexivity).
  assert (Hf : time_wf (fetch_time it0) = true) by reflexivity.
  assert (Hlt : (to_nanos (clock_now w_back) < to_nanos (fetch_time it0))%Z)
    by (apply Z.ltb_lt; vm_compute; reflexivity).
  split; [exact Hw|]. split; [exact Hf|]. split; [exact Hlt|].
  exact (header_clock_backwards it0 w_back Hw Hf Hlt).
Defined.

Definition run_bad : result HeaderMap AuthError * Sys := header (it0, w_bad).

Lemma header_error_self_witness :
  header (it0, w_bad) =
    (Err (InvalidHeaderValue InvalidHeaderValue_priv), (fst (snd run_bad), snd (snd run_bad))) /\
  (fst (snd run_bad) = it0 \/
   exists tok t ie, fst (snd run_bad) = set_fetch_time t (set_token tok it0) /\
     HeaderValue_from_str (auth_value tok) = Err ie /\
     InvalidHeaderValue InvalidHeaderValue_priv = InvalidHeaderValue ie).
Proof.
  assert (H : header (it0, w_bad) =
    (Err (InvalidHeaderValue InvalidHeaderValue_priv), (fst (snd run_bad), snd (snd run_bad))))
    by (vm_compute; reflexivity).
  split; [exact H|]. exact (header_error_self it0 w_bad _ _ _ H).
Defined.

Lemma new_family_checked_witness :
  clock_wf world0 /\ (0 <= tv_sec (clock_now world0))%Z /\
  header_value_ok (user_agent params0) = true /\
  new (enc := family_checked_v7 stub_sign) params0 world0 =
    (Err (JwtError (mkError InvalidAlgorithm)), tick world0).
Proof.
  assert (Hs : (0 <= tv_sec (clock_now world0))%Z) by (apply Z.leb_le; vm_compute; reflexivity).
  assert (Hua : header_value_ok (user_agent params0) = true) by reflexivity.
  split; [exact world0_clock_wf|]. split; [exact Hs|]. split; [exact Hua|].
  exact (@new_family_checked (family_checked_v7 stub_sign) (family_checked_v7_law stub_sign)
           params0 world0 world0_clock_wf Hs Hua).
Defined.

(** A remote that answers 201 and then drops the connection before the
    body is read. *)
Definition server_cut (n : nat) (req : Request) : option Response :=
  Some (mkResponse (req_url req) 201 None).

Definition world_cut : World := mkWorld clock0 0 server_cut [] [].

Lemma get_installation_token_body_error_witness :
  let client := configured_client "my-cool-user-agent" in
  let resp := mkResponse (access_tokens_url 5678) 201 None in
  clock_wf world_cut /\ (0 <= tv_sec (clock_now world_cut))%Z /\
  jwt_encode jwt_header (claims_json (claims_at (clock_now world_cut) params0)) (jwt_key params0) = Ok jwt0 /\
  header_value_ok ("Bearer " ++ jwt0) = true /\
  w_server world_cut (List.length (w_sent world_cut)) (exchange_request client params0 jwt0) = Some resp /\
  ~ (400 <= resp_status resp < 600)%Z /\ resp_body resp = None /\
  get_installation_token client params0 world_cut =
    (Err (ReqwestError (mkReqwestError KBody None)),
     record_request (exchange_request client params0 jwt0) (tick world_cut)).
Proof.
  intros client resp.
  assert (Hw : clock_wf world_cut) by (intros n; apply clock0_wf).
  assert (Hs : (0 <= tv_sec (clock_now world_cut))%Z) by (apply Z.leb_le; vm_compute; reflexivity).
  assert (He : jwt_encode jwt_header (claims_json (claims_at (clock_now world_cut) params0))
                 (jwt_key params0) = Ok jwt0) by (vm_compute; reflexivity).
  assert (Hv : header_value_ok ("Bearer " ++ jwt0) = true) by (vm_compute; reflexivity).
  assert (Hsrv : w_server world_cut (List.length (w_sent world_cut))
                   (exchange_request client params0 jwt0) = Some resp) by reflexivity.
  assert (Hst : ~ (400 <= resp_status resp < 600)%Z) by (cbn; lia).
  assert (Hb : resp_body resp = None) by reflexivity.
  do 7 (split; [assumption|]).
  exact (get_installation_token_body_error client params0 world_cut jwt0 resp Hw Hs He Hv Hsrv Hst Hb).
Defined.

Definition params_bad_ua : GithubAuthParams :=
  mkGithubAuthParams ("my-agent" ++ NL) (list_byte_of_string "my private key") 5678 1234.

Lemma new_bad_user_agent_witness :
  header_value_ok (user_agent params_bad_ua) = false /\
  new params_bad_ua world0 = (Err (ReqwestError builder_error), world0).
Proof.
  assert (H : header_value_ok (user_agent params_bad_ua) = false) by reflexivity.
  split; [exact H|]. exact (new_bad_user_agent params_bad_ua world0 H).
Defined.

Lemma get_installation_token_before_epoch_witness :
  clock_wf w_pre_epoch /\ (tv_sec (clock_now w_pre_epoch) < 0)%Z /\
  exists e, get_installation_token (configured_client "my-cool-user-agent") params0 w_pre_epoch =
              (Err (TimeError e), tick w_pre_epoch).
Proof.
  assert (Hw : clock_wf w_pre_epoch) by (intros n; reflexivity).
  assert (Hs : (tv_sec (clock_now w_pre_epoch) < 0)%Z) by (apply Z.ltb_lt; vm_compute; reflexivity).
  split; [exact Hw|]. split; [exact Hs|].
  exact (get_installation_token_before_epoch _ params0 w_pre_epoch Hw Hs).
Defined.

(** ** Sessions *)

Lemma session_safety_witness :
  session params0 world0 it2 w3 3 /\
  exists l, w_sent w3 = (w_sent world0 ++ l)%list /\ (List.length l <= 3)%nat /\
    Forall (good_request params0) l.
Proof.
  assert (Hs : session params0 world0 it2 w3 3).
  { apply (session_header params0 world0 it0 w2 2 w2 (fst run_h2)); [|done|vm_compute; reflexivity].
    apply (session_header params0 world0 it0 w1 1 w1 (fst run_h1)); [|done|vm_compute; reflexivity].
    apply session_new. exact run_new_eq. }
  split; [exact Hs|]. exact (session_safety params0 world0 it2 w3 3 Hs).
Defined.

(** The JWT of the exchange the second [header] runs. *)
Definition jwt2 : string :=
  match jwt_encode jwt_header (claims_json (claims_at (clock_now (tick w2)) params0))
          (jwt_key params0) with
  | Ok t => t
  | Err _ => EmptyString
  end.

Definition resp2 : Response := mkResponse (access_tokens_url 5678) 201 (Some (token_body "T2")).
Definition raw2 : RawInstallationToken := mkRawInstallationToken "T2" (mkDateTime 1468275250 0).

Lemma header_recovers_witness :
  clock_wf w2 /\ time_wf (fetch_time it0) = true /\
  (to_nanos (fetch_time it0) + 3301 * NSEC_PER_SEC <= to_nanos (clock_now w2))%Z /\
  (0 <= tv_sec (clock_now (tick w2)))%Z /\
  jwt_encode jwt_header (claims_json (claims_at (clock_now (tick w2)) (params it0)))
    (jwt_key (params it0)) = Ok jwt2 /\
  header_value_ok ("Bearer " ++ jwt2) = true /\
  w_server w2 (List.length (w_sent w2)) (exchange_request (client it0) (params it0) jwt2) = Some resp2 /\
  ~ (400 <= resp_status resp2 < 600)%Z /\
  resp_body resp2 = Some (token_body "T2") /\ from_slice (token_body "T2") = Ok raw2 /\
  header_value_ok (auth_value (Token.token raw2)) = true /\
  header (it0, w2) =
    (Ok [(AUTHORIZATION, auth_value "T2")],
     (set_fetch_time
        (clock_now (record_request (exchange_request (client it0) (params it0) jwt2)
                      (tick (record_log "refreshing installation token" (tick w2)))))
        (set_token "T2" it0),
      tick (record_request (exchange_request (client it0) (params it0) jwt2)
              (tick (record_log "refreshing installation token" (tick w2)))))).
Proof.
  assert (Hw : clock_wf w2) by (apply clock_wf_of; vm_compute; reflexivity).
  assert (Hf : time_wf (fetch_time it0) = true) by reflexivity.
  assert (Hst : (to_nanos (fetch_time it0) + 3301 * NSEC_PER_SEC <= to_nanos (clock_now w2))%Z)
    by (apply Z.leb_le; vm_compute; reflexivity).
  assert (Hs : (0 <= tv_sec (clock_now (tick w2)))%Z) by (apply Z.leb_le; vm_compute; reflexivity).
  assert (He : jwt_encode jwt_header (claims_json (claims_at (clock_now (tick w2)) (params it0)))
                 (jwt_key (params it0)) = Ok jwt2) by (vm_compute; reflexivity).
  assert (Hv : header_value_ok ("Bearer " ++ jwt2) = true) by (vm_compute; reflexivity).
  assert (Hsrv : w_server w2 (List.length (w_sent w2))
                   (exchange_request (client it0) (params it0) jwt2) = Some resp2)
    by (vm_compute; reflexivity).
  assert (Hcode : ~ (400 <= resp_status resp2 < 600)%Z) by (cbn; lia).
  assert (Hb : resp_body resp2 = Some (token_body "T2")) by reflexivity.
  assert (Hd : from_slice (token_body "T2") = Ok raw2) by (vm_compute; reflexivity).
  assert (Hok : header_value_ok (auth_value (Token.token raw2)) = true) by (vm_compute; reflexivity).
  do 11 (split; [assumption|]).
  exact (header_recovers it0 w2 jwt2 resp2 _ raw2 Hw Hf Hst Hs He Hv Hsrv Hcode Hb Hd Hok).
Defined.

Lemma exchange_bearer_decodes_witness :
  clock_wf world0 /\ (0 <= tv_sec (clock_now world0))%Z /\
  exists l,
    w_sent (snd (get_installation_token (configured_client "my-cool-user-agent") params0 world0)) =
      (w_sent world0 ++ l)%list /\
    Forall (fun req => exists jwt hd pl sig,
      req = exchange_request (configured_client "my-cool-user-agent") params0 jwt /\
      jwt_segments jwt = Some (hd, pl, sig) /\
      Base64.b64_decode hd = Some RS256_HEADER_JSON /\
      Base64.b64_decode pl = Some (claims_json (claims_at (clock_now world0) params0))) l.
Proof.
  assert (Hs : (0 <= tv_sec (clock_now world0))%Z) by (apply Z.leb_le; vm_compute; reflexivity).
  split; [exact world0_clock_wf|]. split; [exact Hs|].
  exact (@exchange_bearer_decodes stub_encoder (jws_unchecked_jws stub_sign) _ params0 world0
           world0_clock_wf Hs).
Defined.

Definition h2 : HeaderMap := [(AUTHORIZATION, "token T2")].
Definition repo_url : string := "https://api.github.com/repos/o/r/issues".

Lemma client_reuse_witness :
  config_inv params0 it0 /\ header (it0, w2) = (Ok h2, (it2, w3)) /\
  url_parse repo_url = Ok repo_url /\
  exists req, rb_request (user_post it2 repo_url h2) = Ok req /\
    hm_get AUTHORIZATION (req_headers (with_default_headers (client it2) req)) =
      Some (auth_value (token it2)) /\
    hm_get USER_AGENT (req_headers (with_default_headers (client it2) req)) =
      Some (user_agent params0).
Proof.
  assert (Hi : config_inv params0 it0).
  { split; [reflexivity|]. split; [vm_compute; reflexivity|reflexivity]. }
  assert (Hh : header (it0, w2) = (Ok h2, (it2, w3))) by (vm_compute; reflexivity).
  assert (Hu : url_parse repo_url = Ok repo_url) by reflexivity.
  split; [exact Hi|]. split; [exact Hh|]. split; [exact Hu|].
  exact (client_reuse params0 it0 w2 h2 it2 w3 repo_url Hi Hh Hu).
Defined.

(** A remote that answers the second exchange with a month 13 expiry. *)
Definition bad_expiry_entries : list (string * string) :=
  [("token", "T2"); ("expires_at", "never")].

Definition resp_bad : Response := mkResponse (access_tokens_url 5678) 201 (Some (flat_object bad_expiry_entries)).

Definition w2_bad : World :=
  mkWorld (w_clock w2) (w_reads w2) (fun _ _ => Some resp_bad) (w_sent w2) (w_log w2).

Lemma header_bad_expiry_witness :
  clock_wf w2_bad /\ time_wf (fetch_time it0) = true /\
  (to_nanos (fetch_time it0) + 3301 * NSEC_PER_SEC <= to_nanos (clock_now w2_bad))%Z /\
  (0 <= tv_sec (clock_now (tick w2_bad)))%Z /\
  jwt_encode jwt_header (claims_json (claims_at (clock_now (tick w2_bad)) (params it0)))
    (jwt_key (params it0)) = Ok jwt2 /\
  header_value_ok ("Bearer " ++ jwt2) = true /\
  w_server w2_bad (List.length (w_sent w2_bad)) (exchange_request (client it0) (params it0) jwt2) =
    Some resp_bad /\
  ~ (400 <= resp_status resp_bad < 600)%Z /\
  resp_body resp_bad = Some (flat_object bad_expiry_entries) /\
  forallb entry_valid bad_expiry_entries = true /\
  count_key "token" bad_expiry_entries <= 1 /\ count_key "expires_at" bad_expiry_entries <= 1 /\
  lookup_field "expires_at" bad_expiry_entries = Some "never" /\
  digit_free "never" = true /\
  header (it0, w2_bad) =
    (Err (ReqwestError decode_error),
     (it0, record_request (exchange_request (client it0) (params it0) jwt2)
             (tick (record_log "refreshing installation token" (tick w2_bad))))).
Proof.
  assert (Hw : clock_wf w2_bad) by (apply clock_wf_of; vm_compute; reflexivity).
  assert (Hf : time_wf (fetch_time it0) = true) by reflexivity.
  assert (Hst : (to_nanos (fetch_time it0) + 3301 * NSEC_PER_SEC <= to_nanos (clock_now w2_bad))%Z)
    by (apply Z.leb_le; vm_compute; reflexivity).
  assert (Hs : (0 <= tv_sec (clock_now (tick w2_bad)))%Z) by (apply Z.leb_le; vm_compute; reflexivity).
  assert (He : jwt_encode jwt_header (claims_json (claims_at (clock_now (tick w2_bad)) (params it0)))
                 (jwt_key (params it0)) = Ok jwt2) by (vm_compute; reflexivity).
  assert (Hv : header_value_ok ("Bearer " ++ jwt2) = true) by (vm_compute; reflexivity).
  assert (Hsrv : w_server w2_bad (List.length (w_sent w2_bad))
                   (exchange_request (client it0) (params it0) jwt2) = Some resp_bad) by reflexivity.
  assert (Hcode : ~ (400 <= resp_status resp_bad < 600)%Z) by (cbn; lia).
  assert (Hb : resp_body resp_bad = Some (flat_object bad_expiry_entries)) by reflexivity.
  assert (Hp : forallb entry_valid bad_expiry_entries = true) by (vm_compute; reflexivity).
  assert (Ht : count_key "token" bad_expiry_entries <= 1) by (vm_compute; lia).
  assert (Hc : count_key "expires_at" bad_expiry_entries <= 1) by (vm_compute; lia).
  assert (Hl : lookup_field "expires_at" bad_expiry_entries = Some "never")
    by (vm_compute; reflexivity).
  assert (Hx : digit_free "never" = true) by (vm_compute; reflexivity).
  do 14 (split; [assumption|]).
  exact (header_bad_expiry it0 w2_bad jwt2 resp_bad bad_expiry_entries _
           Hw Hf Hst Hs He Hv Hsrv Hcode Hb Hp Ht Hc Hl Hx).
Defined.

(** The stub's signature is base64url text, so its tokens are compact. *)
Lemma stub_compact : CompactOutput stub_encoder.
Proof. apply jws_unchecked_compact. intros a k m sig [= <-]. reflexivity. Qed.

Lemma exchange_signed_sends_witness :
  clock_wf world0 /\ (0 <= tv_sec (clock_now world0))%Z /\
  jwt_encode jwt_header (claims_json (claims_at (clock_now world0) params0)) (jwt_key params0) = Ok jwt0 /\
  w_sent (snd (get_installation_token (configured_client "my-cool-user-agent") params0 world0)) =
    [exchange_request (configured_client "my-cool-user-agent") params0 jwt0].
Proof.
  assert (Hs : (0 <= tv_sec (clock_now world0))%Z) by (apply Z.leb_le; vm_compute; reflexivity).
  assert (He : jwt_encode jwt_header (claims_json (claims_at (clock_now world0) params0))
                 (jwt_key params0) = Ok jwt0) by (vm_compute; reflexivity).
  split; [exact world0_clock_wf|]. split; [exact Hs|]. split; [exact He|].
  exact (proj2 (@exchange_signed_sends stub_encoder stub_compact _ params0 world0 jwt0
                  world0_clock_wf Hs He)).
Defined.

Lemma header_updates_together_witness :
  header (it0, w2) = (fst run_h2, (it2, w3)) /\
  (it2 = it0 \/
   exists raw w2',
     get_installation_token (client it0) (params it0)
       (record_log "refreshing installation token" (tick w2)) = (Ok raw, w2') /\
     it2 = set_fetch_time (clock_now w2') (set_token (Token.token raw) it0)).
Proof.
  assert (H : header (it0, w2) = (fst run_h2, (it2, w3))) by (vm_compute; reflexivity).
  split; [exact H|]. exact (header_updates_together it0 w2 _ it2 w3 H).
Defined.

End Scenario.
